(** * Client-Support knowledge agent, front end: session store and query client

    A shallow embedding of the chat hook ([hooks/useChat]), of the
    send-message handler of [App] and of the query client ([lib/api]),
    with the properties of the written specification checked against it;
    then of the transcript export, the chat list of the side bar and the
    cells [App] keeps in the browser's store, with further properties
    read off the code.

    Conventions of the embedding.
    - A JavaScript string is a [string]; one [ascii] stands for one code
      unit, so the model covers text whose code units are below 256.
    - React state is a record; a handler is a function of the render it
      closes over (the values it read when it was created) and of the
      state the queued updates are applied to.  A setter called with a
      value overwrites, a setter called with a function is applied to the
      state at hand.
    - Reads of the clock ([Date.now()], [new Date()]) are arguments. *)

From Stdlib Require Import List String Ascii ZArith Lia Bool Arith.
Import ListNotations.
Local Open Scope string_scope.
Local Open Scope list_scope.
Local Open Scope Z_scope.

(** ** JavaScript values the program handles *)

Module Js.

(** Decimal digits. *)
Inductive digit := d0 | d1 | d2 | d3 | d4 | d5 | d6 | d7 | d8 | d9.

Definition digit_char (d : digit) : ascii :=
  match d with
  | d0 => "0" | d1 => "1" | d2 => "2" | d3 => "3" | d4 => "4"
  | d5 => "5" | d6 => "6" | d7 => "7" | d8 => "8" | d9 => "9"
  end%char.

Definition char_digit (c : ascii) : option digit :=
  match c with
  | "0" => Some d0 | "1" => Some d1 | "2" => Some d2 | "3" => Some d3
  | "4" => Some d4 | "5" => Some d5 | "6" => Some d6 | "7" => Some d7
  | "8" => Some d8 | "9" => Some d9 | _ => None
  end%char.

Definition digit_val (d : digit) : Z :=
  match d with
  | d0 => 0 | d1 => 1 | d2 => 2 | d3 => 3 | d4 => 4
  | d5 => 5 | d6 => 6 | d7 => 7 | d8 => 8 | d9 => 9
  end.

Definition digit_of_Z (z : Z) : digit :=
  match z with
  | 0 => d0 | 1 => d1 | 2 => d2 | 3 => d3 | 4 => d4
  | 5 => d5 | 6 => d6 | 7 => d7 | 8 => d8 | _ => d9
  end.

Definition is_zero_digit (d : digit) : bool :=
  match d with d0 => true | _ => false end.

Fixpoint render_digits (ds : list digit) : string :=
  match ds with
  | [] => ""
  | d :: r => String (digit_char d) (render_digits r)
  end.

(** One more digit at the right of a number. *)
Definition shift (a : Z) (d : digit) : Z := 10 * a + digit_val d.

(** Value of a digit sequence read from the left, most significant
    digit first. *)
Definition digits_value (ds : list digit) : Z := fold_left shift ds 0.

(** Decimal digits of a natural number: the last digit is peeled off
    until the quotient is zero.  [fuel] bounds the number of digits. *)
Fixpoint to_digits (fuel : nat) (n : Z) (acc : list digit) : list digit :=
  match fuel with
  | O => acc
  | S f =>
      let acc' := digit_of_Z (n mod 10) :: acc in
      if n / 10 =? 0 then acc' else to_digits f (n / 10) acc'
  end.

Definition digits_of_Z (n : Z) : list digit :=
  to_digits (S (Z.to_nat (Z.log2 n))) n [].

(** [n.toString()] for an integer number [n]. *)
Definition Z_toString (n : Z) : string :=
  if n <? 0 then String "-" (render_digits (digits_of_Z (- n)))
  else render_digits (digits_of_Z n).

(** [s.slice(0, n)]: the first [n] code units of [s], all of [s] when
    it is shorter. *)
Fixpoint slice0 (n : nat) (s : string) : string :=
  match n, s with
  | S k, String c r => String c (slice0 k r)
  | _, _ => ""
  end.

(** White space and line terminators ([String.prototype.trim]), as far
    as they are code units below 256: TAB, LF, VT, FF, CR, SP, NBSP. *)
Definition is_space (c : ascii) : bool :=
  match nat_of_ascii c with
  | 9 | 10 | 11 | 12 | 13 | 32 | 160 => true
  | _ => false
  end%nat.

Fixpoint trimStart (s : string) : string :=
  match s with
  | String c r => if is_space c then trimStart r else s
  | "" => ""
  end.

Fixpoint trimEnd (s : string) : string :=
  match s with
  | "" => ""
  | String c r =>
      match trimEnd r with
      | "" => if is_space c then "" else String c ""
      | r' => String c r'
      end
  end.

Definition trim (s : string) : string := trimEnd (trimStart s).

(** [f] on each element, in order; [None] as soon as one gives
    [None]. *)
Definition traverse {A B} (f : A -> option B) : list A -> option (list B) :=
  fix go (l : list A) : option (list B) :=
    match l with
    | [] => Some []
    | x :: r =>
        match f x, go r with
        | Some y, Some r' => Some (y :: r')
        | _, _ => None
        end
    end.

(** Truthiness of a string: every string but the empty one. *)
Definition truthy_string (s : string) : bool := negb (String.eqb s "").

(** Truthiness of a [string | null]. *)
Definition truthy_ref (r : option string) : bool :=
  match r with
  | Some s => truthy_string s
  | None => false
  end.

(** A JavaScript number, as far as JSON text can denote one: a decimal
    [0.d1 d2 ... dk * 10^point], negated when [negative].  Zero is the
    empty digit sequence.  Rounding to binary floating point is not
    modelled. *)
Record number := Number { negative : bool; digits : list digit; point : Z }.

Definition zero : number := Number false [] 0.

(** The digits of a number other than zero start and end with a
    digit other than 0, so that each number has one representation;
    zero has no sign. *)
Fixpoint ends_nonzero (ds : list digit) : bool :=
  match ds with
  | [] => false
  | [d] => negb (is_zero_digit d)
  | _ :: r => ends_nonzero r
  end.

Definition canonical (x : number) : bool :=
  match digits x with
  | [] => negb (negative x) && (point x =? 0)
  | d :: _ => negb (is_zero_digit d) && ends_nonzero (digits x)
  end.

(** Truthiness of a number: every number but zero. *)
Definition truthy_number (n : number) : bool :=
  match digits n with [] => false | _ => true end.

(** A [Date] object: a time value in milliseconds since the epoch, or
    the Invalid Date (time value NaN). *)
Inductive Date := ValidDate (t : Z) | InvalidDate.

(** The largest time value, 8.64e15 ms. *)
Definition maxTime : Z := 8640000000000000.

(** [TimeClip]. *)
Definition timeClip (t : Z) : Date :=
  if Z.abs t <=? maxTime then ValidDate t else InvalidDate.

(** The date is an instant: a time value, within the range of time
    values. *)
Definition is_instant (d : Date) : bool :=
  match d with
  | ValidDate t => Z.abs t <=? maxTime
  | InvalidDate => false
  end.

End Js.

(** ** The data model ([types]) *)

Inductive Role := user | assistant.

Module Message.
Record t := Build {
  id : string;
  role : Role;
  content : string;
  intent : option string;
  confidence : option Js.number;
  sources : option (list string);
  timestamp : Js.Date
}.
End Message.

Module ChatHistory.
Record t := Build {
  id : string;
  title : string;
  messages : list Message.t;
  lastUpdated : Js.Date
}.
End ChatHistory.

Module ApiResponse.
Record t := Build {
  intent : string;
  confidence : Js.number;
  response : string;
  sources : list string;
  action_invoked : option string;
  timestamp : string
}.
End ApiResponse.

(** ** The chat hook ([useChat]) *)

Module Chat.

(** The three state cells of the hook. *)
Record State := Build {
  chatHistories : list ChatHistory.t;
  currentChatId : option string;
  messages : list Message.t
}.

Definition setChatHistories (f : list ChatHistory.t -> list ChatHistory.t)
    (s : State) : State :=
  Build (f (chatHistories s)) (currentChatId s) (messages s).

Definition setCurrentChatId (v : option string) (s : State) : State :=
  Build (chatHistories s) v (messages s).

Definition setMessages (f : list Message.t -> list Message.t)
    (s : State) : State :=
  Build (chatHistories s) (currentChatId s) (f (messages s)).

(** The state the hook starts from, given the histories read from the
    store. *)
Definition initial (stored : list ChatHistory.t) : State :=
  Build stored None [].

Definition startNewChat (s : State) : State :=
  setCurrentChatId None (setMessages (fun _ => []) s).

(** [{...msg, timestamp: new Date(msg.timestamp)}] *)
Definition copyMessage (msg : Message.t) : Message.t :=
  Message.Build (Message.id msg) (Message.role msg) (Message.content msg)
    (Message.intent msg) (Message.confidence msg) (Message.sources msg)
    (Message.timestamp msg).

(** [loadChat]: the chat is looked up in the histories of the render
    [view] the handler closes over. *)
Definition loadChat (view : State) (chatId : string) (s : State) : State :=
  match find (fun c => String.eqb (ChatHistory.id c) chatId)
             (chatHistories view) with
  | Some chat =>
      setCurrentChatId (Some chatId)
        (setMessages (fun _ => map copyMessage (ChatHistory.messages chat)) s)
  | None => s
  end.

(** [deleteChat]: the filter runs on the histories at hand, the
    comparison with the active chat on the render's [currentChatId]. *)
Definition deleteChat (view : State) (chatId : string) (s : State) : State :=
  let s1 :=
    setChatHistories
      (filter (fun chat => negb (String.eqb (ChatHistory.id chat) chatId))) s in
  match currentChatId view with
  | Some cur => if String.eqb cur chatId then startNewChat s1 else s1
  | None => s1
  end.

Definition clearHistory (s : State) : State :=
  setCurrentChatId None
    (setMessages (fun _ => []) (setChatHistories (fun _ => []) s)).

Definition addMessage (message : Message.t) (s : State) : State :=
  setMessages (fun prev => prev ++ [message]) s.

(** [{ ...chat, messages: newMessages, lastUpdated: new Date() }] *)
Definition withMessages (chat : ChatHistory.t) (newMessages : list Message.t)
    (now : Z) : ChatHistory.t :=
  ChatHistory.Build (ChatHistory.id chat) (ChatHistory.title chat)
    newMessages (Js.ValidDate now).

(** [updateChatHistory].  [messages] and [currentChatId] are those of
    the render [view]; [t_id] is the clock read by [Date.now()] for the
    id of a new chat, [t_upd] the one read by [new Date()] for
    [lastUpdated] (one reading, also when several chats carry the
    id). *)
Definition updateChatHistory (t_id t_upd : Z) (view : State)
    (userMessage assistantMessage : Message.t) (s : State) : State :=
  let newMessages := messages view ++ [userMessage; assistantMessage] in
  if Js.truthy_ref (currentChatId view) then
    setChatHistories
      (map (fun chat =>
              if match currentChatId view with
                 | Some cur => String.eqb (ChatHistory.id chat) cur
                 | None => false
                 end
              then withMessages chat newMessages t_upd
              else chat)) s
  else
    let newChat :=
      ChatHistory.Build (Js.Z_toString t_id)
        (Js.slice0 50 (Message.content userMessage))
        newMessages (Js.ValidDate t_upd) in
    setCurrentChatId (Some (ChatHistory.id newChat))
      (setChatHistories (fun prev => newChat :: prev) s).

End Chat.

(** ** Exceptions *)

Inductive Exn :=
| Error (message : string)   (* [new Error(message)] *)
| TypeError                  (* reading a property of [null] *)
| SyntaxError                (* text that is not JSON *)
| FetchFailed.               (* [fetch] rejected: no response arrived *)

(** ** The send-message handler of [App] *)

Module App.

(** The state of [App] the handler reads or writes: the hook's cells
    and the cells of the component itself. *)
Record State := Build {
  chat : Chat.State;
  inputValue : string;
  isLoading : bool;
  showToast : option string;
  apiUrl : string;
  userId : string
}.

Definition onChat (f : Chat.State -> Chat.State) (s : State) : State :=
  Build (f (chat s)) (inputValue s) (isLoading s) (showToast s)
    (apiUrl s) (userId s).

Definition setInputValue (v : string) (s : State) : State :=
  Build (chat s) v (isLoading s) (showToast s) (apiUrl s) (userId s).

Definition setIsLoading (v : bool) (s : State) : State :=
  Build (chat s) (inputValue s) v (showToast s) (apiUrl s) (userId s).

Definition setShowToast (v : option string) (s : State) : State :=
  Build (chat s) (inputValue s) (isLoading s) v (apiUrl s) (userId s).

(** A call of [sendQueryToAPI] that has not settled yet, with what the
    suspended handler still holds: the render it closes over and the
    user message it built. *)
Record Exchange := Await {
  view : State;
  userMessage : Message.t;
  url : string;
  user_id : string;
  query : string
}.

(** The guard of [sendMessage]: [!inputValue.trim() || isLoading]. *)
Definition rejected (view : State) : bool :=
  negb (Js.truthy_string (Js.trim (inputValue view))) || isLoading view.

(** [sendMessage] up to its [await].  [clock] gives the readings of
    the clock, one for each place the handler reads it: [clock 0] is
    read by [Date.now()] for the id of the message and [clock 1] by
    [new Date()] for its timestamp.  The result is the state after the
    queued updates and the exchange awaited, if one was started. *)
Definition sendMessage (clock : nat -> Z) (view s : State)
    : State * option Exchange :=
  if rejected view then (s, None)
  else
    let userMessage :=
      Message.Build (Js.Z_toString (clock 0%nat)) user (inputValue view)
        None None None (Js.ValidDate (clock 1%nat)) in
    (setIsLoading true
       (setInputValue "" (onChat (Chat.addMessage userMessage) s)),
     Some (Await view userMessage (apiUrl view) (userId view)
             (inputValue view))).

(** [sendMessage] from its [await] on, for the exchange [x] and the
    way the call settled.  [clock 0] and [clock 1] are read for the id
    and the timestamp of the assistant message, [clock 2] and
    [clock 3] by [updateChatHistory], which is the one of the render
    the handler closes over. *)
Definition resume (clock : nat -> Z) (x : Exchange)
    (outcome : Exn + ApiResponse.t) (s : State) : State :=
  let s' :=
    match outcome with
    | inr data =>
        let assistantMessage :=
          Message.Build (Js.Z_toString (clock 0%nat + 1)) assistant
            (ApiResponse.response data)
            (Some (ApiResponse.intent data))
            (Some (ApiResponse.confidence data))
            (Some (ApiResponse.sources data))
            (Js.ValidDate (clock 1%nat)) in
        onChat (Chat.updateChatHistory (clock 2%nat) (clock 3%nat)
                  (chat (view x)) (userMessage x) assistantMessage)
          (onChat (Chat.addMessage assistantMessage) s)
    | inl _ =>
        onChat
          (Chat.setMessages
             (filter (fun msg =>
                negb (String.eqb (Message.id msg)
                                 (Message.id (userMessage x))))))
          (setShowToast
             (Some "Failed to get response. Please check your connection.")
             s)
    end in
  setIsLoading false s'.

(** The component with its suspended handlers. *)
Record World := Run { app : State; inflight : list Exchange }.

Inductive Event :=
| Typed (text : string)
| Send (clock : nat -> Z)
| Settled (i : nat) (outcome : Exn + ApiResponse.t) (clock : nat -> Z)
| NewChat
| LoadChat (chatId : string)
| DeleteChat (chatId : string)
| ClearHistory
| ToastExpired.

(** One event of the user interface or of the network.  Handlers of the
    interface close over the render of the state at hand; a settled
    call resumes the handler that awaited it. *)
Definition step (w : World) (e : Event) : World :=
  let s := app w in
  match e with
  | Typed text => Run (setInputValue text s) (inflight w)
  | Send clock =>
      match sendMessage clock s s with
      | (s', Some x) => Run s' (inflight w ++ [x])
      | (s', None) => Run s' (inflight w)
      end
  | Settled i outcome clock =>
      match nth_error (inflight w) i with
      | Some x =>
          Run (resume clock x outcome s)
            (firstn i (inflight w) ++ skipn (S i) (inflight w))
      | None => w
      end
  | NewChat =>
      Run (setShowToast (Some "New conversation started")
             (onChat Chat.startNewChat s)) (inflight w)
  | LoadChat chatId =>
      Run (onChat (Chat.loadChat (chat s) chatId) s) (inflight w)
  | DeleteChat chatId =>
      Run (setShowToast (Some "Chat deleted")
             (onChat (Chat.deleteChat (chat s) chatId) s)) (inflight w)
  | ClearHistory =>
      Run (setShowToast (Some "Chat history cleared")
             (onChat Chat.clearHistory s)) (inflight w)
  | ToastExpired => Run (setShowToast None s) (inflight w)
  end.

Definition run (w : World) (es : list Event) : World := fold_left step es w.

(** The busy flag counts the exchanges in flight. *)
Definition flight_ok (w : World) : Prop :=
  List.length (inflight w) = if isLoading (app w) then 1%nat else 0%nat.

(** The component as it mounts: nothing typed, nothing in flight. *)
Definition mount (stored : list ChatHistory.t) (apiUrl userId : string)
    : World :=
  Run (Build (Chat.initial stored) "" false None apiUrl userId) [].

End App.

(** ** Sequences of hook operations *)

Module Session.

(** The operations the hook returns.  Each runs in the render of the
    state at hand, except [updateChatHistory], which the suspended
    send-message handler calls with the render [view] it closed over. *)
Inductive Op :=
| StartNewChat
| LoadChat (chatId : string)
| DeleteChat (chatId : string)
| ClearHistory
| AddMessage (message : Message.t)
| UpdateChatHistory (t_id t_upd : Z) (view : Chat.State)
    (userMessage assistantMessage : Message.t).

Definition exec (s : Chat.State) (op : Op) : Chat.State :=
  match op with
  | StartNewChat => Chat.startNewChat s
  | LoadChat chatId => Chat.loadChat s chatId s
  | DeleteChat chatId => Chat.deleteChat s chatId s
  | ClearHistory => Chat.clearHistory s
  | AddMessage message => Chat.addMessage message s
  | UpdateChatHistory t_id t_upd view u a =>
      Chat.updateChatHistory t_id t_upd view u a s
  end.

Definition execs (s : Chat.State) (ops : list Op) : Chat.State :=
  fold_left exec ops s.

(** Ids are named: no chat has the empty string for id, and the
    active-chat reference is not the empty string. *)
Definition named (s : Chat.State) : Prop :=
  Forall (fun c => ChatHistory.id c <> "") (Chat.chatHistories s) /\
  Chat.currentChatId s <> Some "".

(** The active-chat reference is attached: it names a chat of the
    histories, or there is none. *)
Definition attached (s : Chat.State) : Prop :=
  forall cur, Chat.currentChatId s = Some cur ->
    exists c, In c (Chat.chatHistories s) /\ ChatHistory.id c = cur.

End Session.

(** ** JSON: values, [JSON.parse] and [JSON.stringify] *)

Module Json.

(** What [JSON.parse] builds.  An object keeps its members in the order
    of the text, repeated names included; reading a property takes the
    last member of that name, as the later definition overwrote the
    earlier one. *)
#[warnings="-register-all"]
Inductive value :=
| Null
| Bool (b : bool)
| Num (n : Js.number)
| Str (s : string)
| Arr (items : list value)
| Obj (members : list (string * value)).

(** *** Reading text *)

Definition is_ws (c : ascii) : bool :=
  match nat_of_ascii c with
  | 9 | 10 | 13 | 32 => true
  | _ => false
  end%nat.

Fixpoint skip_ws (s : string) : string :=
  match s with
  | String c r => if is_ws c then skip_ws r else s
  | "" => ""
  end.

(** [s] without its prefix [lit], if it starts with it. *)
Fixpoint expect (lit s : string) : option string :=
  match lit, s with
  | "", _ => Some s
  | String a lit', String c r => if Ascii.eqb a c then expect lit' r else None
  | String _ _, "" => None
  end.

(** The value of a hexadecimal digit, from its code: [0-9] start at
    48, [a-f] at 97, [A-F] at 65. *)
Definition hex_val (c : ascii) : option N :=
  let n := N_of_ascii c in
  if (48 <=? n)%N && (n <=? 57)%N then Some (n - 48)%N
  else if (97 <=? n)%N && (n <=? 102)%N then Some (n - 87)%N
  else if (65 <=? n)%N && (n <=? 70)%N then Some (n - 55)%N
  else None.

(** The code unit of [\uXXXX], when it is below 256; the strings of
    the model have no other. *)
Definition hex4 (h1 h2 h3 h4 : ascii) : option ascii :=
  match hex_val h1, hex_val h2, hex_val h3, hex_val h4 with
  | Some 0%N, Some 0%N, Some a, Some b => Some (ascii_of_N (16 * a + b))
  | _, _, _, _ => None
  end.

Definition cons_char (c : ascii) (r : option (string * string))
    : option (string * string) :=
  match r with
  | Some (s, rest) => Some (String c s, rest)
  | None => None
  end.

(** The characters of a string literal after its opening quote, up to
    the closing quote, and the text that follows. *)
Fixpoint parse_chars (s : string) : option (string * string) :=
  match s with
  | "" => None
  | String c r =>
      match c with
      | "034"%char => Some ("", r)
      | "\"%char =>
          match r with
          | String e r' =>
              match e with
              | "034"%char => cons_char "034" (parse_chars r')
              | "\"%char => cons_char "\" (parse_chars r')
              | "/"%char => cons_char "/" (parse_chars r')
              | "b"%char => cons_char "008" (parse_chars r')
              | "f"%char => cons_char "012" (parse_chars r')
              | "n"%char => cons_char "010" (parse_chars r')
              | "r"%char => cons_char "013" (parse_chars r')
              | "t"%char => cons_char "009" (parse_chars r')
              | "u"%char =>
                  match r' with
                  | String h1 (String h2 (String h3 (String h4 r''))) =>
                      match hex4 h1 h2 h3 h4 with
                      | Some u => cons_char u (parse_chars r'')
                      | None => None
                      end
                  | _ => None
                  end
              | _ => None
              end
          | "" => None
          end
      | _ => if (nat_of_ascii c <? 32)%nat then None
             else cons_char c (parse_chars r)
      end
  end.

(** The longest run of digits at the head of the text. *)
Fixpoint take_digits (s : string) : list Js.digit * string :=
  match s with
  | String c r =>
      match Js.char_digit c with
      | Some d => let (ds, rest) := take_digits r in (d :: ds, rest)
      | None => ([], s)
      end
  | "" => ([], "")
  end.

(** Leading zeros are dropped, each moving the point one place left. *)
Fixpoint strip_leading (ds : list Js.digit) (point : Z)
    : list Js.digit * Z :=
  match ds with
  | Js.d0 :: r => strip_leading r (point - 1)
  | _ => (ds, point)
  end.

Fixpoint strip_trailing (ds : list Js.digit) : list Js.digit :=
  match ds with
  | [] => []
  | d :: r =>
      match strip_trailing r with
      | [] => if Js.is_zero_digit d then [] else [d]
      | r' => d :: r'
      end
  end.

(** The number with digits [ds] and the decimal point after the first
    [point] of them. *)
Definition decimal (neg : bool) (ds : list Js.digit) (point : Z)
    : Js.number :=
  let (ds1, p) := strip_leading ds point in
  match strip_trailing ds1 with
  | [] => Js.zero
  | ds2 => Js.Number neg ds2 p
  end.

Definition parse_fraction (s : string) : option (list Js.digit * string) :=
  match s with
  | String "."%char r =>
      match take_digits r with
      | ([], _) => None
      | (ds, rest) => Some (ds, rest)
      end
  | _ => Some ([], s)
  end.

Definition parse_exp_digits (neg : bool) (s : string) : option (Z * string) :=
  match take_digits s with
  | ([], _) => None
  | (ds, rest) =>
      Some (if neg then - Js.digits_value ds else Js.digits_value ds, rest)
  end.

Definition parse_exponent (s : string) : option (Z * string) :=
  match s with
  | String c r =>
      if Ascii.eqb c "e" || Ascii.eqb c "E" then
        match r with
        | String "+"%char r' => parse_exp_digits false r'
        | String "-"%char r' => parse_exp_digits true r'
        | _ => parse_exp_digits false r
        end
      else Some (0, s)
  | "" => Some (0, s)
  end.

(** The number, once the digits [int] before the point are read: a
    fraction and an exponent may follow. *)
Definition after_int (neg : bool) (int : list Js.digit) (s1 : string)
    : option (Js.number * string) :=
  match parse_fraction s1 with
  | Some (frac, s2) =>
      match parse_exponent s2 with
      | Some (e, s3) =>
          Some (decimal neg (int ++ frac) (Z.of_nat (List.length int) + e),
                s3)
      | None => None
      end
  | None => None
  end.

(** No digit, or a zero with more digits after it, is not a number. *)
Definition parse_unsigned (neg : bool) (s : string)
    : option (Js.number * string) :=
  match take_digits s with
  | ([], _) => None
  | (Js.d0 :: _ :: _, _) => None
  | (int, s1) => after_int neg int s1
  end.

Definition parse_number (s : string) : option (Js.number * string) :=
  match s with
  | String "-"%char r => parse_unsigned true r
  | _ => parse_unsigned false s
  end.

(** A value at the head of the text, after white space, and the text
    that follows it.  [fuel] bounds the depth of the calls; each call
    but the first follows a character read, so the length of the text
    is enough. *)
Fixpoint parse_value (fuel : nat) (s : string) : option (value * string) :=
  match fuel with
  | O => None
  | S f =>
      match skip_ws s with
      | String "n"%char r => option_map (pair Null) (expect "ull" r)
      | String "t"%char r => option_map (pair (Bool true)) (expect "rue" r)
      | String "f"%char r => option_map (pair (Bool false)) (expect "alse" r)
      | String "034"%char r =>
          match parse_chars r with
          | Some (str, rest) => Some (Str str, rest)
          | None => None
          end
      | String "["%char r =>
          match skip_ws r with
          | String "]"%char rest => Some (Arr [], rest)
          | _ =>
              match parse_items f r with
              | Some (items, rest) => Some (Arr items, rest)
              | None => None
              end
          end
      | String "{"%char r =>
          match skip_ws r with
          | String "}"%char rest => Some (Obj [], rest)
          | _ =>
              match parse_members f r with
              | Some (members, rest) => Some (Obj members, rest)
              | None => None
              end
          end
      | s' =>
          match parse_number s' with
          | Some (n, rest) => Some (Num n, rest)
          | None => None
          end
      end
  end

with parse_items (fuel : nat) (s : string) : option (list value * string) :=
  match fuel with
  | O => None
  | S f =>
      match parse_value f s with
      | Some (v, r) =>
          match skip_ws r with
          | String ","%char r' =>
              match parse_items f r' with
              | Some (vs, rest) => Some (v :: vs, rest)
              | None => None
              end
          | String "]"%char rest => Some ([v], rest)
          | _ => None
          end
      | None => None
      end
  end

with parse_members (fuel : nat) (s : string)
    : option (list (string * value) * string) :=
  match fuel with
  | O => None
  | S f =>
      match skip_ws s with
      | String "034"%char r =>
          match parse_chars r with
          | Some (name, r1) =>
              match skip_ws r1 with
              | String ":"%char r2 =>
                  match parse_value f r2 with
                  | Some (v, r3) =>
                      match skip_ws r3 with
                      | String ","%char r4 =>
                          match parse_members f r4 with
                          | Some (ms, rest) => Some ((name, v) :: ms, rest)
                          | None => None
                          end
                      | String "}"%char rest => Some ([(name, v)], rest)
                      | _ => None
                      end
                  | None => None
                  end
              | _ => None
              end
          | None => None
          end
      | _ => None
      end
  end.

(** [JSON.parse(text)]: the value the text denotes, [None] when the
    text is not JSON (a [SyntaxError] is thrown).  A text with an
    escape for a code unit of 256 or more is outside the model and
    gives [None] as well. *)
Definition parse (text : string) : option value :=
  match parse_value (S (String.length text)) text with
  | Some (v, rest) =>
      match skip_ws rest with
      | "" => Some v
      | _ => None
      end
  | None => None
  end.

(** *** Writing text *)

(** The lower-case hexadecimal digit of a value below 16. *)
Definition hex_digit (n : N) : ascii :=
  ascii_of_N (if (n <? 10)%N then 48 + n else 87 + n)%N.

(** [QuoteJSONString], without the quotes: the two-character escapes,
    a [u00xx] escape for the other control characters, the rest as it
    is. *)
Fixpoint escape (s : string) : string :=
  match s with
  | "" => ""
  | String c r =>
      let r' := escape r in
      match c with
      | "034"%char => String "\" (String "034" r')
      | "\"%char => String "\" (String "\" r')
      | "008"%char => String "\" (String "b" r')
      | "012"%char => String "\" (String "f" r')
      | "010"%char => String "\" (String "n" r')
      | "013"%char => String "\" (String "r" r')
      | "009"%char => String "\" (String "t" r')
      | _ =>
          if (nat_of_ascii c <? 32)%nat then
            String "\" (String "u" (String "0" (String "0"
              (String (hex_digit (N_of_ascii c / 16))
                 (String (hex_digit (N_of_ascii c mod 16)) r')))))
          else String c r'
      end
  end.

Definition quote (s : string) : string :=
  String "034" (escape s ++ String "034" "")%string.

Definition zeros (n : nat) : string := Js.render_digits (repeat Js.d0 n).

(** [Number::toString] in radix 10 for a number other than zero, sign
    apart, on the digits [d :: ds'] and the point position [n] the
    language specification calls [s], [k] and [n]: plain digits when
    the point falls after them, a point inside or after leading zeros
    down to [1e-6], the exponent form beyond. *)
Definition magnitude (d : Js.digit) (ds' : list Js.digit) (n : Z) : string :=
  let ds := d :: ds' in
  let k := Z.of_nat (List.length ds) in
  if (-5 <=? n) && (n <=? 21) then
    if k <=? n then
      (Js.render_digits ds ++ zeros (Z.to_nat (n - k)))%string
    else if 0 <? n then
      (Js.render_digits (firstn (Z.to_nat n) ds) ++ "." ++
       Js.render_digits (skipn (Z.to_nat n) ds))%string
    else ("0." ++ zeros (Z.to_nat (- n)) ++ Js.render_digits ds)%string
  else
    String (Js.digit_char d)
      ((match ds' with
        | [] => ""
        | _ => String "." (Js.render_digits ds')
        end) ++
       append "e" (append (if n - 1 <? 0 then "-" else "+")
                     (Js.Z_toString (Z.abs (n - 1))))).

Definition number_toString (x : Js.number) : string :=
  match Js.digits x with
  | [] => "0"
  | d :: ds' =>
      ((if Js.negative x then "-" else "") ++ magnitude d ds' (Js.point x))%string
  end.

(** The parts with [sep] before each but the first. *)
Fixpoint join_tail (sep : string) (parts : list string) : string :=
  match parts with
  | [] => ""
  | p :: ps => (sep ++ p ++ join_tail sep ps)%string
  end.

Definition join (sep : string) (parts : list string) : string :=
  match parts with
  | [] => ""
  | p :: ps => (p ++ join_tail sep ps)%string
  end.

(** [JSON.stringify(v)] for a value built of JSON data. *)
Fixpoint stringify (v : value) : string :=
  match v with
  | Null => "null"
  | Bool true => "true"
  | Bool false => "false"
  | Num n => number_toString n
  | Str s => quote s
  | Arr items => ("[" ++ join "," (map stringify items) ++ "]")%string
  | Obj members =>
      ("{" ++
       join ","
         (map (fun m => (quote (fst m) ++ ":" ++ stringify (snd m))%string)
            members) ++
       "}")%string
  end.

Definition member_text (m : string * value) : string :=
  (quote (fst m) ++ ":" ++ stringify (snd m))%string.

(** *** Notions to compare the text written with the text read *)

(** Every number of the value is in its one representation. *)
Fixpoint canonical_numbers (v : value) : bool :=
  match v with
  | Num n => Js.canonical n
  | Arr items => forallb canonical_numbers items
  | Obj members => forallb (fun m => canonical_numbers (snd m)) members
  | _ => true
  end.

(** The text that follows cannot continue a run of digits. *)
Definition no_digit (rest : string) : Prop :=
  match rest with
  | "" => True
  | String c _ => Js.char_digit c = None
  end.

(** The text that follows cannot continue a number. *)
Definition ends_number (rest : string) : Prop :=
  match rest with
  | "" => True
  | String c _ =>
      Js.char_digit c = None /\ c <> "."%char /\ c <> "e"%char
      /\ c <> "E"%char
  end.

(** The text that follows closes a value: it is empty or starts with a
    comma, a bracket or a brace. *)
Definition closes (rest : string) : Prop :=
  match rest with
  | "" => True
  | String c _ => c = ","%char \/ c = "]"%char \/ c = "}"%char
  end.

(** The characters a written value can start with. *)
Definition value_heads : list ascii :=
  ["n"; "t"; "f"; "034"; "["; "{"; "-";
   "0"; "1"; "2"; "3"; "4"; "5"; "6"; "7"; "8"; "9"]%char.

(** The value, written, reads back as itself, whatever closes it. *)
Definition reads_back (v : value) : Prop :=
  forall fuel rest,
    canonical_numbers v = true ->
    (String.length (stringify v) <= fuel)%nat ->
    closes rest ->
    parse_value fuel (stringify v ++ rest) = Some (v, rest).

(** *** Reading values as the program does *)

(** The own property [name] of an object with these members: the
    member of that name defined last. *)
Fixpoint lookup (name : string) (members : list (string * value))
    : option value :=
  match members with
  | [] => None
  | (k, v) :: r =>
      match lookup name r with
      | Some v' => Some v'
      | None => if String.eqb k name then Some v else None
      end
  end.

(** Truthiness; [None] is [undefined]. *)
Definition truthy (v : option value) : bool :=
  match v with
  | None | Some Null => false
  | Some (Bool b) => b
  | Some (Num n) => Js.truthy_number n
  | Some (Str s) => Js.truthy_string s
  | Some (Arr _) | Some (Obj _) => true
  end.

(** [a || b] *)
Definition or_else (a : option value) (b : value) : value :=
  match a with
  | Some v => if truthy a then v else b
  | None => b
  end.

Fixpoint indexed (i : Z) (vs : list value) : list (string * value) :=
  match vs with
  | [] => []
  | v :: r => (Js.Z_toString i, v) :: indexed (i + 1) r
  end.

Fixpoint chars (s : string) : list value :=
  match s with
  | "" => []
  | String c r => Str (String c "") :: chars r
  end.

(** The own enumerable properties [{...v}] copies; [null] has none. *)
Definition spread (v : value) : list (string * value) :=
  match v with
  | Obj members => members
  | Arr items => indexed 0 items
  | Str s => indexed 0 (chars s)
  | Null | Bool _ | Num _ => []
  end.

(** [ToString].  An object converts to [[object Object]] through the
    inherited [toString]; a member of that name, which JSON cannot
    make callable, hides it, and the conversion throws ([None]).
    Elements of an array are converted in turn, [null] to the empty
    string, and joined with commas. *)
Fixpoint to_string (v : value) : option string :=
  match v with
  | Null => Some "null"
  | Bool true => Some "true"
  | Bool false => Some "false"
  | Num n => Some (number_toString n)
  | Str s => Some s
  | Arr items =>
      (fix elements (vs : list value) (first : bool) : option string :=
         match vs with
         | [] => Some ""
         | x :: r =>
             match (match x with Null => Some "" | _ => to_string x end),
                   elements r false with
             | Some a, Some b =>
                 Some ((if first then a else String "," a) ++ b)%string
             | _, _ => None
             end
         end) items true
  | Obj members =>
      match lookup "toString" members with
      | Some _ => None
      | None => Some "[object Object]"
      end
  end.

End Json.

(** ** Instants as text: [toISOString] and the date-time format *)

Module IsoDate.

Definition msPerDay : Z := 86400000.

(** Year, month and day of the proleptic Gregorian calendar for a day
    number counted from 1970-01-01, computed era by era (an era is
    400 years, 146097 days, and starts on a first of March). *)
Definition civil_from_days (day : Z) : Z * Z * Z :=
  let z := day + 719468 in
  let era := z / 146097 in
  let doe := z mod 146097 in
  let yoe := (doe - doe / 1460 + doe / 36524 - doe / 146096) / 365 in
  let doy := doe - (365 * yoe + yoe / 4 - yoe / 100) in
  let mp := (5 * doy + 2) / 153 in
  let d := doy - (153 * mp + 2) / 5 + 1 in
  let m := if mp <? 10 then mp + 3 else mp - 9 in
  let y := yoe + era * 400 + (if m <=? 2 then 1 else 0) in
  (y, m, d).

(** The day number of a calendar date ([MakeDay]). *)
Definition days_from_civil (y m d : Z) : Z :=
  let y' := if m <=? 2 then y - 1 else y in
  let era := y' / 400 in
  let yoe := y' mod 400 in
  let mp := if 2 <? m then m - 3 else m + 9 in
  let doy := (153 * mp + 2) / 5 + d - 1 in
  let doe := yoe * 365 + yoe / 4 - yoe / 100 + doy in
  era * 146097 + doe - 719468.

(** A year, month and day name a date of the calendar when the day
    number they give leads back to them: month 13, day 0 or the 30th
    of February lead to another date. *)
Definition is_date (y m d : Z) : bool :=
  let '(y', m', d') := civil_from_days (days_from_civil y m d) in
  (y' =? y) && (m' =? m) && (d' =? d).

(** The last [k] decimal digits of [n], zeros in front if need be. *)
Fixpoint pad (k : nat) (n : Z) : list Js.digit :=
  match k with
  | O => []
  | S k' => pad k' (n / 10) ++ [Js.digit_of_Z (n mod 10)]
  end.

Definition padded (k : nat) (n : Z) : string := Js.render_digits (pad k n).

(** Four digits for the years 0 to 9999, a sign and six digits for the
    others. *)
Definition year_text (y : Z) : string :=
  if (0 <=? y) && (y <=? 9999) then padded 4 y
  else if y <? 0 then String "-" (padded 6 (- y))
  else String "+" (padded 6 y).

(** [new Date(t).toISOString()] for a time value [t]. *)
Definition toISOString (t : Z) : string :=
  let '(y, m, d) := civil_from_days (t / msPerDay) in
  let r := t mod msPerDay in
  (year_text y ++ "-" ++ padded 2 m ++ "-" ++ padded 2 d ++ "T" ++
   padded 2 (r / 3600000) ++ ":" ++ padded 2 (r / 60000 mod 60) ++ ":" ++
   padded 2 (r / 1000 mod 60) ++ "." ++ padded 3 (r mod 1000) ++ "Z")%string.

(** Exactly [k] digits at the head of the text, as a number. *)
Fixpoint read_digits (k : nat) (acc : Z) (s : string) : option (Z * string) :=
  match k with
  | O => Some (acc, s)
  | S k' =>
      match s with
      | String c r =>
          match Js.char_digit c with
          | Some d => read_digits k' (Js.shift acc d) r
          | None => None
          end
      | "" => None
      end
  end.

Definition read_year (s : string) : option (Z * string) :=
  match s with
  | String "+"%char r => read_digits 6 0 r
  | String "-"%char r =>
      match read_digits 6 0 r with
      | Some (0, _) => None
      | Some (y, rest) => Some (- y, rest)
      | None => None
      end
  | _ => read_digits 4 0 s
  end.

(** A field of [k] digits followed by the text [sep]. *)
Definition read_field (k : nat) (sep : string) (s : string)
    : option (Z * string) :=
  match read_digits k 0 s with
  | Some (n, r) =>
      match Json.expect sep r with
      | Some rest => Some (n, rest)
      | None => None
      end
  | None => None
  end.

(** The time value of a text in the complete date-time format with the
    UTC designator, [YYYY-MM-DDTHH:mm:ss.sssZ] or the same with an
    expanded year, all fields in range.  For any other text the result
    may depend on the engine, and the model gives [None]. *)
Definition parse (s : string) : option Z :=
  match read_year s with
  | Some (y, s0) =>
      match Json.expect "-" s0 with
      | Some s1 =>
          match read_field 2 "-" s1 with
          | Some (m, s2) =>
              match read_field 2 "T" s2 with
              | Some (d, s3) =>
                  match read_field 2 ":" s3 with
                  | Some (h, s4) =>
                      match read_field 2 ":" s4 with
                      | Some (mi, s5) =>
                          match read_field 2 "." s5 with
                          | Some (sec, s6) =>
                              match read_field 3 "Z" s6 with
                              | Some (ms, "") =>
                                  if is_date y m d && (h <=? 23)
                                     && (mi <=? 59) && (sec <=? 59)
                                  then
                                    Some (days_from_civil y m d * msPerDay
                                          + ((h * 60 + mi) * 60 + sec) * 1000
                                          + ms)
                                  else None
                              | _ => None
                              end
                          | None => None
                          end
                      | None => None
                      end
                  | None => None
                  end
              | None => None
              end
          | None => None
          end
      | None => None
      end
  | None => None
  end.

End IsoDate.

(** ** The query client ([lib/api]) *)

Module Api.

Record Request := Post {
  target : string;
  contentType : string;
  accept : string;
  payload : string
}.

Record Response := Received { status : Z; body : string }.

(** [response.ok] *)
Definition ok (r : Response) : bool :=
  (200 <=? status r) && (status r <=? 299).

(** The fields of the object the client returns. *)
Inductive field :=
| intent | confidence | response | sources | action_invoked | timestamp.

Definition name (f : field) : string :=
  match f with
  | intent => "intent"
  | confidence => "confidence"
  | response => "response"
  | sources => "sources"
  | action_invoked => "action_invoked"
  | timestamp => "timestamp"
  end.

(** [v.key] for [v] other than [null] and [key] one of the names the
    client reads, the six fields and [detail].  None of them is a
    property, own or inherited, of an array, a string, a number or a
    boolean, so reading one off such a value gives [undefined]. *)
Definition read (key : string) (v : Json.value) : option Json.value :=
  match v with
  | Json.Obj members => Json.lookup key members
  | _ => None
  end.

(** [data.f] *)
Definition get (f : field) (data : Json.value) : option Json.value :=
  read (name f) data.

(** [errorData.detail] *)
Definition detail (errorData : Json.value) : option Json.value :=
  read "detail" errorData.

Definition request (apiUrl userId query : string) : Request :=
  Post apiUrl "application/json" "application/json"
    (Json.stringify
       (Json.Obj [("user_id", Json.Str userId); ("query", Json.Str query)])).

(** The value the client puts when the field is missing or falsy. *)
Definition default (now : Z) (f : field) : Json.value :=
  match f with
  | intent => Json.Str "general_query"
  | confidence => Json.Num Js.zero
  | response => Json.Str "Sorry, I could not process your request."
  | sources => Json.Arr []
  | action_invoked => Json.Null
  | timestamp => Json.Str (IsoDate.toISOString now)
  end.

Definition filled (now : Z) (data : Json.value) (f : field)
    : string * Json.value :=
  (name f, Json.or_else (get f data) (default now f)).

(** The fields of the object returned. *)
Definition returned : list field :=
  [intent; confidence; response; sources; action_invoked; timestamp].

(** [await response.json().catch(() => ({}))] *)
Definition errorData (r : Response) : Json.value :=
  match Json.parse (body r) with
  | Some v => v
  | None => Json.Obj []
  end.

(** The message built from the status. *)
Definition generic (r : Response) : string :=
  ("API request failed: " ++ Js.Z_toString (status r))%string.

(** The object has the six fields, none of them [undefined]. *)
Definition populated (members : list (string * Json.value)) : Prop :=
  forall f, exists v, Json.lookup (name f) members = Some v.

(** The object as the [ApiResponse] the caller takes it for, when its
    fields have the types declared. *)
Definition typed (o : Json.value) : option ApiResponse.t :=
  match get intent o, get confidence o, get response o, get sources o,
        get action_invoked o, get timestamp o with
  | Some (Json.Str i), Some (Json.Num c), Some (Json.Str r),
    Some (Json.Arr l), Some a, Some (Json.Str t) =>
      match Js.traverse
              (fun x => match x with Json.Str y => Some y | _ => None end) l,
            match a with
            | Json.Null => Some None
            | Json.Str y => Some (Some y)
            | _ => None
            end with
      | Some src, Some act => Some (ApiResponse.Build i c r src act t)
      | _, _ => None
      end
  | _, _, _, _, _, _ => None
  end.

(** [sendQueryToAPI].  [fetch] answers the one request with a response
    or with [None] when the call rejects; [now] is the clock read for
    the default timestamp.  The result is the exception thrown or the
    object returned. *)
Definition sendQueryToAPI (fetch : Request -> option Response) (now : Z)
    (apiUrl userId query : string) : Exn + Json.value :=
  match fetch (request apiUrl userId query) with
  | None => inl FetchFailed
  | Some r =>
      if negb (ok r) then
        match errorData r with
        | Json.Null => inl TypeError
        | _ =>
            match Json.to_string
                    (Json.or_else (detail (errorData r))
                       (Json.Str (generic r))) with
            | Some message => inl (Error message)
            | None => inl TypeError
            end
        end
      else
        match Json.parse (body r) with
        | None => inl SyntaxError
        | Some Json.Null => inl TypeError
        | Some data =>
            inr (Json.Obj
                   (Json.spread data ++ map (filled now data) returned))
        end
  end.

End Api.

(** ** The durable store: writing and reading the histories *)

Module Store.

(** *** Writing: [JSON.stringify(chatHistories)] *)

(** [Date.prototype.toJSON]: the ISO text, [null] for the Invalid
    Date. *)
Definition date_toJSON (d : Js.Date) : Json.value :=
  match d with
  | Js.ValidDate t => Json.Str (IsoDate.toISOString t)
  | Js.InvalidDate => Json.Null
  end.

Definition role_name (r : Role) : string :=
  match r with user => "user" | assistant => "assistant" end.

(** A property whose value is [undefined] is left out. *)
Definition optional {A} (name : string) (f : A -> Json.value)
    (v : option A) : list (string * Json.value) :=
  match v with
  | Some a => [(name, f a)]
  | None => []
  end.

Definition message_toJSON (m : Message.t) : Json.value :=
  Json.Obj
    ([("id", Json.Str (Message.id m));
      ("role", Json.Str (role_name (Message.role m)));
      ("content", Json.Str (Message.content m))]
     ++ optional "intent" Json.Str (Message.intent m)
     ++ optional "confidence" Json.Num (Message.confidence m)
     ++ optional "sources" (fun l => Json.Arr (map Json.Str l))
          (Message.sources m)
     ++ [("timestamp", date_toJSON (Message.timestamp m))]).

Definition chat_toJSON (c : ChatHistory.t) : Json.value :=
  Json.Obj
    [("id", Json.Str (ChatHistory.id c));
     ("title", Json.Str (ChatHistory.title c));
     ("messages", Json.Arr (map message_toJSON (ChatHistory.messages c)));
     ("lastUpdated", date_toJSON (ChatHistory.lastUpdated c))].

(** The histories hold values of the data model: every [timestamp]
    and [lastUpdated] is an instant and every [confidence] a number in
    its one representation. *)
Definition message_ok (m : Message.t) : bool :=
  Js.is_instant (Message.timestamp m) &&
  match Message.confidence m with
  | Some n => Js.canonical n
  | None => true
  end.

Definition chat_ok (c : ChatHistory.t) : bool :=
  Js.is_instant (ChatHistory.lastUpdated c) &&
  forallb message_ok (ChatHistory.messages c).

Definition well_formed (hs : list ChatHistory.t) : bool :=
  forallb chat_ok hs.

(** The text the effect of the hook stores under [chatHistories]. *)
Definition persist (hs : list ChatHistory.t) : string :=
  Json.stringify (Json.Arr (map chat_toJSON hs)).

(** *** Reading: [JSON.parse(stored, reviver)] *)

(** The values the reviver leaves: JSON data with [Date] objects in
    it. *)
#[warnings="-register-all"]
Inductive revived :=
| RNull
| RBool (b : bool)
| RNum (n : Js.number)
| RStr (s : string)
| RArr (items : list revived)
| RObj (members : list (string * revived))
| RDate (d : Js.Date).

(** The integer part of a number as a time value; more than 16 digits
    before the point are beyond the range of time values. *)
Definition number_time (n : Js.number) : Js.Date :=
  let ds := Js.digits n in
  let p := Js.point n in
  let k := Z.of_nat (List.length ds) in
  if p <=? 0 then Js.ValidDate 0
  else if 16 <? p then
    match ds with [] => Js.ValidDate 0 | _ => Js.InvalidDate end
  else
    let magnitude :=
      if k <=? p then Js.digits_value ds * 10 ^ (p - k)
      else Js.digits_value (firstn (Z.to_nat p) ds) in
    Js.timeClip (if Js.negative n then - magnitude else magnitude).

(** [new Date(v)].  [None] where the result is left to the engine: a
    text outside the date-time format (see [IsoDate.parse]), or an
    array or object, converted to such a text first. *)
Definition new_Date (v : revived) : option Js.Date :=
  match v with
  | RNull => Some (Js.ValidDate 0)
  | RBool b => Some (Js.ValidDate (if b then 1 else 0))
  | RNum n => Some (number_time n)
  | RStr s => option_map Js.timeClip (IsoDate.parse s)
  | RDate d => Some d
  | RArr _ | RObj _ => None
  end.

(** The reviver of the hook, applied to the property [key] whose value
    has been revived to [v]. *)
Definition reviver (key : string) (v : revived) : option revived :=
  if String.eqb key "timestamp" || String.eqb key "lastUpdated"
  then option_map RDate (new_Date v)
  else Some v.

(** The walk of [JSON.parse] with a reviver: the properties of a
    value first, then the value itself under its key.  Elements of an
    array go under their index, never one of the two names. *)
Fixpoint revive (v : Json.value) : option revived :=
  match v with
  | Json.Null => Some RNull
  | Json.Bool b => Some (RBool b)
  | Json.Num n => Some (RNum n)
  | Json.Str s => Some (RStr s)
  | Json.Arr items => option_map RArr (Js.traverse revive items)
  | Json.Obj members =>
      option_map RObj
        (Js.traverse
           (fun m =>
              match revive (snd m) with
              | Some x => option_map (pair (fst m)) (reviver (fst m) x)
              | None => None
              end)
           members)
  end.

(** One member of an object under the walk. *)
Definition revive_member (m : string * Json.value)
    : option (string * revived) :=
  match revive (snd m) with
  | Some x => option_map (pair (fst m)) (reviver (fst m) x)
  | None => None
  end.

(** The written form of [a] revives to a value that is read as [a]. *)
Definition reads_as {A} (enc : A -> Json.value) (dec : revived -> option A)
    (a : A) : Prop :=
  exists rv, revive (enc a) = Some rv /\ dec rv = Some a.

(** *** The typed view of what was read *)

Fixpoint rlookup (name : string) (members : list (string * revived))
    : option revived :=
  match members with
  | [] => None
  | (k, v) :: r =>
      match rlookup name r with
      | Some v' => Some v'
      | None => if String.eqb k name then Some v else None
      end
  end.

Definition as_string (v : option revived) : option string :=
  match v with Some (RStr s) => Some s | _ => None end.

Definition as_date (v : option revived) : option Js.Date :=
  match v with Some (RDate d) => Some d | _ => None end.

Definition as_role (v : option revived) : option Role :=
  match v with
  | Some (RStr s) =>
      if String.eqb s "user" then Some user
      else if String.eqb s "assistant" then Some assistant
      else None
  | _ => None
  end.

(** An optional property: absent, or of the type [f] recognises. *)
Definition as_optional {A} (f : revived -> option A) (v : option revived)
    : option (option A) :=
  match v with
  | None => Some None
  | Some x => option_map Some (f x)
  end.

Definition as_strings (v : revived) : option (list string) :=
  match v with
  | RArr items => Js.traverse (fun x => as_string (Some x)) items
  | _ => None
  end.

Definition as_message (v : revived) : option Message.t :=
  match v with
  | RObj ms =>
      match as_string (rlookup "id" ms), as_role (rlookup "role" ms),
            as_string (rlookup "content" ms),
            as_optional (fun x => as_string (Some x)) (rlookup "intent" ms),
            as_optional (fun x => match x with RNum n => Some n | _ => None end)
              (rlookup "confidence" ms),
            as_optional as_strings (rlookup "sources" ms),
            as_date (rlookup "timestamp" ms) with
      | Some i, Some r, Some c, Some it, Some cf, Some src, Some ts =>
          Some (Message.Build i r c it cf src ts)
      | _, _, _, _, _, _, _ => None
      end
  | _ => None
  end.

Definition as_chat (v : revived) : option ChatHistory.t :=
  match v with
  | RObj ms =>
      match as_string (rlookup "id" ms), as_string (rlookup "title" ms),
            rlookup "messages" ms, as_date (rlookup "lastUpdated" ms) with
      | Some i, Some t, Some (RArr items), Some d =>
          option_map (fun msgs => ChatHistory.Build i t msgs d)
            (Js.traverse as_message items)
      | _, _, _, _ => None
      end
  | _ => None
  end.

(** The value as a [ChatHistory[]], if it is one. *)
Definition as_histories (v : revived) : option (list ChatHistory.t) :=
  match v with
  | RArr items => Js.traverse as_chat items
  | _ => None
  end.

(** How the initialiser of the [chatHistories] cell ends. *)
Inductive Init :=
| Loaded (hs : list ChatHistory.t)  (* the cell holds these histories *)
| Thrown (e : Exn)                  (* the initialiser threw *)
| Untyped (v : revived)             (* the cell holds a value that is
                                       not a [ChatHistory[]] *)
| EngineDefined.                    (* a date left to the engine *)

(** The initialiser, given what [localStorage.getItem('chatHistories')]
    returned: [None] for [null]. *)
Definition init (stored : option string) : Init :=
  match stored with
  | None => Loaded []
  | Some text =>
      if Js.truthy_string text then
        match Json.parse text with
        | None => Thrown SyntaxError
        | Some v =>
            match revive v with
            | None => EngineDefined
            | Some rv =>
                match as_histories rv with
                | Some hs => Loaded hs
                | None => Untyped rv
                end
            end
        end
      else Loaded []
  end.

End Store.

(** ** The transcript export ([exportChatAsText]) and its handler *)

Module Transcript.

(** [c.toUpperCase()] for a code unit below 128: the letters a to z
    go to A to Z and the others stay.  The role names, the only text
    the export converts, hold no other code unit. *)
Definition upper (c : ascii) : ascii :=
  let n := nat_of_ascii c in
  if ((97 <=? n) && (n <=? 122))%nat then ascii_of_nat (n - 32) else c.

Fixpoint toUpperCase (s : string) : string :=
  match s with
  | "" => ""
  | String c r => String (upper c) (toUpperCase r)
  end.

(** The line feed. *)
Definition nl : string := String "010" "".

(** The text put between two blocks: two line feeds, three dashes,
    two line feeds. *)
Definition divider : string := (nl ++ nl ++ "---" ++ nl ++ nl)%string.

(** [s.split(sep)[0]] for a separator of one character: the text
    before its first occurrence, all of [s] when there is none. *)
Fixpoint before (sep : ascii) (s : string) : string :=
  match s with
  | "" => ""
  | String c r => if Ascii.eqb c sep then "" else String c (before sep r)
  end.

(** What the click on the anchor saves: the text of the blob, its
    type and the name of the file. *)
Record Download := Save { text : string; mime : string; name : string }.

(** [chat_${new Date().toISOString().split('T')[0]}.txt] *)
Definition fileName (now : Z) : string :=
  ("chat_" ++ before "T" (IsoDate.toISOString now) ++ ".txt")%string.

Section Locale.

(** [Date.prototype.toLocaleString], which the language leaves to
    the locale and the time zone of the host. *)
Variable toLocaleString : Js.Date -> string.

(** The block of one message.  Its [timestamp] is a [Date] object,
    which is truthy, so the second line is always its local
    form. *)
Definition block (m : Message.t) : string :=
  (toUpperCase (Store.role_name (Message.role m)) ++ ": " ++
   Message.content m ++ nl ++ toLocaleString (Message.timestamp m))%string.

Definition chatText (messages : list Message.t) : string :=
  Json.join divider (map block messages).

(** [exportChatAsText(messages)], [now] being the clock read for
    the name of the file. *)
Definition exportChatAsText (messages : list Message.t) (now : Z)
    : Download :=
  Save (chatText messages) "text/plain" (fileName now).

(** [handleExportChat] of [App]: the buffer is the one of the render
    [view]; the result is the state after the queued update and the
    file saved, if one was. *)
Definition handleExportChat (now : Z) (view s : App.State)
    : App.State * option Download :=
  let messages := Chat.messages (App.chat view) in
  if (List.length messages =? 0)%nat then
    (App.setShowToast (Some "No messages to export") s, None)
  else
    (App.setShowToast (Some "Chat exported successfully") s,
     Some (exportChatAsText messages now)).

End Locale.

End Transcript.

(** ** The chat list of the side bar ([Sidebar]) *)

Module Sidebar.

(** One row of the list: the key React tells the rows apart by, the
    title and date shown, and whether the row is drawn as the active
    chat. *)
Record Row := Item {
  key : string;
  title : string;
  lastUpdated : Js.Date;
  highlighted : bool
}.

(** [currentChatId === chat.id] *)
Definition active (currentChatId : option string) (chat : ChatHistory.t)
    : bool :=
  match currentChatId with
  | Some cur => String.eqb cur (ChatHistory.id chat)
  | None => false
  end.

(** [chatHistories.map(chat => ...)] *)
Definition rows (chatHistories : list ChatHistory.t)
    (currentChatId : option string) : list Row :=
  map (fun chat =>
         Item (ChatHistory.id chat) (ChatHistory.title chat)
           (ChatHistory.lastUpdated chat) (active currentChatId chat))
    chatHistories.

(** The click on the row at position [i]: [onLoadChat(chat.id)] for
    the chat the row was drawn from. *)
Definition click (s : Chat.State) (i : nat) : Chat.State :=
  match nth_error (Chat.chatHistories s) i with
  | Some chat => Chat.loadChat s (ChatHistory.id chat) s
  | None => s
  end.

(** [disabled={messagesCount === 0}] on the export button. *)
Definition exportDisabled (messagesCount : nat) : bool :=
  (messagesCount =? 0)%nat.

(** No two chats of the histories have the same id. *)
Definition distinct (s : Chat.State) : Prop :=
  NoDup (map ChatHistory.id (Chat.chatHistories s)).

End Sidebar.

(** ** Preferences: the cells of [App] kept in the browser's store *)

Module Prefs.

(** [localStorage]: the text stored under each key, if any. *)
Definition Storage := string -> option string.

Definition getItem (st : Storage) (key : string) : option string := st key.

Definition setItem (key value : string) (st : Storage) : Storage :=
  fun k => if String.eqb k key then Some value else st k.

(** [stored || fallback] *)
Definition or_default (stored : option string) (fallback : string)
    : string :=
  match stored with
  | Some s => if Js.truthy_string s then s else fallback
  | None => fallback
  end.

(** The initialisers of the three cells.  [generated] is what
    [generateUserId()] gives when it is called. *)
Definition initTheme (st : Storage) : string :=
  or_default (getItem st "theme") "dark".

Definition initUserId (generated : string) (st : Storage) : string :=
  or_default (getItem st "userId") generated.

Definition initApiUrl (st : Storage) : string :=
  or_default (getItem st "apiUrl") "http://localhost:8000/api/ask".

(** The component with the cells the send-message handler does not
    touch. *)
Record State := Build {
  app : App.State;
  theme : string;
  sidebarOpen : bool;
  settingsOpen : bool
}.

Definition setTheme (v : string) (s : State) : State :=
  Build (app s) v (sidebarOpen s) (settingsOpen s).

Definition setSidebarOpen (v : bool) (s : State) : State :=
  Build (app s) (theme s) v (settingsOpen s).

(** [onToggleTheme]: [setTheme(theme === 'light' ? 'dark' : 'light')],
    the theme read being the one of the render. *)
Definition toggleTheme (view s : State) : State :=
  setTheme (if String.eqb (theme view) "light" then "dark" else "light") s.

(** Whether the page carries the class [dark]:
    [classList.toggle('dark', theme === 'dark')]. *)
Definition dark (s : State) : bool := String.eqb (theme s) "dark".

(** [handleResize], [innerWidth] being the width of the window. *)
Definition handleResize (innerWidth : Z) (s : State) : State :=
  if innerWidth <? 768 then setSidebarOpen false s else s.

(** The component once mounted and its mount effects run, given the
    store it finds.  [None] when the initialiser of the histories
    does not give histories: it threw, or the text stored is JSON of
    another shape. *)
Definition mount (st : Storage) (generated : string) (innerWidth : Z)
    : option State :=
  match Store.init (getItem st "chatHistories") with
  | Store.Loaded hs =>
      Some (handleResize innerWidth
              (Build (App.app (App.mount hs (initApiUrl st)
                                 (initUserId generated st)))
                 (initTheme st) true false))
  | _ => None
  end.

(** The store once the effects of a render have run: the hook writes
    the histories, the component the theme, the user id and the
    address.  Each effect runs on mount and whenever its cell was
    set; where the cell holds what it held, the text written is the
    text already there. *)
Definition effects (s : State) (st : Storage) : Storage :=
  setItem "apiUrl" (App.apiUrl (app s))
    (setItem "userId" (App.userId (app s))
       (setItem "theme" (theme s)
          (setItem "chatHistories"
             (Store.persist (Chat.chatHistories (App.chat (app s))))
             st))).

End Prefs.

(** ** Runs of the component with a clock and a server as they are *)

Module Durable.

(** The reading is a time value a clock can give. *)
Definition in_range (t : Z) : bool := Z.abs t <=? Js.maxTime.

(** The number is one the program holds exactly as it is written: a
    decimal in its one representation of at most 15 significant
    digits and of a magnitude between 1e-291 and 1e290, or zero.
    The program keeps a number in binary floating point; within
    these bounds each such decimal has a value of its own there, and
    the shortest text that denotes that value, which is what
    [JSON.stringify] writes, is the decimal itself.  Beyond them the
    program rounds, or holds Infinity, which it stores as [null]. *)
Definition exact (n : Js.number) : bool :=
  Js.canonical n && (List.length (Js.digits n) <=? 15)%nat &&
  (-290 <=? Js.point n) && (Js.point n <=? 290).

Definition message_exact (m : Message.t) : bool :=
  Js.is_instant (Message.timestamp m) &&
  match Message.confidence m with
  | Some n => exact n
  | None => true
  end.

Definition chat_exact (c : ChatHistory.t) : bool :=
  Js.is_instant (ChatHistory.lastUpdated c) &&
  forallb message_exact (ChatHistory.messages c).

(** Every [timestamp] and [lastUpdated] of the histories is an
    instant and every [confidence] a number held exactly. *)
Definition exact_histories (hs : list ChatHistory.t) : bool :=
  forallb chat_exact hs.

(** The event reads its clock within the range of time values, and a
    response carries a [confidence] the program holds exactly. *)
Definition sane (e : App.Event) : bool :=
  match e with
  | App.Send clock => in_range (clock 1%nat)
  | App.Settled _ (inr data) clock =>
      in_range (clock 1%nat) && in_range (clock 3%nat) &&
      exact (ApiResponse.confidence data)
  | _ => true
  end.

(** What is kept along a run: the histories and the buffer hold
    instants and numbers held exactly, and so do the buffer and the
    user message each suspended handler holds. *)
Definition kept (w : App.World) : Prop :=
  exact_histories (Chat.chatHistories (App.chat (App.app w))) = true /\
  forallb message_exact (Chat.messages (App.chat (App.app w))) = true /\
  Forall (fun x =>
            forallb message_exact
              (Chat.messages (App.chat (App.view x))) = true /\
            message_exact (App.userMessage x) = true)
    (App.inflight w).

End Durable.

(** ** Responses within the reach of the model *)

Module Scope.

(** No escape of the text names a code unit of 256 or more: wherever
    a backslash is followed by [u], two zeros follow.  The strings of
    the model hold code units below 256, so [Json.parse] gives [None]
    for a text with a higher escape although the program reads it;
    for a text without one, [None] means the text is not JSON. *)
Fixpoint narrow (s : string) : bool :=
  match s with
  | "" => true
  | String c r =>
      (if Ascii.eqb c "\" then
         match r with
         | String "u" (String h1 (String h2 _)) =>
             Ascii.eqb h1 "0" && Ascii.eqb h2 "0"
         | _ => true
         end
       else true) && narrow r
  end.

(** Every number the conversion of the value to a string prints is
    one the program holds exactly.  The members of an object are not
    printed. *)
Fixpoint exact_numbers (v : Json.value) : bool :=
  match v with
  | Json.Num n => Durable.exact n
  | Json.Arr items => forallb exact_numbers items
  | _ => true
  end.

End Scope.

(** ** Ids and the clock they are minted from *)

Module Clock.

(** The id is the decimal form of a clock reading no later than
    [T]. *)
Definition minted (T : Z) (id : string) : Prop :=
  exists t, id = Js.Z_toString t /\ t <= T.

(** The numbers the ids of messages are made from never step back.
    The id of a user message is made from the reading of its submit,
    the id of an assistant message from the reading of its answer
    plus one; [T] is the number the latest id was made from.  A
    submit reads its clock later than [T], an answer no earlier than
    [T].  So a submit that follows an answer read at [r] reads
    [r + 2] or later: a submit at [r + 1] would be given the id of
    that answer. *)
Fixpoint ticking (T : Z) (es : list App.Event) : bool :=
  match es with
  | [] => true
  | App.Send clock :: r => (T <? clock 0%nat) && ticking (clock 0%nat) r
  | App.Settled _ (inr _) clock :: r =>
      (T <=? clock 0%nat) && ticking (clock 0%nat + 1) r
  | _ :: r => ticking T r
  end.

(** The latest reading a message id was made from, after the
    events. *)
Fixpoint latest (T : Z) (es : list App.Event) : Z :=
  match es with
  | [] => T
  | App.Send clock :: r => latest (clock 0%nat) r
  | App.Settled _ (inr _) clock :: r => latest (clock 0%nat + 1) r
  | _ :: r => latest T r
  end.

(** The readings the answers take for the id of a new chat, [clock 2]
    of the event, advance. *)
Fixpoint chat_ticking (T : Z) (es : list App.Event) : bool :=
  match es with
  | [] => true
  | App.Settled _ (inr _) clock :: r =>
      (T <? clock 2%nat) && chat_ticking (clock 2%nat) r
  | _ :: r => chat_ticking T r
  end.

(** Every message the component holds, in the buffer, in the
    histories or in a suspended handler, has an id minted by [T]. *)
Definition stamped (T : Z) (w : App.World) : Prop :=
  Forall (fun m => minted T (Message.id m))
    (Chat.messages (App.chat (App.app w))) /\
  Forall (fun c => Forall (fun m => minted T (Message.id m))
                     (ChatHistory.messages c))
    (Chat.chatHistories (App.chat (App.app w))) /\
  Forall (fun x =>
            Forall (fun m => minted T (Message.id m))
              (Chat.messages (App.chat (App.view x))) /\
            minted T (Message.id (App.userMessage x)))
    (App.inflight w).

(** The chats have distinct ids, each minted by [T]. *)
Definition numbered (T : Z) (hs : list ChatHistory.t) : Prop :=
  Forall (minted T) (map ChatHistory.id hs) /\
  NoDup (map ChatHistory.id hs).

End Clock.

(** * Instants as text *)

Section IsoDates.

Import IsoDate.

Lemma year_of_era_bounds doe :
  0 <= doe <= 146096 ->
  let yoe := (doe - doe / 1460 + doe / 36524 - doe / 146096) / 365 in
  0 <= yoe <= 399 /\
  0 <= doe - (365 * yoe + yoe / 4 - yoe / 100) <= 365.
Proof.
  intros H yoe. subst yoe. Z.div_mod_to_equations. lia.
Qed.

(** The day number of the date of a day number is that day number. *)
Lemma days_from_civil_from_days day :
  let '(y, m, d) := civil_from_days day in days_from_civil y m d = day.
Proof.
  unfold civil_from_days.
  set (z := day + 719468).
  set (era := z / 146097).
  set (doe := z mod 146097).
  assert (Hdoe : 0 <= doe <= 146096)
    by (subst doe; pose proof (Z.mod_pos_bound z 146097); lia).
  destruct (year_of_era_bounds doe Hdoe) as [Hyoe Hdoy].
  set (yoe := (doe - doe / 1460 + doe / 36524 - doe / 146096) / 365) in *.
  set (doy := doe - (365 * yoe + yoe / 4 - yoe / 100)) in *.
  set (mp := (5 * doy + 2) / 153).
  assert (Hmp : 0 <= mp <= 11)
    by (subst mp; Z.div_mod_to_equations; lia).
  set (m := if mp <? 10 then mp + 3 else mp - 9).
  assert (Hm : (mp < 10 /\ m = mp + 3) \/ (10 <= mp /\ m = mp - 9))
    by (subst m; destruct (Z.ltb_spec mp 10); lia).
  unfold days_from_civil.
  assert (Hy : (if m <=? 2 then yoe + era * 400 + (if m <=? 2 then 1 else 0) - 1
                else yoe + era * 400 + (if m <=? 2 then 1 else 0))
               = yoe + era * 400)
    by (destruct (m <=? 2); lia).
  rewrite Hy.
  assert (Hmp' : (if 2 <? m then m - 3 else m + 9) = mp)
    by (destruct (Z.ltb_spec 2 m); lia).
  rewrite Hmp'.
  assert (He : (yoe + era * 400) / 400 = era)
    by (Z.div_mod_to_equations; lia).
  assert (Hr : (yoe + era * 400) mod 400 = yoe)
    by (Z.div_mod_to_equations; lia).
  rewrite He, Hr.
  assert (Hz : z = 146097 * era + doe)
    by (subst era doe; apply Z.div_mod; lia).
  subst doy z. lia.
Qed.

Lemma is_date_civil_from_days day :
  let '(y, m, d) := civil_from_days day in is_date y m d = true.
Proof.
  pose proof (days_from_civil_from_days day) as H.
  destruct (civil_from_days day) as [[y m] d] eqn:E.
  unfold is_date. rewrite H, E. now rewrite !Z.eqb_refl.
Qed.

Lemma year_range t :
  Z.abs t <= Js.maxTime ->
  let '(y, _, _) := civil_from_days (t / msPerDay) in
  -272000 <= y <= 276000.
Proof.
  intros Ht. unfold civil_from_days, msPerDay, Js.maxTime in *.
  set (z := t / 86400000 + 719468).
  set (doe := z mod 146097).
  assert (Hdoe : 0 <= doe <= 146096)
    by (subst doe; pose proof (Z.mod_pos_bound z 146097); lia).
  destruct (year_of_era_bounds doe Hdoe) as [Hyoe _].
  set (yoe := (doe - doe / 1460 + doe / 36524 - doe / 146096) / 365) in *.
  assert (Hera : -680 <= z / 146097 <= 689)
    by (subst z; Z.div_mod_to_equations; lia).
  cbv beta iota zeta.
  match goal with
  | |- context [if ?c then 1 else 0] => destruct c
  end; lia.
Qed.

(** The fields of the time within the day, and the time they make. *)
Lemma time_fields r :
  0 <= r < msPerDay ->
  0 <= r / 3600000 <= 23 /\ 0 <= r / 60000 mod 60 <= 59 /\
  0 <= r / 1000 mod 60 <= 59 /\ 0 <= r mod 1000 <= 999 /\
  ((r / 3600000 * 60 + r / 60000 mod 60) * 60 + r / 1000 mod 60) * 1000
    + r mod 1000 = r.
Proof. unfold msPerDay. intros H. Z.div_mod_to_equations. lia. Qed.

Lemma civil_fields_range day :
  let '(_, m, d) := civil_from_days day in 1 <= m <= 12 /\ 1 <= d <= 31.
Proof.
  unfold civil_from_days.
  set (z := day + 719468).
  set (doe := z mod 146097).
  assert (Hdoe : 0 <= doe <= 146096)
    by (subst doe; pose proof (Z.mod_pos_bound z 146097); lia).
  destruct (year_of_era_bounds doe Hdoe) as [_ Hdoy].
  set (yoe := (doe - doe / 1460 + doe / 36524 - doe / 146096) / 365) in *.
  set (doy := doe - (365 * yoe + yoe / 4 - yoe / 100)) in *.
  set (mp := (5 * doy + 2) / 153).
  assert (Hmp : 0 <= mp <= 11)
    by (subst mp; Z.div_mod_to_equations; lia).
  split.
  - destruct (Z.ltb_spec mp 10); lia.
  - subst mp. Z.div_mod_to_equations. lia.
Qed.

(** *** Digits written and read back *)

Lemma char_digit_char d : Js.char_digit (Js.digit_char d) = Some d.
Proof. destruct d; reflexivity. Qed.

Lemma digit_val_of_Z n : 0 <= n < 10 -> Js.digit_val (Js.digit_of_Z n) = n.
Proof.
  intros H. destruct n as [|p|p]; [reflexivity| |lia].
  do 4 (try destruct p as [p|p|]); try reflexivity; lia.
Qed.

Lemma render_app a b :
  Js.render_digits (a ++ b)
    = (Js.render_digits a ++ Js.render_digits b)%string.
Proof. induction a as [|d a IH]; simpl; [reflexivity | now rewrite IH]. Qed.

Lemma append_assoc (a b c : string) :
  ((a ++ b) ++ c = a ++ (b ++ c))%string.
Proof. induction a as [|x a IH]; simpl; [reflexivity | now rewrite IH]. Qed.

Lemma append_nil_r (a : string) : (a ++ "")%string = a.
Proof. induction a as [|x a IH]; simpl; [reflexivity | now rewrite IH]. Qed.

Lemma read_digits_render ds : forall acc rest,
  read_digits (List.length ds) acc (Js.render_digits ds ++ rest)
    = Some (fold_left Js.shift ds acc, rest).
Proof.
  induction ds as [|d ds IH]; intros acc rest; simpl; [reflexivity|].
  rewrite char_digit_char. apply IH.
Qed.

Lemma pad_length k : forall n, List.length (pad k n) = k.
Proof.
  induction k as [|k IH]; intros n; simpl; [reflexivity|].
  rewrite length_app, IH. simpl. lia.
Qed.

Lemma pad_value k : forall n acc,
  fold_left Js.shift (pad k n) acc = acc * 10 ^ Z.of_nat k + n mod 10 ^ Z.of_nat k.
Proof.
  induction k as [|k IH]; intros n acc.
  - simpl. rewrite Z.mod_1_r. lia.
  - cbn [pad]. rewrite fold_left_app. cbn [fold_left]. unfold Js.shift at 1.
    rewrite IH, digit_val_of_Z by (apply Z.mod_pos_bound; lia).
    rewrite Nat2Z.inj_succ, Z.pow_succ_r by lia.
    rewrite (Z.rem_mul_r n 10 (10 ^ Z.of_nat k)) by lia. lia.
Qed.

Lemma read_padded k n rest :
  0 <= n < 10 ^ Z.of_nat k ->
  read_digits k 0 (padded k n ++ rest) = Some (n, rest).
Proof.
  intros H. unfold padded.
  rewrite <- (pad_length k n) at 1.
  rewrite read_digits_render, pad_value, Z.mod_small by exact H.
  reflexivity.
Qed.

Lemma expect_app sep rest : Json.expect sep (sep ++ rest) = Some rest.
Proof.
  induction sep as [|c sep IH]; simpl; [now destruct rest|].
  now rewrite Ascii.eqb_refl.
Qed.

Lemma read_field_padded k sep n rest :
  0 <= n < 10 ^ Z.of_nat k ->
  read_field k sep (padded k n ++ sep ++ rest) = Some (n, rest).
Proof.
  intros H. unfold read_field. now rewrite read_padded, expect_app.
Qed.

Lemma read_field_last k sep n :
  0 <= n < 10 ^ Z.of_nat k ->
  read_field k sep (padded k n ++ sep) = Some (n, "").
Proof.
  intros H. rewrite <- (append_nil_r sep) at 2.
  now apply read_field_padded.
Qed.

Lemma padded_head k n :
  exists d s, padded (S k) n = String (Js.digit_char d) s.
Proof.
  unfold padded.
  destruct (pad (S k) n) as [|d ds] eqn:E.
  - apply (f_equal (@List.length _)) in E. rewrite pad_length in E.
    discriminate E.
  - exists d, (Js.render_digits ds). reflexivity.
Qed.

Lemma read_year_text y rest :
  -999999 <= y <= 999999 ->
  read_year (year_text y ++ rest) = Some (y, rest).
Proof.
  intros H. unfold year_text.
  destruct (Z.leb_spec 0 y) as [H0|H0]; cbn [andb].
  - destruct (Z.leb_spec y 9999) as [H1|H1].
    + destruct (padded_head 3 y) as (d & s & E).
      assert (R : read_digits 4 0 (padded 4 y ++ rest) = Some (y, rest))
        by (apply read_padded; simpl; lia).
      rewrite E in *. destruct d; exact R.
    + destruct (Z.ltb_spec y 0); [lia|].
      cbn [append read_year]. rewrite read_padded by (simpl; lia).
      reflexivity.
  - destruct (Z.ltb_spec y 0); [|lia].
    cbn [append read_year]. rewrite read_padded by (simpl; lia).
    destruct (- y) eqn:E; try lia; f_equal; f_equal; lia.
Qed.

(** The text [toISOString] gives for a time value in range reads back
    as that time value. *)
Lemma parse_toISOString t :
  Z.abs t <= Js.maxTime -> parse (toISOString t) = Some t.
Proof.
  intros Ht. unfold toISOString, parse.
  pose proof (year_range t Ht) as Hy.
  pose proof (civil_fields_range (t / msPerDay)) as Hmd.
  pose proof (is_date_civil_from_days (t / msPerDay)) as Hdate.
  pose proof (days_from_civil_from_days (t / msPerDay)) as Hdays.
  destruct (civil_from_days (t / msPerDay)) as [[y m] d].
  assert (Hr : 0 <= t mod msPerDay < msPerDay)
    by (apply Z.mod_pos_bound; reflexivity).
  destruct (time_fields _ Hr) as (Hh & Hmi & Hs & Hms & Hsum).
  rewrite read_year_text, expect_app by lia.
  rewrite !read_field_padded by (simpl; lia).
  rewrite read_field_last by (simpl; lia).
  rewrite Hdate.
  destruct (Z.leb_spec (t mod msPerDay / 3600000) 23); [|lia].
  destruct (Z.leb_spec (t mod msPerDay / 60000 mod 60) 59); [|lia].
  destruct (Z.leb_spec (t mod msPerDay / 1000 mod 60) 59); [|lia].
  cbn [andb]. f_equal. rewrite Hdays.
  pose proof (Z.div_mod t msPerDay ltac:(discriminate)). lia.
Qed.

End IsoDates.

(** * JSON text written and read back *)

Section JsonNumbers.

Import Json.

Lemma closes_no_digit rest : closes rest -> no_digit rest.
Proof. destruct rest as [|c r]; simpl; [trivial|]. intros [->|[->| ->]]; reflexivity. Qed.

Lemma take_digits_render ds : forall rest,
  no_digit rest -> take_digits (Js.render_digits ds ++ rest) = (ds, rest).
Proof.
  induction ds as [|d ds IH]; intros rest H; simpl.
  - destruct rest as [|c r]; [reflexivity|]. simpl in H. simpl. now rewrite H.
  - rewrite char_digit_char, IH by exact H. reflexivity.
Qed.

Lemma to_digits_acc fuel : forall n acc,
  Js.to_digits fuel n acc = Js.to_digits fuel n [] ++ acc.
Proof.
  induction fuel as [|f IH]; intros n acc; simpl; [reflexivity|].
  destruct (n / 10 =? 0); [reflexivity|].
  rewrite (IH _ (_ :: acc)), (IH _ [_]), <- app_assoc. reflexivity.
Qed.

Lemma to_digits_value fuel : forall n,
  0 <= n < 2 ^ Z.of_nat fuel ->
  fold_left Js.shift (Js.to_digits fuel n []) 0 = n.
Proof.
  induction fuel as [|f IH]; intros n H.
  - simpl in *. lia.
  - cbn [Js.to_digits].
    assert (Hd : 0 <= n mod 10 < 10) by (apply Z.mod_pos_bound; lia).
    destruct (Z.eqb_spec (n / 10) 0) as [E|E].
    + cbn [fold_left]. unfold Js.shift. rewrite digit_val_of_Z by exact Hd.
      pose proof (Z.div_mod n 10 ltac:(discriminate)). lia.
    + rewrite to_digits_acc, fold_left_app. cbn [fold_left].
      unfold Js.shift at 1. rewrite IH, digit_val_of_Z by
        (try exact Hd; rewrite Nat2Z.inj_succ, Z.pow_succ_r in H by lia;
         Z.div_mod_to_equations; lia).
      pose proof (Z.div_mod n 10 ltac:(discriminate)). lia.
Qed.

Lemma digits_of_Z_value n : 0 <= n -> Js.digits_value (Js.digits_of_Z n) = n.
Proof.
  intros H. unfold Js.digits_value, Js.digits_of_Z.
  apply to_digits_value. split; [exact H|].
  destruct (Z.eq_dec n 0) as [->|Hn]; [reflexivity|].
  rewrite Nat2Z.inj_succ, Z2Nat.id by apply Z.log2_nonneg.
  apply Z.log2_spec. lia.
Qed.

Lemma digits_of_Z_nonempty n : Js.digits_of_Z n <> [].
Proof.
  unfold Js.digits_of_Z. cbn [Js.to_digits].
  destruct (n / 10 =? 0); [discriminate|].
  rewrite to_digits_acc. intros E. apply app_eq_nil in E.
  destruct E as [_ E]. discriminate E.
Qed.

Lemma closes_ends_number rest : closes rest -> ends_number rest.
Proof.
  destruct rest as [|c r]; simpl; [trivial|].
  intros [->|[->| ->]]; repeat split; discriminate.
Qed.

Lemma ends_number_no_digit rest : ends_number rest -> no_digit rest.
Proof. destruct rest; simpl; tauto. Qed.

Lemma parse_fraction_none rest :
  ends_number rest -> parse_fraction rest = Some ([], rest).
Proof.
  destruct rest as [|c r]; simpl; [reflexivity|].
  intros (_ & H & _).
  destruct c as [[] [] [] [] [] [] [] []]; try reflexivity. congruence.
Qed.

Lemma parse_exponent_none rest :
  ends_number rest -> parse_exponent rest = Some (0, rest).
Proof.
  destruct rest as [|c r]; simpl; [reflexivity|].
  intros (_ & _ & H1 & H2).
  destruct (Ascii.eqb_spec c "e"); [contradiction|].
  destruct (Ascii.eqb_spec c "E"); [contradiction|]. reflexivity.
Qed.

Lemma strip_leading_nonzero d ds p :
  Js.is_zero_digit d = false -> strip_leading (d :: ds) p = (d :: ds, p).
Proof. destruct d; simpl; congruence. Qed.

Lemma strip_leading_zeros k : forall ds p,
  strip_leading (repeat Js.d0 k ++ ds) p
    = strip_leading ds (p - Z.of_nat k).
Proof.
  induction k as [|k IH]; intros ds p.
  - simpl. f_equal. lia.
  - cbn [repeat app strip_leading]. rewrite IH. f_equal. lia.
Qed.

Lemma strip_trailing_zeros k : strip_trailing (repeat Js.d0 k) = [].
Proof. induction k as [|k IH]; simpl; [reflexivity | now rewrite IH]. Qed.

Lemma strip_trailing_cons d r :
  strip_trailing (d :: r)
    = match strip_trailing r with
      | [] => if Js.is_zero_digit d then [] else [d]
      | r' => d :: r'
      end.
Proof. reflexivity. Qed.

Lemma strip_trailing_fixed ds :
  Js.ends_nonzero ds = true -> strip_trailing ds = ds.
Proof.
  induction ds as [|d ds IH]; [discriminate|].
  destruct ds as [|d' ds'].
  - simpl. intros H. apply negb_true_iff in H. now rewrite H.
  - intros H. change (Js.ends_nonzero (d' :: ds') = true) in H.
    rewrite strip_trailing_cons, (IH H). reflexivity.
Qed.

Lemma strip_trailing_app_zeros ds k :
  Js.ends_nonzero ds = true ->
  strip_trailing (ds ++ repeat Js.d0 k) = ds.
Proof.
  induction ds as [|d ds IH]; [discriminate|].
  destruct ds as [|d' ds'].
  - simpl. intros H. apply negb_true_iff in H.
    rewrite strip_trailing_zeros, H. reflexivity.
  - intros H. change (Js.ends_nonzero (d' :: ds') = true) in H.
    rewrite <- app_comm_cons, strip_trailing_cons, (IH H). reflexivity.
Qed.

(** A number in its one representation is what [decimal] makes of its
    own digits. *)
Lemma decimal_canonical neg d ds p :
  Js.is_zero_digit d = false -> Js.ends_nonzero (d :: ds) = true ->
  decimal neg (d :: ds) p = Js.Number neg (d :: ds) p.
Proof.
  intros Hd He. unfold decimal.
  rewrite strip_leading_nonzero, strip_trailing_fixed by assumption.
  reflexivity.
Qed.

Lemma digit_char_head d rest :
  String (Js.digit_char d) rest <> String "-" rest /\
  take_digits (String (Js.digit_char d) rest)
    = (d :: fst (take_digits rest), snd (take_digits rest)).
Proof.
  split; [destruct d; discriminate|].
  simpl. rewrite char_digit_char. now destruct (take_digits rest).
Qed.

Lemma parse_unsigned_int neg s d int s1 :
  take_digits s = (d :: int, s1) ->
  Js.is_zero_digit d = false \/ int = [] ->
  parse_unsigned neg s = after_int neg (d :: int) s1.
Proof.
  intros H Hd. unfold parse_unsigned. rewrite H.
  destruct d; try reflexivity.
  destruct Hd as [Hd| ->]; [discriminate Hd | reflexivity].
Qed.

Lemma parse_fraction_digits ds rest :
  ds <> [] -> no_digit rest ->
  parse_fraction (String "." (Js.render_digits ds ++ rest))
    = Some (ds, rest).
Proof.
  intros Hne Hr. cbn [parse_fraction].
  rewrite take_digits_render by exact Hr.
  destruct ds; [contradiction | reflexivity].
Qed.

Lemma no_digit_dot r : no_digit (String "." r).
Proof. reflexivity. Qed.

Lemma no_digit_e r : no_digit (String "e" r).
Proof. reflexivity. Qed.

Ltac same_point := cbn [List.length] in *; repeat f_equal; lia.

Section Magnitude.

Variables (neg : bool) (d : Js.digit) (ds' : list Js.digit) (n : Z).
Variable rest : string.
Hypothesis Hd : Js.is_zero_digit d = false.
Hypothesis He : Js.ends_nonzero (d :: ds') = true.
Hypothesis Hrest : ends_number rest.

Let ds := d :: ds'.
Let k := Z.of_nat (List.length ds).

Lemma integer_text_back :
  k <= n ->
  parse_unsigned neg
    (Js.render_digits ds ++ zeros (Z.to_nat (n - k)) ++ rest)
    = Some (Js.Number neg ds n, rest).
Proof.
  intros Hk. unfold zeros.
  rewrite <- append_assoc, <- render_app.
  rewrite (parse_unsigned_int neg _ d (ds' ++ repeat Js.d0 (Z.to_nat (n - k))) rest).
  - unfold after_int.
    rewrite parse_fraction_none, parse_exponent_none by exact Hrest.
    rewrite app_nil_r. unfold decimal.
    rewrite strip_leading_nonzero by exact Hd.
    change (d :: ds' ++ repeat Js.d0 (Z.to_nat (n - k)))
      with (ds ++ repeat Js.d0 (Z.to_nat (n - k))).
    rewrite strip_trailing_app_zeros by exact He.
    subst ds. cbn [List.length app]. rewrite length_app, repeat_length.
    subst k. same_point.
  - apply take_digits_render, ends_number_no_digit, Hrest.
  - left. exact Hd.
Qed.

Lemma point_text_back :
  0 < n < k ->
  parse_unsigned neg
    (Js.render_digits (firstn (Z.to_nat n) ds) ++ "." ++
     Js.render_digits (skipn (Z.to_nat n) ds) ++ rest)
    = Some (Js.Number neg ds n, rest).
Proof.
  intros Hn.
  assert (Hl : (Z.to_nat n < List.length ds)%nat) by (subst k; lia).
  destruct (Z.to_nat n) as [|j] eqn:Ej; [lia|].
  change (firstn (S j) ds) with (d :: firstn j ds').
  rewrite (parse_unsigned_int neg _ d (firstn j ds')
             ("." ++ Js.render_digits (skipn (S j) ds) ++ rest)).
  - unfold after_int. cbn [append].
    rewrite parse_fraction_digits.
    + rewrite parse_exponent_none by exact Hrest.
      change (d :: firstn j ds') with (firstn (S j) ds).
      rewrite firstn_skipn, length_firstn, Nat.min_l by lia.
      subst k ds. rewrite decimal_canonical by assumption.
      same_point.
    + intros E. apply (f_equal (@List.length _)) in E.
      rewrite length_skipn in E. subst ds. cbn [List.length] in *. lia.
    + apply ends_number_no_digit, Hrest.
  - apply take_digits_render. reflexivity.
  - left. exact Hd.
Qed.

Lemma fraction_text_back :
  n <= 0 ->
  parse_unsigned neg
    (String "0" (String "."
       (zeros (Z.to_nat (- n)) ++ Js.render_digits ds ++ rest)))
    = Some (Js.Number neg ds n, rest).
Proof.
  intros Hn.
  rewrite (parse_unsigned_int neg _ Js.d0 []
             (String "." (zeros (Z.to_nat (- n)) ++
                          Js.render_digits ds ++ rest)));
    [|reflexivity|right; reflexivity].
  unfold after_int, zeros.
  rewrite <- append_assoc, <- render_app.
  rewrite parse_fraction_digits.
  - rewrite parse_exponent_none by exact Hrest.
    unfold decimal.
    change ([Js.d0] ++ repeat Js.d0 (Z.to_nat (- n)) ++ ds)
      with (repeat Js.d0 (S (Z.to_nat (- n))) ++ ds).
    rewrite strip_leading_zeros.
    subst ds. rewrite strip_leading_nonzero by exact Hd.
    rewrite strip_trailing_fixed by exact He.
    same_point.
  - subst ds. destruct (repeat Js.d0 (Z.to_nat (- n))); discriminate.
  - apply ends_number_no_digit, Hrest.
Qed.

Lemma exponent_digits_back (sign : bool) :
  parse_exp_digits sign (Js.Z_toString (Z.abs (n - 1)) ++ rest)
    = Some (if sign then - Z.abs (n - 1) else Z.abs (n - 1), rest).
Proof.
  unfold parse_exp_digits, Js.Z_toString.
  destruct (Z.ltb_spec (Z.abs (n - 1)) 0); [lia|].
  rewrite take_digits_render by (apply ends_number_no_digit, Hrest).
  rewrite digits_of_Z_value by lia.
  pose proof (digits_of_Z_nonempty (Z.abs (n - 1))).
  destruct (Js.digits_of_Z (Z.abs (n - 1))); [contradiction | reflexivity].
Qed.

Lemma exponent_back :
  parse_exponent
    (("e" ++ (if n - 1 <? 0 then "-" else "+") ++
      Js.Z_toString (Z.abs (n - 1))) ++ rest)
    = Some (n - 1, rest).
Proof.
  destruct (Z.ltb_spec (n - 1) 0); cbn [append parse_exponent Ascii.eqb
    Bool.eqb orb]; rewrite exponent_digits_back; do 2 f_equal; lia.
Qed.

Lemma exponent_text_back :
  parse_unsigned neg
    (String (Js.digit_char d)
       ((match ds' with
         | [] => ""
         | _ => String "." (Js.render_digits ds')
         end) ++
        ("e" ++ (if n - 1 <? 0 then "-" else "+") ++
         Js.Z_toString (Z.abs (n - 1))) ++ rest))
    = Some (Js.Number neg ds n, rest).
Proof.
  set (tail := append (append "e" (append (if n - 1 <? 0 then "-" else "+")
                                     (Js.Z_toString (Z.abs (n - 1)))))
                 rest).
  assert (Htail : parse_exponent tail = Some (n - 1, rest))
    by apply exponent_back.
  assert (Hhead : exists r, tail = String "e" r)
    by (eexists; reflexivity).
  destruct Hhead as [r Hr].
  subst ds. clear k. revert He. destruct ds' as [|d1 ds1]; intros He'.
  - cbn [append].
    rewrite (parse_unsigned_int neg _ d [] tail);
      [|rewrite Hr; simpl; now rewrite char_digit_char|right; reflexivity].
    unfold after_int. rewrite Hr. cbn [parse_fraction]. rewrite <- Hr, Htail.
    cbn [app]. rewrite decimal_canonical by assumption. same_point.
  - cbn [append].
    rewrite (parse_unsigned_int neg _ d []
               (String "." (Js.render_digits (d1 :: ds1) ++ tail)));
      [|simpl; now rewrite char_digit_char|right; reflexivity].
    unfold after_int.
    rewrite parse_fraction_digits;
      [|discriminate|rewrite Hr; reflexivity].
    rewrite Htail. change ([d] ++ d1 :: ds1) with (d :: d1 :: ds1).
    rewrite decimal_canonical by assumption. same_point.
Qed.

End Magnitude.

Lemma parse_number_unsigned s r :
  parse_unsigned false s = Some r -> parse_number s = Some r.
Proof.
  intros H. destruct s as [|c s']; [exact H|].
  destruct (Ascii.eqb_spec c "-") as [->|Hne].
  - discriminate H.
  - destruct c as [[] [] [] [] [] [] [] []]; try exact H. congruence.
Qed.

Lemma number_toString_magnitude neg d ds' n :
  number_toString (Js.Number neg (d :: ds') n)
    = ((if neg then "-" else "") ++ magnitude d ds' n)%string.
Proof.
  reflexivity.
Qed.

Lemma magnitude_back neg d ds' n rest :
  Js.is_zero_digit d = false -> Js.ends_nonzero (d :: ds') = true ->
  ends_number rest ->
  parse_unsigned neg (magnitude d ds' n ++ rest)
    = Some (Js.Number neg (d :: ds') n, rest).
Proof.
  intros Hd He Hr. unfold magnitude.
  destruct ((-5 <=? n) && (n <=? 21)).
  - destruct (Z.leb_spec (Z.of_nat (List.length (d :: ds'))) n).
    + rewrite append_assoc. now apply integer_text_back.
    + destruct (Z.ltb_spec 0 n).
      * rewrite !append_assoc. apply point_text_back; auto.
      * cbn [append]. rewrite append_assoc.
        apply fraction_text_back; auto.
  - cbn [append]. rewrite append_assoc. now apply exponent_text_back.
Qed.

(** A number written by [Number::toString] reads back as itself. *)
Lemma number_text_back x rest :
  Js.canonical x = true -> ends_number rest ->
  parse_number (number_toString x ++ rest) = Some (x, rest).
Proof.
  intros Hc Hr. destruct x as [neg ds n]. unfold Js.canonical in Hc.
  cbn [Js.digits Js.negative Js.point] in Hc.
  destruct ds as [|d ds'].
  - apply andb_true_iff in Hc. destruct Hc as [Hn Hp].
    apply negb_true_iff in Hn. apply Z.eqb_eq in Hp. subst neg n.
    apply parse_number_unsigned.
    change (number_toString (Js.Number false [] 0) ++ rest)%string
      with (String "0" rest).
    rewrite (parse_unsigned_int false _ Js.d0 [] rest);
      [|apply (take_digits_render [Js.d0]), ends_number_no_digit, Hr
       |right; reflexivity].
    unfold after_int.
    rewrite parse_fraction_none, parse_exponent_none by exact Hr.
    reflexivity.
  - apply andb_true_iff in Hc. destruct Hc as [Hd He].
    apply negb_true_iff in Hd.
    rewrite number_toString_magnitude. destruct neg.
    + cbn [append parse_number]. now apply magnitude_back.
    + cbn [append]. apply parse_number_unsigned. now apply magnitude_back.
Qed.

Lemma number_text_head x :
  exists c s, number_toString x = String c s /\
    (c = "-"%char \/ exists d, c = Js.digit_char d).
Proof.
  destruct x as [neg [|d ds'] n].
  - exists "0"%char, "". split; [reflexivity|]. right. now exists Js.d0.
  - rewrite number_toString_magnitude. destruct neg.
    + eexists _, _. split; [reflexivity|]. now left.
    + cbn [append]. unfold magnitude.
      destruct ((-5 <=? n) && (n <=? 21)).
      * destruct (Z.of_nat (List.length (d :: ds')) <=? n).
        { eexists _, _. split; [reflexivity|]. right. now exists d. }
        destruct (Z.ltb_spec 0 n).
        { destruct (Z.to_nat n) as [|j] eqn:E; [lia|].
          eexists _, _. split; [reflexivity|]. right. now exists d. }
        { eexists _, _. split; [reflexivity|]. right. now exists Js.d0. }
      * eexists _, _. split; [reflexivity|]. right. now exists d.
Qed.

End JsonNumbers.

Section JsonText.

Import Json.

(** *** Strings *)

Lemma parse_chars_escape c s q :
  parse_chars (escape (String c s) ++ q)
    = cons_char c (parse_chars (escape s ++ q)).
Proof. destruct c as [[] [] [] [] [] [] [] []]; reflexivity. Qed.

Lemma string_back s rest :
  parse_chars (escape s ++ String "034" rest) = Some (s, rest).
Proof.
  induction s as [|c s IH]; [reflexivity|].
  rewrite parse_chars_escape, IH. reflexivity.
Qed.

Lemma quote_app s rest :
  (quote s ++ rest)%string = String "034" (escape s ++ String "034" rest).
Proof. unfold quote. cbn [append]. now rewrite append_assoc. Qed.

Lemma length_append (a b : string) :
  String.length (a ++ b) = (String.length a + String.length b)%nat.
Proof. induction a as [|c a IH]; simpl; [reflexivity | now rewrite IH]. Qed.

(** *** Values *)

Lemma value_induction (P : value -> Prop) :
  P Null -> (forall b, P (Bool b)) -> (forall n, P (Num n)) ->
  (forall s, P (Str s)) ->
  (forall items, Forall P items -> P (Arr items)) ->
  (forall members, Forall (fun m => P (snd m)) members -> P (Obj members)) ->
  forall v, P v.
Proof.
  intros HN HB HNum HS HA HO.
  refine (fix F (v : value) : P v :=
            match v with
            | Null => HN
            | Bool b => HB b
            | Num n => HNum n
            | Str s => HS s
            | Arr items =>
                HA items
                  ((fix G (l : list value) : Forall P l :=
                      match l with
                      | [] => Forall_nil _
                      | x :: r => Forall_cons x (F x) (G r)
                      end) items)
            | Obj members =>
                HO members
                  ((fix G (l : list (string * value))
                      : Forall (fun m => P (snd m)) l :=
                      match l with
                      | [] => Forall_nil _
                      | m :: r => Forall_cons m (F (snd m)) (G r)
                      end) members)
            end).
Qed.

Lemma stringify_head v :
  exists c s, stringify v = String c s /\ In c value_heads.
Proof.
  destruct v as [|[]|n|s|items|members];
    try (eexists _, _; split; [reflexivity|]; simpl; tauto).
  destruct (number_text_head n) as (c & s & E & [->|[d ->]]).
  - exists "-"%char, s. split; [exact E|]. simpl; tauto.
  - exists (Js.digit_char d), s. split; [exact E|].
    destruct d; simpl; tauto.
Qed.

Lemma stringify_nonempty v : (1 <= String.length (stringify v))%nat.
Proof.
  destruct (stringify_head v) as (c & s & E & _). rewrite E. simpl. lia.
Qed.

Lemma parse_items_eq f s :
  parse_items (S f) s
    = match parse_value f s with
      | Some (v, r) =>
          match skip_ws r with
          | String ","%char r' =>
              match parse_items f r' with
              | Some (vs, rest) => Some (v :: vs, rest)
              | None => None
              end
          | String "]"%char rest => Some ([v], rest)
          | _ => None
          end
      | None => None
      end.
Proof. reflexivity. Qed.

Lemma parse_members_eq f r :
  parse_members (S f) (String "034" r)
    = match parse_chars r with
      | Some (name, r1) =>
          match skip_ws r1 with
          | String ":"%char r2 =>
              match parse_value f r2 with
              | Some (v, r3) =>
                  match skip_ws r3 with
                  | String ","%char r4 =>
                      match parse_members f r4 with
                      | Some (ms, rest) => Some ((name, v) :: ms, rest)
                      | None => None
                      end
                  | String "}"%char rest => Some ([(name, v)], rest)
                  | _ => None
                  end
              | None => None
              end
          | _ => None
          end
      | None => None
      end.
Proof. reflexivity. Qed.

Lemma parse_array_eq f c s :
  In c value_heads ->
  parse_value (S f) (String "[" (String c s))
    = match parse_items f (String c s) with
      | Some (items, rest) => Some (Arr items, rest)
      | None => None
      end.
Proof.
  intros H. simpl in H.
  repeat (destruct H as [<-|H]; [reflexivity|]). contradiction.
Qed.

Lemma parse_object_eq f s :
  parse_value (S f) (String "{" (String "034" s))
    = match parse_members f (String "034" s) with
      | Some (members, rest) => Some (Obj members, rest)
      | None => None
      end.
Proof. reflexivity. Qed.

Lemma parse_number_eq f c s :
  c = "-"%char \/ (exists d, c = Js.digit_char d) ->
  parse_value (S f) (String c s)
    = match parse_number (String c s) with
      | Some (n, rest) => Some (Num n, rest)
      | None => None
      end.
Proof. intros [->|[d ->]]; [reflexivity|]. destruct d; reflexivity. Qed.

Lemma skip_ws_closes rest : closes rest -> skip_ws rest = rest.
Proof.
  destruct rest as [|c r]; [reflexivity|].
  intros [->|[->| ->]]; reflexivity.
Qed.

Lemma skip_ws_comma r : skip_ws (String "," r) = String "," r.
Proof. reflexivity. Qed.

Lemma skip_ws_colon r : skip_ws (String ":" r) = String ":" r.
Proof. reflexivity. Qed.

Lemma items_back xs :
  Forall reads_back xs -> forallb canonical_numbers xs = true ->
  forall x f rest,
    reads_back x -> canonical_numbers x = true ->
    (String.length (stringify x)
     + String.length (join_tail "," (map stringify xs)) + 1 <= f)%nat ->
    parse_items f
      (stringify x ++ join_tail "," (map stringify xs) ++ String "]" rest)
      = Some (x :: xs, rest).
Proof.
  intros HF. induction HF as [|y ys Hy _ IH]; intros Hwf x f rest Hx Hwx Hlen.
  - destruct f as [|f]; [lia|]. cbn [map join_tail append] in *.
    rewrite parse_items_eq, Hx; [reflexivity|exact Hwx|lia|simpl; tauto].
  - destruct f as [|f]; [lia|]. cbn [map join_tail] in *.
    cbn [forallb] in Hwf. apply andb_true_iff in Hwf. destruct Hwf as [Hwy Hwys].
    rewrite !length_append in Hlen. cbn [String.length] in Hlen.
    pose proof (stringify_nonempty x).
    rewrite !append_assoc. cbn [append].
    rewrite parse_items_eq, Hx; [|exact Hwx|lia|simpl; tauto].
    rewrite skip_ws_comma. cbv beta iota.
    rewrite IH; [reflexivity|exact Hwys|exact Hy|exact Hwy|lia].
Qed.

Lemma member_text_app k x tail :
  (member_text (k, x) ++ tail)%string
    = String "034"
        (escape k ++ String "034" (String ":" (stringify x ++ tail))).
Proof.
  unfold member_text. cbn [fst snd].
  rewrite append_assoc, quote_app. reflexivity.
Qed.

Lemma member_text_length k x :
  (String.length (stringify x) + 3 <= String.length (member_text (k, x)))%nat.
Proof.
  unfold member_text, quote. cbn [fst snd].
  cbn [append String.length]. rewrite !length_append.
  cbn [String.length]. lia.
Qed.

Lemma members_back ms :
  Forall (fun m => reads_back (snd m)) ms ->
  forallb (fun m => canonical_numbers (snd m)) ms = true ->
  forall k x f rest,
    reads_back x -> canonical_numbers x = true ->
    (String.length (member_text (k, x))
     + String.length (join_tail "," (map member_text ms)) + 1 <= f)%nat ->
    parse_members f
      (member_text (k, x) ++ join_tail "," (map member_text ms)
       ++ String "}" rest)
      = Some ((k, x) :: ms, rest).
Proof.
  intros HF.
  induction HF as [|[k' y] ys Hy _ IH]; intros Hwf k x f rest Hx Hwx Hlen;
    (destruct f as [|f]; [lia|]);
    pose proof (member_text_length k x) as Hm;
    rewrite member_text_app, parse_members_eq, string_back, skip_ws_colon;
    cbv beta iota.
  - cbn [map join_tail append] in *.
    rewrite Hx; [reflexivity|exact Hwx|lia|simpl; tauto].
  - cbn [map join_tail] in *.
    cbn [forallb snd] in Hwf. apply andb_true_iff in Hwf.
    destruct Hwf as [Hwy Hwys].
    rewrite !length_append in Hlen. cbn [String.length] in Hlen.
    rewrite !append_assoc. cbn [append].
    rewrite Hx; [|exact Hwx|lia|simpl; tauto].
    rewrite skip_ws_comma. cbv beta iota.
    rewrite IH; [reflexivity|exact Hwys|exact Hy|exact Hwy|lia].
Qed.

Lemma array_text x xs rest :
  (stringify (Arr (x :: xs)) ++ rest)%string
    = String "["
        (stringify x ++ join_tail "," (map stringify xs) ++ String "]" rest).
Proof.
  change (stringify (Arr (x :: xs)))
    with ("[" ++ (stringify x ++ join_tail "," (map stringify xs)) ++ "]")%string.
  cbn [append]. now rewrite !append_assoc.
Qed.

Lemma object_text m ms rest :
  (stringify (Obj (m :: ms)) ++ rest)%string
    = String "{"
        (member_text m ++ join_tail "," (map member_text ms)
         ++ String "}" rest).
Proof.
  change (stringify (Obj (m :: ms)))
    with ("{" ++ (member_text m ++ join_tail "," (map member_text ms)) ++ "}")%string.
  cbn [append]. now rewrite !append_assoc.
Qed.

Lemma value_back v : reads_back v.
Proof.
  induction v as [|b|n|s|items IH|members IH] using value_induction;
    intros fuel rest Hwf Hlen Hrest.
  - destruct fuel; [simpl in Hlen; lia | reflexivity].
  - destruct fuel; [destruct b; simpl in Hlen; lia | destruct b; reflexivity].
  - destruct fuel; [pose proof (stringify_nonempty (Num n)); lia|].
    cbn [stringify canonical_numbers] in *.
    destruct (number_text_head n) as (c & s & E & Hc).
    pose proof (number_text_back n rest Hwf (closes_ends_number _ Hrest)) as B.
    rewrite E in *. cbn [append] in *.
    rewrite (parse_number_eq _ _ _ Hc), B. reflexivity.
  - destruct fuel; [pose proof (stringify_nonempty (Str s)); lia|].
    cbn [stringify]. rewrite quote_app.
    change (parse_value (S fuel) (String "034" ?r))
      with (match parse_chars r with
            | Some (str, rest0) => Some (Str str, rest0)
            | None => None
            end).
    now rewrite string_back.
  - destruct fuel; [pose proof (stringify_nonempty (Arr items)); lia|].
    destruct items as [|x xs]; [reflexivity|].
    cbn [canonical_numbers forallb] in Hwf. apply andb_true_iff in Hwf.
    destruct Hwf as [Hwx Hwxs].
    assert (L : (String.length (stringify x)
                 + String.length (join_tail "," (map stringify xs)) + 1
                 <= fuel)%nat).
    { pose proof (array_text x xs "") as T.
      apply (f_equal String.length) in T.
      rewrite append_nil_r in T. rewrite T in Hlen.
      cbn [String.length] in Hlen. rewrite !length_append in Hlen.
      cbn [String.length] in Hlen. lia. }
    rewrite array_text.
    destruct (stringify_head x) as (c & s & E & Hc).
    pose proof (items_back xs (Forall_inv_tail IH) Hwxs x fuel rest
                  (Forall_inv IH) Hwx L) as B.
    rewrite E in *. cbn [append] in *.
    rewrite (parse_array_eq _ _ _ Hc), B. reflexivity.
  - destruct fuel; [pose proof (stringify_nonempty (Obj members)); lia|].
    destruct members as [|[k x] ms]; [reflexivity|].
    cbn [canonical_numbers forallb snd] in Hwf. apply andb_true_iff in Hwf.
    destruct Hwf as [Hwx Hwxs].
    assert (L : (String.length (member_text (k, x))
                 + String.length (join_tail "," (map member_text ms)) + 1
                 <= fuel)%nat).
    { pose proof (object_text (k, x) ms "") as T.
      apply (f_equal String.length) in T.
      rewrite append_nil_r in T. rewrite T in Hlen.
      cbn [String.length] in Hlen. rewrite !length_append in Hlen.
      cbn [String.length] in Hlen. lia. }
    rewrite object_text.
    pose proof (members_back ms (Forall_inv_tail IH) Hwxs k x fuel rest
                  (Forall_inv IH) Hwx L) as B.
    rewrite member_text_app in *.
    rewrite parse_object_eq, B. reflexivity.
Qed.

(** [JSON.parse(JSON.stringify(v))] is [v]. *)
Lemma parse_stringify v : canonical_numbers v = true -> parse (stringify v) = Some v.
Proof.
  intros Hwf. unfold parse.
  rewrite <- (append_nil_r (stringify v)) at 2.
  rewrite (value_back v _ "" Hwf); [reflexivity|lia|exact I].
Qed.

End JsonText.

Section StoreRoundTrip.

Import Store.

#[local] Arguments IsoDate.toISOString : simpl never.
#[local] Arguments IsoDate.parse : simpl never.
#[local] Arguments Js.timeClip : simpl never.
#[local] Arguments Js.canonical : simpl never.

Lemma traverse_cons {A B} (f : A -> option B) x r :
  Js.traverse f (x :: r)
    = match f x, Js.traverse f r with
      | Some y, Some r' => Some (y :: r')
      | _, _ => None
      end.
Proof. reflexivity. Qed.

Lemma traverse_reads_as {A} (enc : A -> Json.value)
    (dec : revived -> option A) (l : list A) :
  Forall (reads_as enc dec) l ->
  exists rvs, Js.traverse revive (map enc l) = Some rvs /\
              Js.traverse dec rvs = Some l.
Proof.
  induction 1 as [|a l (rv & Hr & Hd) _ (rvs & Hrs & Hds)].
  - exists []. split; reflexivity.
  - exists (rv :: rvs). cbn [map].
    rewrite !traverse_cons, Hr, Hrs, Hd, Hds. split; reflexivity.
Qed.

Lemma strings_read_back l :
  reads_as (fun l => Json.Arr (map Json.Str l)) as_strings l.
Proof.
  destruct (traverse_reads_as Json.Str (fun x => as_string (Some x)) l)
    as (rvs & Hr & Hd).
  - apply Forall_forall. intros s _. exists (RStr s). split; reflexivity.
  - exists (RArr rvs). split; [|exact Hd].
    cbn [revive]. now rewrite Hr.
Qed.

(** An instant written by [toJSON] is revived as the same instant. *)
Lemma date_revived key d :
  Js.is_instant d = true ->
  key = "timestamp" \/ key = "lastUpdated" ->
  exists text, revive (date_toJSON d) = Some (RStr text) /\
               reviver key (RStr text) = Some (RDate d).
Proof.
  intros Hd Hk. destruct d as [t|]; [|discriminate].
  cbn [Js.is_instant] in Hd. apply Z.leb_le in Hd.
  exists (IsoDate.toISOString t). split; [reflexivity|].
  unfold reviver.
  assert (E : String.eqb key "timestamp" || String.eqb key "lastUpdated"
              = true) by (destruct Hk as [->| ->]; reflexivity).
  rewrite E. cbn [new_Date]. rewrite parse_toISOString by exact Hd.
  cbn [option_map]. unfold Js.timeClip.
  destruct (Z.leb_spec (Z.abs t) Js.maxTime); [reflexivity | lia].
Qed.

Lemma revive_obj ms :
  revive (Json.Obj ms) = option_map RObj (Js.traverse revive_member ms).
Proof. reflexivity. Qed.

Lemma member_plain k v rv :
  revive v = Some rv ->
  String.eqb k "timestamp" || String.eqb k "lastUpdated" = false ->
  revive_member (k, v) = Some (k, rv).
Proof.
  intros Hv Hk. unfold revive_member, reviver. cbn [fst snd].
  now rewrite Hv, Hk.
Qed.

Lemma member_date k d :
  Js.is_instant d = true ->
  k = "timestamp" \/ k = "lastUpdated" ->
  revive_member (k, date_toJSON d) = Some (k, RDate d).
Proof.
  intros Hd Hk. destruct (date_revived k d Hd Hk) as (text & Hr & Hv).
  unfold revive_member. cbn [fst snd]. now rewrite Hr, Hv.
Qed.

Ltac revive_members :=
  rewrite revive_obj; cbn [app optional];
  rewrite ?traverse_cons;
  repeat first
    [ rewrite member_date by (first [assumption | now left | now right])
    | erewrite member_plain by (first [eassumption | reflexivity]) ];
  cbn [Js.traverse option_map].

Lemma message_read_back m :
  message_ok m = true -> reads_as message_toJSON as_message m.
Proof.
  destruct m as [i r c it cf src ts]. unfold message_ok.
  cbn [Message.timestamp Message.confidence]. intros H.
  apply andb_true_iff in H. destruct H as [Hts _].
  unfold reads_as, message_toJSON.
  cbn [Message.id Message.role Message.content Message.intent
       Message.confidence Message.sources Message.timestamp].
  assert (Hsrc : forall l, exists rv,
                   revive (Json.Arr (map Json.Str l)) = Some rv /\
                   as_strings rv = Some l)
    by (intros l; apply (strings_read_back l)).
  destruct it as [it|], cf as [cf|], src as [src|];
    try (destruct (Hsrc src) as (rsrc & Hrsrc & Hdsrc));
    eexists; (split; [revive_members; reflexivity|]);
    cbn [as_message rlookup as_string as_date as_optional option_map
         String.eqb Ascii.eqb Bool.eqb];
    rewrite ?Hdsrc; destruct r; reflexivity.
Qed.

Lemma forall_reads_as {A} (ok : A -> bool) enc (dec : revived -> option A) l :
  (forall a, ok a = true -> reads_as enc dec a) ->
  forallb ok l = true -> Forall (reads_as enc dec) l.
Proof.
  intros H Hl. apply Forall_forall. intros a Ha.
  apply H. rewrite forallb_forall in Hl. now apply Hl.
Qed.

Lemma chat_read_back c :
  chat_ok c = true -> reads_as chat_toJSON as_chat c.
Proof.
  destruct c as [i t ms d]. unfold chat_ok.
  cbn [ChatHistory.lastUpdated ChatHistory.messages]. intros H.
  apply andb_true_iff in H. destruct H as [Hd Hms].
  destruct (traverse_reads_as message_toJSON as_message ms
              (forall_reads_as _ _ _ _ message_read_back Hms))
    as (rvs & Hr & Hdec).
  assert (Hm : revive (Json.Arr (map message_toJSON ms)) = Some (RArr rvs))
    by (cbn [revive]; now rewrite Hr).
  unfold reads_as, chat_toJSON.
  cbn [ChatHistory.id ChatHistory.title ChatHistory.messages
       ChatHistory.lastUpdated].
  eexists. split; [revive_members; reflexivity|].
  cbn [as_chat rlookup as_string as_date String.eqb Ascii.eqb Bool.eqb].
  now rewrite Hdec.
Qed.

Lemma histories_read_back hs :
  well_formed hs = true ->
  exists rv, revive (Json.Arr (map chat_toJSON hs)) = Some rv /\
             as_histories rv = Some hs.
Proof.
  intros H.
  destruct (traverse_reads_as chat_toJSON as_chat hs
              (forall_reads_as _ _ _ _ chat_read_back H))
    as (rvs & Hr & Hdec).
  exists (RArr rvs). split; [|exact Hdec].
  cbn [revive]. now rewrite Hr.
Qed.

(** *** What is written is JSON data the parser reads back *)

Lemma wf_date d : Json.canonical_numbers (date_toJSON d) = true.
Proof. now destruct d. Qed.

Lemma wf_strings l : forallb Json.canonical_numbers (map Json.Str l) = true.
Proof. induction l; [reflexivity | exact IHl]. Qed.

Lemma wf_message m : message_ok m = true -> Json.canonical_numbers (message_toJSON m) = true.
Proof.
  destruct m as [i r c it cf src ts]. unfold message_ok, message_toJSON.
  cbn [Message.id Message.role Message.content Message.intent
       Message.confidence Message.sources Message.timestamp].
  intros H. apply andb_true_iff in H. destruct H as [_ Hcf].
  destruct it, cf, src; cbn [Json.canonical_numbers forallb snd app optional andb];
    rewrite ?wf_strings, ?wf_date, ?Hcf; reflexivity.
Qed.

Lemma wf_map {A} (ok : A -> bool) (enc : A -> Json.value) l :
  (forall a, ok a = true -> Json.canonical_numbers (enc a) = true) ->
  forallb ok l = true -> forallb Json.canonical_numbers (map enc l) = true.
Proof.
  intros H. induction l as [|a l IH]; [reflexivity|].
  cbn [forallb map]. intros Hl. apply andb_true_iff in Hl.
  destruct Hl as [Ha Hl]. now rewrite (H a Ha), (IH Hl).
Qed.

Lemma wf_chat c : chat_ok c = true -> Json.canonical_numbers (chat_toJSON c) = true.
Proof.
  destruct c as [i t ms d]. unfold chat_ok, chat_toJSON.
  cbn [ChatHistory.id ChatHistory.title ChatHistory.messages
       ChatHistory.lastUpdated].
  intros H. apply andb_true_iff in H. destruct H as [_ Hms].
  cbn [Json.canonical_numbers forallb snd andb].
  now rewrite (wf_map _ _ _ wf_message Hms), wf_date.
Qed.

Lemma persist_read_back hs :
  well_formed hs = true -> init (Some (persist hs)) = Loaded hs.
Proof.
  intros H. unfold init, persist.
  assert (T : Js.truthy_string
                (Json.stringify (Json.Arr (map chat_toJSON hs))) = true).
  { destruct (stringify_head (Json.Arr (map chat_toJSON hs)))
      as (c & s & E & _). now rewrite E. }
  rewrite T, parse_stringify
    by (cbn [Json.canonical_numbers]; exact (wf_map _ _ _ wf_chat H)).
  destruct (histories_read_back hs H) as (rv & Hr & Hd).
  now rewrite Hr, Hd.
Qed.

End StoreRoundTrip.

(** * Properties of the session store *)

Section SessionStore.

Import Chat.

#[local] Arguments Js.slice0 : simpl never.
#[local] Arguments Js.Z_toString : simpl never.

Lemma slice0_prefix n s : prefix (Js.slice0 n s) s = true.
Proof.
  revert s; induction n as [|n IH]; intros [|c r]; simpl; trivial.
  rewrite IH. destruct (ascii_dec c c); congruence.
Qed.

Lemma slice0_length n s :
  String.length (Js.slice0 n s) = Nat.min n (String.length s).
Proof.
  revert s; induction n as [|n IH]; intros [|c r]; simpl; trivial.
  now rewrite IH.
Qed.

Lemma truthy_ref_Some cur :
  cur <> "" -> Js.truthy_ref (Some cur) = true.
Proof.
  intros H. unfold Js.truthy_ref, Js.truthy_string.
  destruct (String.eqb_spec cur ""); [contradiction | reflexivity].
Qed.

Lemma filter_all {A} (p : A -> bool) (l : list A) :
  (forall x, In x l -> p x = true) -> filter p l = l.
Proof.
  induction l as [|a l IH]; simpl; intros H; trivial.
  rewrite (H a) by auto. f_equal. apply IH. auto.
Qed.

Lemma state_eta s :
  Build (chatHistories s) (currentChatId s) (messages s) = s.
Proof. now destruct s. Qed.

(** C2.  With no active chat in the render it runs in,
    [updateChatHistory] puts exactly one new chat at the front of the
    histories: its title is the first 50 characters of the user
    message (a prefix of the content, of length 50 or the whole
    content), its messages are the render's buffer followed by the two
    messages of the exchange, and its id becomes the active-chat
    reference.  The histories that were there follow unchanged. *)
Theorem updateChatHistory_creates_chat :
  forall (t_id t_upd : Z) (view s : State) (u a : Message.t),
    currentChatId view = None ->
    let s' := updateChatHistory t_id t_upd view u a s in
    exists newChat,
      chatHistories s' = newChat :: chatHistories s /\
      List.length (chatHistories s') = S (List.length (chatHistories s)) /\
      ChatHistory.title newChat = Js.slice0 50 (Message.content u) /\
      prefix (ChatHistory.title newChat) (Message.content u) = true /\
      String.length (ChatHistory.title newChat)
        = Nat.min 50 (String.length (Message.content u)) /\
      ChatHistory.messages newChat = messages view ++ [u; a] /\
      ChatHistory.lastUpdated newChat = Js.ValidDate t_upd /\
      currentChatId s' = Some (ChatHistory.id newChat) /\
      messages s' = messages s.
Proof.
  intros t_id t_upd view s u a Hnone s'.
  subst s'. unfold updateChatHistory. rewrite Hnone. simpl.
  exists (ChatHistory.Build (Js.Z_toString t_id)
            (Js.slice0 50 (Message.content u))
            (messages view ++ [u; a]) (Js.ValidDate t_upd)).
  simpl. repeat split.
  - apply slice0_prefix.
  - apply slice0_length.
Qed.

Lemma updateChatHistory_creates_chat_witness :
  let s := initial [] in
  let u := Message.Build "1000" user "Hello" None None None
             (Js.ValidDate 1000) in
  let a := Message.Build "1201" assistant "Hi there!"
             (Some "general_query") (Some Js.zero) (Some [])
             (Js.ValidDate 1200) in
  exists newChat,
    chatHistories (updateChatHistory 1200 1200 s u a (addMessage a (addMessage u s)))
      = [newChat] /\
    ChatHistory.title newChat = "Hello" /\
    ChatHistory.messages newChat = [u; a].
Proof.
  intros s u a.
  destruct (updateChatHistory_creates_chat 1200 1200 s
              (addMessage a (addMessage u s)) u a eq_refl)
    as (c & Hh & _ & Ht & _ & _ & Hm & _).
  exists c. split; [exact Hh | split; [exact Ht | exact Hm]].
Defined.

(** C5.  With an active chat (a reference that passes the test
    [if (currentChatId)], that is a non-empty id) naming a chat of the
    histories, [updateChatHistory] keeps the size of the histories,
    keeps every entry with another id as it is and in its place, and
    puts in the place of each entry with that id an entry with the
    same id and the same title, whose messages are the render's
    buffer followed by the two messages of the exchange and whose
    [lastUpdated] is the clock's reading; the buffer and the
    reference stay. *)
Theorem updateChatHistory_active_frame :
  forall (t_id t_upd : Z) (view s : State) (u a : Message.t) (cur : string),
    currentChatId view = Some cur ->
    cur <> "" ->
    (exists c, In c (chatHistories s) /\ ChatHistory.id c = cur) ->
    let s' := updateChatHistory t_id t_upd view u a s in
    List.length (chatHistories s') = List.length (chatHistories s) /\
    currentChatId s' = currentChatId s /\
    messages s' = messages s /\
    (forall i c, nth_error (chatHistories s) i = Some c ->
       ChatHistory.id c <> cur ->
       nth_error (chatHistories s') i = Some c) /\
    (forall i c, nth_error (chatHistories s) i = Some c ->
       ChatHistory.id c = cur ->
       nth_error (chatHistories s') i
         = Some (ChatHistory.Build (ChatHistory.id c) (ChatHistory.title c)
                   (messages view ++ [u; a]) (Js.ValidDate t_upd))) /\
    (forall i c', nth_error (chatHistories s') i = Some c' ->
       exists c, nth_error (chatHistories s) i = Some c /\
         ChatHistory.id c' = ChatHistory.id c /\
         ChatHistory.title c' = ChatHistory.title c /\
         (ChatHistory.id c <> cur -> c' = c) /\
         (ChatHistory.id c = cur ->
            ChatHistory.messages c' = messages view ++ [u; a] /\
            ChatHistory.lastUpdated c' = Js.ValidDate t_upd)) /\
    (exists c, In c (chatHistories s') /\ ChatHistory.id c = cur /\
       ChatHistory.messages c = messages view ++ [u; a] /\
       ChatHistory.lastUpdated c = Js.ValidDate t_upd).
Proof.
  intros t_id t_upd view s u a cur Hcur Hne (c0 & Hin & Hid) s'.
  subst s'. unfold updateChatHistory.
  rewrite Hcur, (truthy_ref_Some cur Hne). simpl.
  split; [apply length_map|].
  split; [reflexivity|]. split; [reflexivity|].
  split; [|split; [|split]].
  - intros i c Hnth Hneq. rewrite nth_error_map, Hnth. simpl.
    destruct (String.eqb_spec (ChatHistory.id c) cur); congruence.
  - intros i c Hnth Heq. rewrite nth_error_map, Hnth. simpl.
    destruct (String.eqb_spec (ChatHistory.id c) cur);
      [reflexivity | contradiction].
  - intros i c' Hnth. rewrite nth_error_map in Hnth.
    destruct (nth_error (chatHistories s) i) as [c|]; [|discriminate Hnth].
    simpl in Hnth. injection Hnth as <-. exists c.
    split; [reflexivity|].
    destruct (String.eqb_spec (ChatHistory.id c) cur) as [E|E]; simpl;
      repeat split; congruence.
  - exists (ChatHistory.Build (ChatHistory.id c0) (ChatHistory.title c0)
              (messages view ++ [u; a]) (Js.ValidDate t_upd)).
    split; [|split; [exact Hid | split; reflexivity]].
    apply in_map_iff. exists c0. split; [|exact Hin].
    destruct (String.eqb_spec (ChatHistory.id c0) cur);
      [reflexivity | contradiction].
Qed.

Lemma updateChatHistory_active_frame_witness :
  let u0 := Message.Build "1000" user "Hello" None None None
              (Js.ValidDate 1000) in
  let a0 := Message.Build "1201" assistant "Hi there!"
              (Some "general_query") (Some Js.zero) (Some [])
              (Js.ValidDate 1200) in
  let c1 := ChatHistory.Build "1200" "Hello" [u0; a0] (Js.ValidDate 1200) in
  let c2 := ChatHistory.Build "900" "Older" [] (Js.ValidDate 900) in
  let s := Build [c1; c2] (Some "1200") [u0; a0] in
  let u := Message.Build "2000" user "More" None None None
             (Js.ValidDate 2000) in
  let a := Message.Build "2101" assistant "Sure" (Some "billing")
             (Some Js.zero) (Some []) (Js.ValidDate 2100) in
  let s' := updateChatHistory 2100 2100 s u a s in
  List.length (chatHistories s') = 2%nat /\
  nth_error (chatHistories s') 0
    = Some (ChatHistory.Build "1200" "Hello" [u0; a0; u; a]
              (Js.ValidDate 2100)) /\
  nth_error (chatHistories s') 1 = Some c2.
Proof.
  intros u0 a0 c1 c2 s u a s'.
  assert (Hne : "1200" <> "") by discriminate.
  assert (Hin : exists c, In c (chatHistories s) /\ ChatHistory.id c = "1200")
    by (exists c1; split; [left; reflexivity | reflexivity]).
  destruct (updateChatHistory_active_frame 2100 2100 s s u a "1200"
              eq_refl Hne Hin) as (Hlen & _ & _ & Hkeep & Hnew & _).
  split; [exact Hlen|]. split.
  - apply (Hnew 0%nat c1); reflexivity.
  - apply (Hkeep 1%nat c2); [reflexivity | discriminate].
Defined.

Import Session.

(** C7.  In a state whose active-chat reference is attached,
    [deleteChat(id)] keeps exactly the chats with another id, in their
    order; when [id] is the active chat the buffer is emptied and the
    reference cleared, as [startNewChat] does, and otherwise both stay;
    when no chat has that id the state does not change at all. *)
Theorem deleteChat_removes_exactly :
  forall (s : State) (chatId : string),
    attached s ->
    let s' := deleteChat s chatId s in
    chatHistories s'
      = filter (fun c => negb (String.eqb (ChatHistory.id c) chatId))
          (chatHistories s) /\
    (forall c, In c (chatHistories s') <->
               In c (chatHistories s) /\ ChatHistory.id c <> chatId) /\
    (currentChatId s = Some chatId ->
       messages s' = [] /\ currentChatId s' = None /\
       s' = startNewChat (setChatHistories (fun _ => chatHistories s') s)) /\
    (currentChatId s <> Some chatId ->
       messages s' = messages s /\ currentChatId s' = currentChatId s) /\
    ((forall c, In c (chatHistories s) -> ChatHistory.id c <> chatId) ->
       s' = s).
Proof.
  intros s chatId Hatt s'.
  assert (Hh : chatHistories s'
               = filter (fun c => negb (String.eqb (ChatHistory.id c) chatId))
                   (chatHistories s)).
  { subst s'. unfold deleteChat.
    destruct (currentChatId s) as [cur|]; [|reflexivity].
    destruct (String.eqb cur chatId); reflexivity. }
  split; [exact Hh|]. split; [|split; [|split]].
  - intros c. rewrite Hh, filter_In.
    destruct (String.eqb_spec (ChatHistory.id c) chatId); simpl;
      intuition congruence.
  - intros Hcur. subst s'. unfold deleteChat. rewrite Hcur, String.eqb_refl.
    repeat split.
  - intros Hcur. subst s'. unfold deleteChat.
    destruct (currentChatId s) as [cur|] eqn:E;
      [|split; [reflexivity | exact E]].
    destruct (String.eqb_spec cur chatId) as [->|_]; [congruence|].
    split; [reflexivity | exact E].
  - intros Hnone. subst s'. unfold deleteChat.
    assert (Hf : filter (fun c => negb (String.eqb (ChatHistory.id c) chatId))
                   (chatHistories s) = chatHistories s).
    { apply filter_all. intros c Hc.
      destruct (String.eqb_spec (ChatHistory.id c) chatId);
        [exfalso; eapply Hnone; eauto | reflexivity]. }
    destruct (currentChatId s) as [cur|] eqn:E.
    + destruct (String.eqb_spec cur chatId) as [->|_].
      * destruct (Hatt chatId E) as (c & Hc & Hid).
        exfalso. exact (Hnone c Hc Hid).
      * unfold setChatHistories. rewrite Hf. apply state_eta.
    + unfold setChatHistories. rewrite Hf. apply state_eta.
Qed.

Lemma deleteChat_removes_exactly_witness :
  let c1 := ChatHistory.Build "1200" "Hello" [] (Js.ValidDate 1200) in
  let c2 := ChatHistory.Build "900" "Older" [] (Js.ValidDate 900) in
  let s := Build [c1; c2] (Some "1200") [] in
  attached s /\
  chatHistories (deleteChat s "1200" s) = [c2] /\
  deleteChat s "777" s = s.
Proof.
  intros c1 c2 s.
  assert (Hatt : attached s).
  { intros cur Hcur. exists c1. split; [left; reflexivity|].
    simpl in Hcur. injection Hcur as <-. reflexivity. }
  split; [exact Hatt|].
  destruct (deleteChat_removes_exactly s "1200" Hatt) as (H1 & _).
  destruct (deleteChat_removes_exactly s "777" Hatt) as (_ & _ & _ & _ & H5).
  split; [exact H1|].
  apply H5. intros c [<-|[<-|[]]]; discriminate.
Defined.

Lemma attached_initial stored : attached (initial stored).
Proof. intros cur H. discriminate H. Qed.

Lemma attached_loadChat s chatId :
  attached s -> attached (loadChat s chatId s).
Proof.
  intros Hs. unfold loadChat.
  destruct (find _ (chatHistories s)) as [chat|] eqn:F; [|exact Hs].
  apply find_some in F. destruct F as [Hin Heq].
  apply String.eqb_eq in Heq.
  intros cur Hcur. simpl in Hcur. injection Hcur as <-.
  exists chat. split; [exact Hin | exact Heq].
Qed.

Lemma attached_deleteChat s chatId :
  attached s -> attached (deleteChat s chatId s).
Proof.
  intros Hs. unfold deleteChat.
  destruct (currentChatId s) as [cur0|] eqn:E.
  - destruct (String.eqb_spec cur0 chatId) as [->|Hne].
    + intros cur H. discriminate H.
    + intros cur H. simpl in H. rewrite E in H. injection H as <-.
      destruct (Hs cur0 E) as (c & Hc & Hid).
      exists c. split; [|exact Hid]. simpl. apply filter_In.
      split; [exact Hc|].
      destruct (String.eqb_spec (ChatHistory.id c) chatId);
        [congruence | reflexivity].
  - intros cur H. simpl in H. congruence.
Qed.

(** [updateChatHistory] keeps the reference attached whatever render it
    was created in. *)
Lemma attached_updateChatHistory t_id t_upd view u a s :
  attached s -> attached (updateChatHistory t_id t_upd view u a s).
Proof.
  intros Hs. unfold updateChatHistory.
  destruct (Js.truthy_ref (currentChatId view)).
  - intros cur H. simpl in H. destruct (Hs cur H) as (c & Hc & Hid).
    simpl. eexists. split; [apply in_map, Hc|]. simpl.
    destruct (match currentChatId view with
              | Some cur0 => String.eqb (ChatHistory.id c) cur0
              | None => false
              end); exact Hid.
  - intros cur H. simpl in H. injection H as <-.
    eexists. split; [left; reflexivity | reflexivity].
Qed.

Lemma attached_exec s op : attached s -> attached (exec s op).
Proof.
  intros Hs. destruct op; simpl.
  - intros cur H. discriminate H.
  - now apply attached_loadChat.
  - now apply attached_deleteChat.
  - intros cur H. discriminate H.
  - exact Hs.
  - now apply attached_updateChatHistory.
Qed.

Lemma attached_execs ops : forall s, attached s -> attached (execs s ops).
Proof.
  induction ops as [|op ops IH]; intros s Hs; simpl; [exact Hs|].
  apply IH, attached_exec, Hs.
Qed.

(** C10.  In every state reached from the initial state of the hook,
    whatever the store held, by any sequence of [startNewChat],
    [loadChat], [deleteChat], [clearHistory], [addMessage] and
    [updateChatHistory], a non-null [currentChatId] is the id of a chat
    of the histories. *)
Theorem active_chat_never_dangling :
  forall (stored : list ChatHistory.t) (ops : list Op) (cur : string),
    let s := execs (initial stored) ops in
    currentChatId s = Some cur ->
    exists c, In c (chatHistories s) /\ ChatHistory.id c = cur.
Proof.
  intros stored ops cur s.
  exact (attached_execs ops (initial stored) (attached_initial stored) cur).
Qed.

Lemma active_chat_never_dangling_witness :
  let c1 := ChatHistory.Build "1200" "Hello" [] (Js.ValidDate 1200) in
  let c2 := ChatHistory.Build "900" "Older" [] (Js.ValidDate 900) in
  exists c, In c [c1] /\ ChatHistory.id c = "1200".
Proof.
  intros c1 c2.
  exact (active_chat_never_dangling [c1; c2]
           [LoadChat "900"; LoadChat "1200"; DeleteChat "900"] "1200"
           eq_refl).
Defined.

(** *** Ids are never empty *)

Lemma Z_toString_nonempty n : Js.Z_toString n <> "".
Proof.
  unfold Js.Z_toString. destruct (n <? 0); [discriminate|].
  pose proof (digits_of_Z_nonempty n).
  destruct (Js.digits_of_Z n); [contradiction | discriminate].
Qed.

Lemma named_exec s op : named s -> named (exec s op).
Proof.
  intros [Hh Hc]. destruct op; cbn [exec].
  - split; [exact Hh | discriminate].
  - unfold loadChat.
    destruct (find _ (chatHistories s)) as [chat|] eqn:F; [|now split].
    apply find_some in F. destruct F as [Hin Heq].
    apply String.eqb_eq in Heq. split; [exact Hh|].
    cbn. intros E. injection E as ->.
    rewrite Forall_forall in Hh. exact (Hh chat Hin Heq).
  - assert (Hf : Forall (fun c => ChatHistory.id c <> "")
                   (filter (fun c => negb (String.eqb (ChatHistory.id c) chatId))
                      (chatHistories s))).
    { rewrite Forall_forall in *. intros c Hin.
      apply filter_In in Hin. now apply Hh. }
    unfold deleteChat.
    destruct (currentChatId s) as [cur|] eqn:E.
    + destruct (String.eqb cur chatId); split; cbn;
        try exact Hf; try discriminate. now rewrite E.
    + split; cbn; [exact Hf | now rewrite E].
  - split; [constructor | discriminate].
  - split; [exact Hh | exact Hc].
  - unfold updateChatHistory.
    destruct (Js.truthy_ref (currentChatId view)).
    + split; [|exact Hc]. cbn. rewrite Forall_forall in *.
      intros c Hin. apply in_map_iff in Hin.
      destruct Hin as (c0 & <- & Hin0).
      destruct (match currentChatId view with
                | Some cur => String.eqb (ChatHistory.id c0) cur
                | None => false
                end); exact (Hh c0 Hin0).
    + split; cbn.
      * constructor; [apply Z_toString_nonempty | exact Hh].
      * intros E. injection E as E. exact (Z_toString_nonempty _ E).
Qed.

Lemma named_initial stored :
  Forall (fun c => ChatHistory.id c <> "") stored -> named (initial stored).
Proof. intros H. split; [exact H | discriminate]. Qed.

Lemma named_execs ops : forall s, named s -> named (execs s ops).
Proof.
  induction ops as [|op ops IH]; intros s Hs; [exact Hs|].
  apply IH, named_exec, Hs.
Qed.

(** From a store whose chats have non-empty ids, as the ids the
    program makes are, every reference to an active chat passes the
    test [if (currentChatId)]. *)
Lemma active_reference_truthy stored ops cur :
  Forall (fun c => ChatHistory.id c <> "") stored ->
  currentChatId (execs (initial stored) ops) = Some cur ->
  cur <> "".
Proof.
  intros Hs Hc ->.
  destruct (named_execs ops _ (named_initial stored Hs)) as [_ N].
  exact (N Hc).
Qed.

End SessionStore.

(** * Properties of the send-message handler *)

Section SendMessage.

Import App.

#[local] Arguments Js.Z_toString : simpl never.
#[local] Arguments Js.trim : simpl never.

Lemma filter_none {A} (p : A -> bool) (l : list A) :
  (forall x, In x l -> p x = true) -> filter p l = l.
Proof.
  induction l as [|a l IH]; simpl; intros H; trivial.
  rewrite (H a) by auto. f_equal. apply IH. auto.
Qed.

(** The failure branch writes the buffer, the toast and the busy flag
    only, whatever happened while the call was pending. *)
Lemma resume_failure_keeps_histories clock x e s :
  Chat.chatHistories (chat (resume clock x (inl e) s))
    = Chat.chatHistories (chat s) /\
  Chat.currentChatId (chat (resume clock x (inl e) s))
    = Chat.currentChatId (chat s).
Proof. split; reflexivity. Qed.

Lemma filter_same_all {A} (p : A -> bool) (l : list A) :
  filter p l = l -> forall x, In x l -> p x = true.
Proof.
  intros H x Hx. rewrite <- H in Hx. apply filter_In in Hx. tauto.
Qed.

(** C1, what the code does.  When the call of an accepted
    [sendMessage] fails, the failure branch leaves of the buffer of
    before the attempt every message but those that carry the id
    given to the new user message (the decimal form of the clock's
    reading): the buffer is the one of before exactly when no
    message of it carries that id.  The histories and the
    active-chat reference are those of before, the busy flag is
    released and the notice shown. *)
Theorem failed_send_rolls_back :
  forall (clock clock' : nat -> Z) (s s1 : State) (x : Exchange) (e : Exn),
    sendMessage clock s s = (s1, Some x) ->
    let s2 := resume clock' x (inl e) s1 in
    Message.id (userMessage x) = Js.Z_toString (clock 0%nat) /\
    Chat.messages (chat s1) = Chat.messages (chat s) ++ [userMessage x] /\
    Chat.messages (chat s2)
      = filter (fun m => negb (String.eqb (Message.id m)
                                 (Js.Z_toString (clock 0%nat))))
          (Chat.messages (chat s)) /\
    (Chat.messages (chat s2) = Chat.messages (chat s) <->
       forall m, In m (Chat.messages (chat s)) ->
                 Message.id m <> Js.Z_toString (clock 0%nat)) /\
    Chat.chatHistories (chat s2) = Chat.chatHistories (chat s) /\
    Chat.currentChatId (chat s2) = Chat.currentChatId (chat s) /\
    isLoading s2 = false /\
    showToast s2
      = Some "Failed to get response. Please check your connection.".
Proof.
  intros clock clock' s s1 x e Hsend s2. subst s2.
  unfold sendMessage in Hsend.
  destruct (rejected s); [discriminate|].
  injection Hsend as <- <-. simpl.
  assert (F : filter
                (fun msg => negb (String.eqb (Message.id msg)
                                    (Js.Z_toString (clock 0%nat))))
                (Chat.messages (chat s) ++
                 [Message.Build (Js.Z_toString (clock 0%nat)) user
                    (inputValue s) None None None
                    (Js.ValidDate (clock 1%nat))])
              = filter
                  (fun m => negb (String.eqb (Message.id m)
                                    (Js.Z_toString (clock 0%nat))))
                  (Chat.messages (chat s))).
  { rewrite filter_app. simpl. rewrite String.eqb_refl. simpl.
    apply app_nil_r. }
  split; [reflexivity|]. split; [reflexivity|].
  split; [exact F|]. split; [|repeat split].
  rewrite F. split.
  - intros H m Hm E.
    pose proof (filter_same_all _ _ H m Hm) as P. cbv beta in P.
    rewrite E, String.eqb_refl in P. discriminate P.
  - intros Hfresh. apply filter_none.
    intros m Hm. specialize (Hfresh m Hm).
    destruct (String.eqb_spec (Message.id m) (Js.Z_toString (clock 0%nat)));
      [contradiction | reflexivity].
Qed.

Lemma failed_send_rolls_back_witness :
  let u0 := Message.Build "1000" user "Hello" None None None
              (Js.ValidDate 1000) in
  let s := Build (Chat.Build [] None [u0]) "again" false None
             "http://localhost:8000/api/ask" "user_1" in
  match sendMessage (fun _ => 5000) s s with
  | (s1, Some x) =>
      Chat.messages (chat (resume (fun _ => 5001) x (inl FetchFailed) s1))
        = [u0]
  | _ => False
  end.
Proof.
  intros u0 s.
  destruct (sendMessage (fun _ => 5000) s s) as [s1 [x|]] eqn:E;
    [|vm_compute in E; discriminate E].
  destruct (failed_send_rolls_back (fun _ => 5000) (fun _ => 5001)
              s s1 x FetchFailed E) as (_ & _ & _ & Hiff & _).
  apply Hiff. intros m [<-|[]]. vm_compute. discriminate.
Defined.

(** C1 as stated fails, against the intent of the branch, which is
    to remove the user message: a first exchange answered at clock
    reading 1000 leaves an assistant message with id 1001 in the
    buffer; a second query sent at reading 1001 gets the same id,
    and when its call fails the filter removes both. *)
Lemma failed_send_rollback_not_exact :
  let data := ApiResponse.Build "general_query" Js.zero "Hi there!" []
                None "2024-01-01T00:00:00.000Z" in
  let w := run (mount [] "http://localhost:8000/api/ask" "user_1")
             [Typed "Hello"; Send (fun _ => 1000);
              Settled 0 (inr data) (fun _ => 1000); Typed "again"] in
  match sendMessage (fun _ => 1001) (app w) (app w) with
  | (s1, Some x) =>
      Chat.messages (chat (resume (fun _ => 1002) x (inl FetchFailed) s1))
        <> Chat.messages (chat (app w))
  | _ => False
  end.
Proof. vm_compute. discriminate. Qed.

Lemma rejected_when_loading s : isLoading s = true -> rejected s = true.
Proof. intros H. unfold rejected. rewrite H. apply orb_true_r. Qed.

Lemma flight_ok_step w e : flight_ok w -> flight_ok (step w e).
Proof.
  unfold flight_ok. intros H. destruct e; simpl; trivial.
  - unfold sendMessage.
    destruct (rejected (app w)) eqn:R; simpl; [exact H|].
    unfold rejected in R. apply orb_false_elim in R. destruct R as [_ R].
    rewrite R in H. rewrite length_app, H. reflexivity.
  - destruct (nth_error (inflight w) i) as [x|] eqn:N; [|exact H].
    simpl. assert (Hi : (i < List.length (inflight w))%nat)
      by (apply nth_error_Some; congruence).
    destruct (isLoading (app w)); [|lia].
    destruct (inflight w) as [|y [|z l]]; simpl in *; try lia.
    assert (i = 0%nat) by lia. subst i. reflexivity.
Qed.

Lemma flight_ok_run es : forall w, flight_ok w -> flight_ok (run w es).
Proof.
  induction es as [|e es IH]; intros w H; simpl; [exact H|].
  apply IH, flight_ok_step, H.
Qed.

(** C9.  When the busy flag is set or the input trims to the empty
    string, [sendMessage] returns at its guard: it starts no exchange
    and the state, the buffer and the histories with it, is what it
    was.  A second submit right after a first changes nothing, and in
    every run from the mounted component at most one exchange is in
    flight. *)
Theorem sendMessage_guard_single_flight :
  forall (w : World) (clock : nat -> Z),
    (isLoading (app w) = true \/ Js.trim (inputValue (app w)) = "" ->
       sendMessage clock (app w) (app w) = (app w, None) /\
       step w (Send clock) = w) /\
    (forall clock', step (step w (Send clock)) (Send clock')
                    = step w (Send clock)) /\
    (forall stored url uid es,
       w = run (mount stored url uid) es ->
       (List.length (inflight w) <= 1)%nat).
Proof.
  intros w clock.
  assert (Hrej : forall c v, rejected v = true ->
                   sendMessage c v v = (v, None)).
  { intros c v R. unfold sendMessage. now rewrite R. }
  split; [|split].
  - intros Hg.
    assert (R : rejected (app w) = true).
    { destruct Hg as [L|T]; [now apply rejected_when_loading|].
      unfold rejected. now rewrite T. }
    split; [now apply Hrej|].
    simpl. rewrite (Hrej clock _ R). now destruct w.
  - intros clock'.
    assert (Hstep : forall c v, rejected (app v) = true ->
                      step v (Send c) = v).
    { intros c v R. simpl. rewrite (Hrej c _ R). now destruct v. }
    destruct (rejected (app w)) eqn:R.
    + rewrite (Hstep clock w R). now apply Hstep.
    + apply Hstep, rejected_when_loading.
      simpl. unfold sendMessage. rewrite R. reflexivity.
  - intros stored url uid es ->.
    assert (H : flight_ok (run (mount stored url uid) es))
      by (apply flight_ok_run; reflexivity).
    unfold flight_ok in H. rewrite H.
    destruct (isLoading _); lia.
Qed.

Lemma sendMessage_guard_single_flight_witness :
  let w := run (mount [] "http://localhost:8000/api/ask" "user_1")
             [Typed "Hello"; Send (fun _ => 1000); Typed "Hello"] in
  isLoading (app w) = true /\
  step w (Send (fun _ => 1001)) = w /\
  List.length (Chat.messages (chat (app (step w (Send (fun _ => 1001))))))
    = 1%nat.
Proof.
  intros w.
  assert (L : isLoading (app w) = true) by reflexivity.
  split; [exact L|].
  destruct (sendMessage_guard_single_flight w (fun _ => 1001))
    as (Hg & _ & _).
  destruct (Hg (or_introl L)) as [_ Hstep].
  split; [exact Hstep|]. rewrite Hstep. reflexivity.
Defined.

(** The active-chat reference stays attached in every run of the
    component, the calls a resumed handler makes from an old render
    included. *)
Lemma attached_step w e :
  Session.attached (chat (app w)) -> Session.attached (chat (app (step w e))).
Proof.
  intros H. destruct e; cbn [step]; try exact H.
  - unfold sendMessage. destruct (rejected (app w)); exact H.
  - destruct (nth_error (inflight w) i) as [x|]; [|exact H].
    destruct outcome as [err|data]; cbn; [exact H|].
    apply attached_updateChatHistory. exact H.
  - intros cur E. discriminate E.
  - cbn. now apply attached_loadChat.
  - cbn. now apply attached_deleteChat.
  - intros cur E. discriminate E.
Qed.

Lemma attached_run es : forall stored url uid,
  Session.attached (chat (app (run (mount stored url uid) es))).
Proof.
  intros stored url uid. unfold run.
  generalize (mount stored url uid),
    (attached_initial stored : Session.attached
                                 (chat (app (mount stored url uid)))).
  induction es as [|e es IH]; intros w Hw; [exact Hw|].
  apply IH, attached_step, Hw.
Qed.

(** The exchange of the specification's scenario, run on the model:
    nothing stored, the user sends Hello, the server answers with a
    [response] and no other field.  The assistant message carries the
    defaults and one chat titled Hello is created and made active. *)
Example hello_scenario :
  let served := fun _ : Api.Request =>
    Some (Api.Received 200
            (Json.stringify (Json.Obj [("response", Json.Str "Hi there!")]))) in
  let w1 := run (mount [] "http://localhost:8000/api/ask" "user_1")
              [Typed "Hello"; Send (fun _ => 1700000000000)] in
  exists x o data u a,
    inflight w1 = [x] /\
    Api.sendQueryToAPI served 1700000000900 (url x) (user_id x) (query x)
      = inr o /\
    Api.typed o = Some data /\
    let w2 := step w1 (Settled 0 (inr data) (fun _ => 1700000000900)) in
    Chat.messages (chat (app w2)) = [u; a] /\
    Message.content u = "Hello" /\
    Message.content a = "Hi there!" /\
    Message.intent a = Some "general_query" /\
    Message.confidence a = Some Js.zero /\
    Message.sources a = Some [] /\
    Chat.chatHistories (chat (app w2))
      = [ChatHistory.Build "1700000000900" "Hello" [u; a]
           (Js.ValidDate 1700000000900)] /\
    Chat.currentChatId (chat (app w2)) = Some "1700000000900" /\
    isLoading (app w2) = false /\ inflight w2 = [].
Proof.
  intros served w1. do 5 eexists.
  split; [vm_compute; reflexivity|].
  split; [vm_compute; reflexivity|].
  split; [vm_compute; reflexivity|].
  vm_compute. repeat split.
Qed.

End SendMessage.

(** * Properties of the query client *)

Section QueryClient.

Import Api.

#[local] Arguments Js.Z_toString : simpl never.
#[local] Arguments IsoDate.toISOString : simpl never.
#[local] Arguments Json.parse : simpl never.
#[local] Arguments Json.stringify : simpl never.

Lemma lookup_app k a b :
  Json.lookup k (a ++ b)
    = match Json.lookup k b with
      | Some v => Some v
      | None => Json.lookup k a
      end.
Proof.
  induction a as [|[k0 v0] a IH]; simpl.
  - now destruct (Json.lookup k b).
  - rewrite IH. destruct (Json.lookup k b); trivial.
Qed.

Lemma lookup_filled now data f :
  Json.lookup (name f) (map (filled now data) returned)
    = Some (Json.or_else (get f data) (default now f)).
Proof. destruct f; reflexivity. Qed.



Lemma or_else_falsy a b : Json.truthy a = false -> Json.or_else a b = b.
Proof. destruct a as [v|]; simpl; [|reflexivity]. intros ->. reflexivity. Qed.




Lemma failure_branch fetch now apiUrl userId query r :
  fetch (request apiUrl userId query) = Some r ->
  ok r = false ->
  errorData r <> Json.Null ->
  sendQueryToAPI fetch now apiUrl userId query
    = match Json.to_string
              (Json.or_else (detail (errorData r))
                 (Json.Str (generic r))) with
      | Some message => inl (Error message)
      | None => inl TypeError
      end.
Proof.
  intros Hf Hok Hn. unfold sendQueryToAPI. rewrite Hf, Hok.
  cbn [negb]. destruct (errorData r); try reflexivity. contradiction.
Qed.

(** The call ends in one of two ways: an exception, or an object with
    all six fields. *)
Lemma no_partial_result fetch now apiUrl userId query :
  (exists e, sendQueryToAPI fetch now apiUrl userId query = inl e) \/
  (exists members,
     sendQueryToAPI fetch now apiUrl userId query = inr (Json.Obj members) /\
     populated members).
Proof.
  unfold sendQueryToAPI.
  destruct (fetch _) as [r|]; [|left; eexists; reflexivity].
  destruct (ok r); cbn [negb].
  - destruct (Json.parse (body r)) as [data|];
      [|left; eexists; reflexivity].
    assert (P : populated (Json.spread data ++ map (filled now data) returned)).
    { intros f. eexists. rewrite lookup_app, lookup_filled. reflexivity. }
    destruct data; try (right; eexists; split; [reflexivity | exact P]).
    left; eexists; reflexivity.
  - destruct (errorData r); try (left; eexists; reflexivity);
    match goal with
    | |- context [Json.to_string ?v] =>
        destruct (Json.to_string v); left; eexists; reflexivity
    end.
Qed.

Lemma truthy_nonempty_string s :
  s <> "" -> Json.truthy (Some (Json.Str s)) = true.
Proof.
  intros H. simpl. unfold Js.truthy_string.
  destruct (String.eqb_spec s ""); [contradiction | reflexivity].
Qed.

Lemma to_string_strings ss :
  Json.to_string (Json.Arr (map Json.Str ss)) = Some (Json.join "," ss).
Proof.
  cbn [Json.to_string].
  enough (H : forall first,
            (fix elements (vs : list Json.value) (first : bool)
               : option string :=
               match vs with
               | [] => Some ""
               | x :: r =>
                   match (match x with
                          | Json.Null => Some ""
                          | _ => Json.to_string x
                          end), elements r false with
                   | Some a, Some b =>
                       Some ((if first then a else String "," a) ++ b)%string
                   | _, _ => None
                   end
               end) (map Json.Str ss) first
            = Some (if first then Json.join "," ss
                    else Json.join_tail "," ss)) by exact (H true).
  induction ss as [|s ss IH]; intros first; [now destruct first|].
  cbn [map Json.to_string]. rewrite (IH false).
  destruct first; reflexivity.
Qed.

(** C6, as the code has it.  For a response with a non-success
    status whose body is not the JSON value [null], [sendQueryToAPI]
    throws what [new Error(errorData.detail || generic)] gives, where
    the generic message is ['API request failed: ' + status].
    - A [detail] that is a non-empty string: an [Error] with that
      message.
    - [true]: an [Error] with the message [true].
    - A number other than zero: an [Error] whose message is the text
      of the number.
    - An object: an [Error] with the message [[object Object]]; but
      when the object has a member named [toString] (which JSON
      cannot make callable) the conversion to a string throws, and
      a [TypeError] comes out.
    - An array: an [Error] whose message is the conversions of its
      elements joined by commas ([null] counts as empty), so the
      strings themselves for an array of strings and the empty
      message for the empty array; or a [TypeError] when the
      conversion of an element throws.
    - No [detail], or a falsy one ([null], [false], zero, the empty
      string), in a body that is JSON; or a body that is not JSON:
      an [Error] with the generic message.
    The numbers are those the program holds exactly ([Durable.exact]),
    and the body is taken as not JSON when [Json.parse] gives [None]
    for a text in which [Scope.narrow] holds.  Whatever the response,
    the caller gets an exception or an object with all six fields,
    never less. *)
Theorem sendQueryToAPI_failure_message :
  forall (fetch : Request -> option Response) (now : Z)
         (apiUrl userId query : string) (r : Response),
    fetch (request apiUrl userId query) = Some r ->
    ok r = false ->
    errorData r <> Json.Null ->
    let result := sendQueryToAPI fetch now apiUrl userId query in
    let generic :=
      inl (Error ("API request failed: " ++ Js.Z_toString (status r))%string)
      : Exn + Json.value in
    (forall s, detail (errorData r) = Some (Json.Str s) -> s <> "" ->
       result = inl (Error s)) /\
    (detail (errorData r) = Some (Json.Bool true) ->
       result = inl (Error "true")) /\
    (forall n, detail (errorData r) = Some (Json.Num n) ->
       Durable.exact n = true -> Js.digits n <> [] ->
       result = inl (Error (Json.number_toString n))) /\
    (forall members, detail (errorData r) = Some (Json.Obj members) ->
       (Json.lookup "toString" members = None ->
          result = inl (Error "[object Object]")) /\
       (Json.lookup "toString" members <> None ->
          result = inl TypeError)) /\
    (forall ss, detail (errorData r) = Some (Json.Arr (map Json.Str ss)) ->
       result = inl (Error (Json.join "," ss))) /\
    (forall d, detail (errorData r) = Some d ->
       Json.truthy (Some d) = true -> Scope.exact_numbers d = true ->
       result = match Json.to_string d with
                | Some m => inl (Error m)
                | None => inl TypeError
                end) /\
    (forall v, Json.parse (body r) = Some v ->
       Json.truthy (detail v) = false -> result = generic) /\
    (Json.parse (body r) = None -> Scope.narrow (body r) = true ->
       result = generic) /\
    (exists e, result = inl e) /\
    (forall fetch' now' apiUrl' userId' query',
       (exists e,
          sendQueryToAPI fetch' now' apiUrl' userId' query' = inl e) \/
       (exists members,
          sendQueryToAPI fetch' now' apiUrl' userId' query'
            = inr (Json.Obj members) /\ populated members)).
Proof.
  intros fetch now apiUrl userId query r Hf Hok Hn result generic.
  subst result generic. rewrite (failure_branch _ _ _ _ _ _ Hf Hok Hn).
  assert (T : forall d, detail (errorData r) = Some d ->
            Json.truthy (Some d) = true ->
            match Json.to_string
                    (Json.or_else (detail (errorData r))
                       (Json.Str (generic r))) with
            | Some message => inl (Error message)
            | None => inl TypeError
            end
            = match Json.to_string d with
              | Some m => inl (Error m)
              | None => (inl TypeError : Exn + Json.value)
              end).
  { intros d Hd Ht. rewrite Hd. unfold Json.or_else. now rewrite Ht. }
  assert (G : Json.truthy (detail (errorData r)) = false ->
            match Json.to_string
                    (Json.or_else (detail (errorData r))
                       (Json.Str (generic r))) with
            | Some message => inl (Error message)
            | None => inl TypeError
            end
            = (inl (Error ("API request failed: "
                           ++ Js.Z_toString (status r))%string)
               : Exn + Json.value)).
  { intros Ht. rewrite (or_else_falsy _ _ Ht). reflexivity. }
  split; [|split; [|split; [|split; [|split; [|split;
    [|split; [|split; [|split]]]]]]]].
  - intros s Hd Hs.
    rewrite (T _ Hd (truthy_nonempty_string s Hs)). reflexivity.
  - intros Hd. rewrite (T _ Hd eq_refl). reflexivity.
  - intros n Hd _ Hz. rewrite (T _ Hd); [reflexivity|].
    simpl. unfold Js.truthy_number. destruct (Js.digits n);
      [contradiction | reflexivity].
  - intros members Hd. rewrite (T _ Hd eq_refl). cbn [Json.to_string].
    split.
    + intros ->. reflexivity.
    + intros Hl. destruct (Json.lookup "toString" members);
        [reflexivity | contradiction].
  - intros ss Hd. rewrite (T _ Hd eq_refl).
    now rewrite to_string_strings.
  - intros d Hd Ht _. exact (T _ Hd Ht).
  - intros v Hp Ht. apply G. unfold errorData. now rewrite Hp.
  - intros Hp _. apply G. unfold errorData. now rewrite Hp.
  - destruct (Json.to_string _); eexists; reflexivity.
  - intros. apply no_partial_result.
Qed.

Lemma sendQueryToAPI_failure_message_witness :
  let served := fun text (_ : Request) => Some (Received 500 text) in
  sendQueryToAPI
    (served (Json.stringify (Json.Obj [("detail", Json.Str "Model offline")])))
    0 "http://localhost:8000/api/ask" "user_1" "Hello"
    = inl (Error "Model offline") /\
  sendQueryToAPI (served "<html>Bad Gateway</html>")
    0 "http://localhost:8000/api/ask" "user_1" "Hello"
    = inl (Error "API request failed: 500") /\
  sendQueryToAPI
    (served (Json.stringify
               (Json.Obj [("detail",
                           Json.Obj [("toString", Json.Num Js.zero)])])))
    0 "http://localhost:8000/api/ask" "user_1" "Hello"
    = inl TypeError.
Proof.
  intros served. split; [|split].
  - set (text := Json.stringify (Json.Obj [("detail", Json.Str "Model offline")])).
    assert (Hn : errorData (Received 500 text) <> Json.Null)
      by (vm_compute; discriminate).
    destruct (sendQueryToAPI_failure_message (served text) 0
                "http://localhost:8000/api/ask" "user_1" "Hello"
                (Received 500 text) eq_refl eq_refl Hn) as (H & _).
    apply (H "Model offline"); [vm_compute; reflexivity | discriminate].
  - set (text := "<html>Bad Gateway</html>").
    assert (Hn : errorData (Received 500 text) <> Json.Null)
      by (vm_compute; discriminate).
    destruct (sendQueryToAPI_failure_message (served text) 0
                "http://localhost:8000/api/ask" "user_1" "Hello"
                (Received 500 text) eq_refl eq_refl Hn)
      as (_ & _ & _ & _ & _ & _ & _ & H & _).
    apply H; vm_compute; reflexivity.
  - set (text := Json.stringify
                   (Json.Obj [("detail",
                               Json.Obj [("toString", Json.Num Js.zero)])])).
    assert (Hn : errorData (Received 500 text) <> Json.Null)
      by (vm_compute; discriminate).
    destruct (sendQueryToAPI_failure_message (served text) 0
                "http://localhost:8000/api/ask" "user_1" "Hello"
                (Received 500 text) eq_refl eq_refl Hn)
      as (_ & _ & _ & H & _).
    apply (H [("toString", Json.Num Js.zero)]);
      [vm_compute; reflexivity | vm_compute; discriminate].
Defined.

(** C6 as stated fails.  An error response whose body is [null] makes
    the read of [errorData.detail] throw: the exception is a
    [TypeError], its message is neither a detail nor the status-coded
    one.  A body whose [detail] is the empty string gets the
    status-coded message although it contains a detail.  And a body
    whose [detail] is an object with a member named [toString] ends
    in a [TypeError] as well. *)
Lemma sendQueryToAPI_null_error_body :
  let served := fun text (_ : Request) => Some (Received 500 text) in
  let empty := Json.Obj [("detail", Json.Str "")] in
  let odd := Json.Obj [("detail", Json.Obj [("toString", Json.Num Js.zero)])] in
  ok (Received 500 "null") = false /\
  sendQueryToAPI (served "null") 0 "u" "me" "Hello" = inl TypeError /\
  (forall m, sendQueryToAPI (served "null") 0 "u" "me" "Hello"
             <> inl (Error m)) /\
  detail (errorData (Received 500 (Json.stringify empty)))
    = Some (Json.Str "") /\
  sendQueryToAPI (served (Json.stringify empty)) 0 "u" "me" "Hello"
    = inl (Error "API request failed: 500") /\
  sendQueryToAPI (served (Json.stringify odd)) 0 "u" "me" "Hello"
    = inl TypeError.
Proof.
  intros served empty odd.
  split; [reflexivity|].
  split; [vm_compute; reflexivity|].
  split; [intros m; vm_compute; discriminate|].
  split; [vm_compute; reflexivity|].
  split; vm_compute; reflexivity.
Qed.

End QueryClient.

(** * Properties of the durable store *)

Section DurableStore.

Import Store.




(** C8.  For histories holding values of the data model (every
    [timestamp] and [lastUpdated] an instant, every number in its one
    representation), the text the hook stores, read back by the
    initialiser with its reviver, gives the same histories: ids,
    titles, roles, contents, intents, confidences and sources are
    identical and every [timestamp] and [lastUpdated] is the same time
    value. *)
Theorem histories_round_trip :
  forall hs : list ChatHistory.t,
    well_formed hs = true ->
    init (Some (persist hs)) = Loaded hs.
Proof. exact persist_read_back. Qed.

Lemma histories_round_trip_witness :
  let u := Message.Build "1700000000000" user "Hello" None None None
             (Js.ValidDate 1700000000000) in
  let a := Message.Build "1700000000901" assistant "Hi there!"
             (Some "general_query")
             (Some (Js.Number false [Js.d8; Js.d7] 0))
             (Some ["kb/greeting"]) (Js.ValidDate 1700000000900) in
  let hs := [ChatHistory.Build "1700000000900" "Hello" [u; a]
               (Js.ValidDate 1700000000900);
             ChatHistory.Build "-1" "Before the epoch" []
               (Js.ValidDate (-62198755200000))] in
  well_formed hs = true /\ init (Some (persist hs)) = Loaded hs.
Proof.
  intros u a hs.
  assert (H : well_formed hs = true) by reflexivity.
  split; [exact H | exact (histories_round_trip hs H)].
Defined.

(** Outside the data model the round trip is not the identity: the
    Invalid Date is written as [null] and read back as the epoch. *)
Example invalid_date_read_back_as_epoch :
  let c := fun d => [ChatHistory.Build "900" "Older" [] d] in
  init (Some (persist (c Js.InvalidDate))) = Loaded (c (Js.ValidDate 0)).
Proof. vm_compute. reflexivity. Qed.

End DurableStore.

(** * Further properties of the hook's operations *)

Section HookOperations.

Import Chat Session.

#[local] Arguments Js.slice0 : simpl never.
#[local] Arguments Js.Z_toString : simpl never.

Lemma copyMessage_same msg : copyMessage msg = msg.
Proof. now destruct msg. Qed.

Lemma map_copyMessage l : map copyMessage l = l.
Proof.
  induction l as [|m l IH]; simpl; [reflexivity|].
  now rewrite copyMessage_same, IH.
Qed.

Lemma find_unknown chatId l :
  (forall c, In c l -> ChatHistory.id c <> chatId) ->
  find (fun c => String.eqb (ChatHistory.id c) chatId) l = None.
Proof.
  intros H.
  destruct (find _ l) as [c|] eqn:F; [|reflexivity].
  apply find_some in F. destruct F as [Hin Heq].
  apply String.eqb_eq in Heq. now elim (H c Hin).
Qed.

(** With distinct ids, the chat found for the id of a chat of the
    list is that chat. *)
Lemma find_distinct l : forall i c,
  NoDup (map ChatHistory.id l) ->
  nth_error l i = Some c ->
  find (fun c' => String.eqb (ChatHistory.id c') (ChatHistory.id c)) l
    = Some c.
Proof.
  induction l as [|c0 l IH]; intros i c Hnd Hn.
  - destruct i; discriminate Hn.
  - cbn [map] in Hnd. inversion Hnd as [|x xs Hnotin Hnd']; subst.
    destruct i as [|i]; cbn [nth_error] in Hn.
    + injection Hn as ->. cbn [find]. now rewrite String.eqb_refl.
    + cbn [find].
      destruct (String.eqb_spec (ChatHistory.id c0) (ChatHistory.id c))
        as [E|_].
      * exfalso. apply Hnotin. rewrite E. apply in_map.
        eapply nth_error_In, Hn.
      * eapply IH; eassumption.
Qed.

Lemma filter_twice {A} (p : A -> bool) (l : list A) :
  filter p (filter p l) = filter p l.
Proof.
  induction l as [|a l IH]; simpl; [reflexivity|].
  destruct (p a) eqn:E; simpl; [rewrite E; f_equal|]; exact IH.
Qed.

Lemma distinct_filter (p : ChatHistory.t -> bool) l :
  NoDup (map ChatHistory.id l) ->
  NoDup (map ChatHistory.id (filter p l)).
Proof.
  induction l as [|c l IH]; cbn; intros Hnd; [constructor|].
  inversion Hnd as [|x xs Hnotin Hnd']; subst.
  destruct (p c); cbn; [|now apply IH].
  constructor; [|now apply IH].
  intros Hin. apply Hnotin. apply in_map_iff in Hin.
  destruct Hin as (c' & E & Hc'). apply filter_In in Hc'.
  rewrite <- E. apply in_map. tauto.
Qed.

Lemma execs_app ops1 ops2 s :
  execs s (ops1 ++ ops2) = execs (execs s ops1) ops2.
Proof. apply fold_left_app. Qed.

(** X1.  [addMessage] called for each of a list of messages in turn
    leaves the buffer it started from followed by those messages in
    the order of the calls, so the buffer grows by the number of
    calls; the histories and the active-chat reference are not
    touched. *)
Theorem addMessage_appends_in_call_order :
  forall (ms : list Message.t) (s : State),
    let s' := execs s (map AddMessage ms) in
    messages s' = messages s ++ ms /\
    List.length (messages s')
      = (List.length (messages s) + List.length ms)%nat /\
    chatHistories s' = chatHistories s /\
    currentChatId s' = currentChatId s.
Proof.
  intros ms s. cbn zeta.
  assert (H : messages (execs s (map AddMessage ms)) = messages s ++ ms /\
              chatHistories (execs s (map AddMessage ms)) = chatHistories s /\
              currentChatId (execs s (map AddMessage ms)) = currentChatId s).
  { revert s. induction ms as [|m ms IH]; intros s.
    - cbn. now rewrite app_nil_r.
    - cbn [map execs fold_left].
      destruct (IH (exec s (AddMessage m))) as (Hm & Hh & Hc).
      unfold execs in *. rewrite Hm, Hh, Hc. cbn.
      now rewrite <- app_assoc. }
  destruct H as (Hm & Hh & Hc).
  rewrite Hm, length_app. repeat split; assumption.
Qed.

(** X2.  [loadChat] with an id no chat of the rendered histories has
    leaves the state as it is: buffer, reference and histories; with
    any id it leaves the histories as they are. *)
Theorem loadChat_unknown_id_changes_nothing :
  forall (view s : State) (chatId : string),
    (forall c, In c (chatHistories view) -> ChatHistory.id c <> chatId) ->
    loadChat view chatId s = s /\
    (forall other,
       chatHistories (loadChat view other s) = chatHistories s).
Proof.
  intros view s chatId H. split.
  - unfold loadChat. now rewrite (find_unknown chatId _ H).
  - intros other. unfold loadChat.
    destruct (find _ (chatHistories view)); reflexivity.
Qed.

Lemma loadChat_unknown_id_changes_nothing_witness :
  let c1 := ChatHistory.Build "1200" "Hello" [] (Js.ValidDate 1200) in
  let s := Build [c1] (Some "1200") [] in
  loadChat s "777" s = s.
Proof.
  intros c1 s.
  refine (proj1 (loadChat_unknown_id_changes_nothing s s "777" _)).
  intros c [<-|[]]. discriminate.
Defined.

(** X3.  When no two chats have the same id, the click on a row of
    the side bar opens the chat the row shows: the buffer becomes the
    messages of that chat, the reference its id, the histories stay,
    and in the list drawn next that row and no other is
    highlighted. *)
Theorem click_opens_the_chat_of_the_row :
  forall (s : State) (i : nat) (c : ChatHistory.t),
    Sidebar.distinct s ->
    nth_error (chatHistories s) i = Some c ->
    let s' := Sidebar.click s i in
    messages s' = ChatHistory.messages c /\
    currentChatId s' = Some (ChatHistory.id c) /\
    chatHistories s' = chatHistories s /\
    (forall j r,
       nth_error (Sidebar.rows (chatHistories s') (currentChatId s')) j
         = Some r ->
       (Sidebar.highlighted r = true <-> j = i)).
Proof.
  intros s i c Hnd Hn s'. subst s'. unfold Sidebar.click.
  rewrite Hn. unfold loadChat.
  rewrite (find_distinct _ i c Hnd Hn). cbn.
  rewrite map_copyMessage. repeat split.
  - intros Hh. unfold Sidebar.rows in H.
    rewrite nth_error_map in H.
    destruct (nth_error (chatHistories s) j) as [cj|] eqn:Hj;
      [|discriminate H].
    injection H as <-. cbn in Hh. apply String.eqb_eq in Hh.
    unfold Sidebar.distinct in Hnd.
    rewrite NoDup_nth_error in Hnd. symmetry. apply Hnd.
    + rewrite length_map. apply nth_error_Some. congruence.
    + rewrite !nth_error_map, Hn, Hj. cbn. now rewrite Hh.
  - intros ->. unfold Sidebar.rows in H.
    rewrite nth_error_map, Hn in H. injection H as <-.
    cbn. apply String.eqb_refl.
Qed.

Lemma click_opens_the_chat_of_the_row_witness :
  let u := Message.Build "1000" user "Hello" None None None
             (Js.ValidDate 1000) in
  let c1 := ChatHistory.Build "1200" "Hello" [u] (Js.ValidDate 1200) in
  let c2 := ChatHistory.Build "900" "Older" [] (Js.ValidDate 900) in
  let s := Build [c1; c2] (Some "900") [] in
  messages (Sidebar.click s 0) = [u] /\
  currentChatId (Sidebar.click s 0) = Some "1200".
Proof.
  intros u c1 c2 s.
  assert (Hnd : Sidebar.distinct s).
  { unfold Sidebar.distinct. cbn.
    repeat constructor; cbn; intuition discriminate. }
  destruct (click_opens_the_chat_of_the_row s 0 c1 Hnd eq_refl)
    as (Hm & Hc & _).
  split; [exact Hm | exact Hc].
Defined.

(** X4.  Leaving a chat and opening it again brings the state back:
    when the buffer holds the messages of the active chat and no two
    chats have the same id, [startNewChat] followed by [loadChat] of
    that chat gives the state it started from. *)
Theorem reopening_restores_the_session :
  forall (s : State) (c : ChatHistory.t),
    Sidebar.distinct s ->
    In c (chatHistories s) ->
    currentChatId s = Some (ChatHistory.id c) ->
    messages s = ChatHistory.messages c ->
    execs s [StartNewChat; LoadChat (ChatHistory.id c)] = s.
Proof.
  intros s c Hnd Hin Hcur Hms.
  destruct (In_nth_error _ _ Hin) as [i Hn].
  cbn. unfold loadChat. cbn.
  rewrite (find_distinct _ i c Hnd Hn). cbn.
  rewrite map_copyMessage, <- Hms, <- Hcur. now destruct s.
Qed.

Lemma reopening_restores_the_session_witness :
  let u := Message.Build "1000" user "Hello" None None None
             (Js.ValidDate 1000) in
  let c1 := ChatHistory.Build "1200" "Hello" [u] (Js.ValidDate 1200) in
  let c2 := ChatHistory.Build "900" "Older" [] (Js.ValidDate 900) in
  let s := Build [c1; c2] (Some "1200") [u] in
  execs s [StartNewChat; LoadChat "1200"] = s.
Proof.
  intros u c1 c2 s.
  assert (Hnd : Sidebar.distinct s).
  { unfold Sidebar.distinct. cbn.
    repeat constructor; cbn; intuition discriminate. }
  exact (reopening_restores_the_session s c1 Hnd
           (or_introl eq_refl) eq_refl eq_refl).
Defined.

(** X5.  Once [deleteChat(id)] has run, no chat has that id, and
    deleting or loading the id again changes nothing: the caller
    cannot tell an id that was never there from one already
    deleted. *)
Theorem deleted_id_is_gone :
  forall (s : State) (chatId : string),
    let s1 := exec s (DeleteChat chatId) in
    (forall c, In c (chatHistories s1) -> ChatHistory.id c <> chatId) /\
    currentChatId s1 <> Some chatId /\
    exec s1 (DeleteChat chatId) = s1 /\
    exec s1 (LoadChat chatId) = s1.
Proof.
  intros s chatId s1.
  assert (Hh : chatHistories s1
               = filter (fun c => negb (String.eqb (ChatHistory.id c) chatId))
                   (chatHistories s)).
  { subst s1. cbn. unfold deleteChat.
    destruct (currentChatId s) as [cur|]; [|reflexivity].
    destruct (String.eqb cur chatId); reflexivity. }
  assert (Hgone : forall c, In c (chatHistories s1) ->
                    ChatHistory.id c <> chatId).
  { intros c Hin. rewrite Hh in Hin. apply filter_In in Hin.
    destruct Hin as [_ Hne].
    destruct (String.eqb_spec (ChatHistory.id c) chatId);
      [discriminate Hne | assumption]. }
  assert (Hcur : currentChatId s1 <> Some chatId).
  { subst s1. cbn. unfold deleteChat.
    destruct (currentChatId s) as [cur|] eqn:E; cbn.
    - destruct (String.eqb_spec cur chatId) as [->|Hne]; cbn.
      + discriminate.
      + rewrite E. congruence.
    - rewrite E. discriminate. }
  split; [exact Hgone|]. split; [exact Hcur|]. split.
  - cbn [exec]. unfold deleteChat at 1.
    assert (F : setChatHistories
                  (filter (fun c =>
                     negb (String.eqb (ChatHistory.id c) chatId))) s1 = s1).
    { unfold setChatHistories. rewrite Hh, filter_twice, <- Hh.
      now destruct s1. }
    rewrite F.
    destruct (currentChatId s1) as [cur|]; [|reflexivity].
    destruct (String.eqb_spec cur chatId) as [->|_];
      [now elim Hcur | reflexivity].
  - cbn [exec]. unfold loadChat.
    now rewrite (find_unknown chatId _ Hgone).
Qed.

(** X6.  A commit for a chat that is no longer in the histories is
    dropped: when the render the handler closed over had an active
    chat and no chat has its id any more (it was deleted, or the
    history cleared, while the call was pending),
    [updateChatHistory] changes nothing; the chat is not made again
    and the exchange is stored nowhere. *)
Theorem commit_to_a_deleted_chat_is_dropped :
  forall (t_id t_upd : Z) (view s : State) (u a : Message.t)
         (cur : string),
    currentChatId view = Some cur ->
    cur <> "" ->
    (forall c, In c (chatHistories s) -> ChatHistory.id c <> cur) ->
    updateChatHistory t_id t_upd view u a s = s.
Proof.
  intros t_id t_upd view s u a cur Hcur Hne Hgone.
  unfold updateChatHistory.
  rewrite Hcur. unfold Js.truthy_ref, Js.truthy_string.
  destruct (String.eqb_spec cur ""); [contradiction|]. cbn [negb].
  unfold setChatHistories.
  assert (M : forall l, (forall c, In c l -> ChatHistory.id c <> cur) ->
            map (fun chat =>
                   if String.eqb (ChatHistory.id chat) cur
                   then withMessages chat (messages view ++ [u; a]) t_upd
                   else chat) l = l).
  { induction l as [|c l IH]; intros Hl; cbn; [reflexivity|].
    destruct (String.eqb_spec (ChatHistory.id c) cur) as [E|_].
    - now elim (Hl c (or_introl eq_refl)).
    - f_equal. apply IH. intros c' Hc'. apply Hl. now right. }
  rewrite (M _ Hgone). now destruct s.
Qed.

Lemma commit_to_a_deleted_chat_is_dropped_witness :
  let u0 := Message.Build "1000" user "Hello" None None None
              (Js.ValidDate 1000) in
  let c1 := ChatHistory.Build "1200" "Hello" [u0] (Js.ValidDate 1200) in
  let view := Build [c1] (Some "1200") [u0] in
  let u := Message.Build "2000" user "More" None None None
             (Js.ValidDate 2000) in
  let a := Message.Build "2101" assistant "Sure" (Some "billing")
             (Some Js.zero) (Some []) (Js.ValidDate 2100) in
  let s := addMessage a (deleteChat view "1200" (addMessage u view)) in
  updateChatHistory 2100 2100 view u a s = s /\ chatHistories s = [].
Proof.
  intros u0 c1 view u a s. split; [|reflexivity].
  apply (commit_to_a_deleted_chat_is_dropped 2100 2100 view s u a "1200");
    [reflexivity | discriminate | intros c []].
Defined.

(** X7.  No operation of the hook gives two chats the same id, save
    the making of a chat (by [updateChatHistory] run in a render with
    no active chat) at a clock reading whose decimal form is the id
    of a chat already there: from histories with distinct ids, every
    operation but that one leaves distinct ids. *)
Theorem distinct_ids_are_kept :
  forall (s : State) (op : Op),
    Sidebar.distinct s ->
    (forall t_id t_upd view u a,
       op = UpdateChatHistory t_id t_upd view u a ->
       Js.truthy_ref (currentChatId view) = false ->
       forall c, In c (chatHistories s) ->
                 ChatHistory.id c <> Js.Z_toString t_id) ->
    Sidebar.distinct (exec s op).
Proof.
  unfold Sidebar.distinct. intros s op Hnd Hfresh.
  pose proof (fun p => distinct_filter p _ Hnd) as Hfilter.
  destruct op; cbn [exec].
  - exact Hnd.
  - unfold loadChat. destruct (find _ (chatHistories s)); exact Hnd.
  - unfold deleteChat.
    destruct (currentChatId s) as [cur|];
      [destruct (String.eqb cur chatId)|]; cbn; apply Hfilter.
  - cbn. constructor.
  - exact Hnd.
  - unfold updateChatHistory.
    destruct (Js.truthy_ref (currentChatId view)) eqn:T; cbn.
    + rewrite map_map.
      erewrite map_ext; [exact Hnd|].
      intros c. cbn.
      destruct (match currentChatId view with
                | Some cur => String.eqb (ChatHistory.id c) cur
                | None => false
                end); reflexivity.
    + constructor; [|exact Hnd].
      intros Hin. apply in_map_iff in Hin.
      destruct Hin as (c & E & Hc).
      exact (Hfresh t_id t_upd view userMessage assistantMessage
               eq_refl T c Hc E).
Qed.

Lemma distinct_ids_are_kept_witness :
  let c1 := ChatHistory.Build "1200" "Hello" [] (Js.ValidDate 1200) in
  let s := Build [c1] None [] in
  let u := Message.Build "2000" user "More" None None None
             (Js.ValidDate 2000) in
  let a := Message.Build "2101" assistant "Sure" (Some "billing")
             (Some Js.zero) (Some []) (Js.ValidDate 2100) in
  Sidebar.distinct (exec s (UpdateChatHistory 2100 2100 s u a)).
Proof.
  intros c1 s u a.
  apply distinct_ids_are_kept.
  - unfold Sidebar.distinct. cbn.
    repeat constructor; cbn; intuition discriminate.
  - intros t_id t_upd view u' a' E _ c [<-|[]].
    injection E as <- _ _ _ _. vm_compute. discriminate.
Defined.

End HookOperations.

(** * Further properties of an exchange *)

Section ExchangeFlow.

Import App.

#[local] Arguments Js.Z_toString : simpl never.
#[local] Arguments Js.trim : simpl never.
#[local] Arguments Js.slice0 : simpl never.

(** *** Ids and clock readings *)

Lemma digit_char_inj a b : Js.digit_char a = Js.digit_char b -> a = b.
Proof.
  intros H. apply (f_equal Js.char_digit) in H.
  rewrite !char_digit_char in H. now injection H.
Qed.

Lemma render_digits_inj a : forall b,
  Js.render_digits a = Js.render_digits b -> a = b.
Proof.
  induction a as [|x a IH]; intros [|y b] H; cbn in H;
    try discriminate H; [reflexivity|].
  injection H as Hc Hr. f_equal; [now apply digit_char_inj | now apply IH].
Qed.

Lemma render_digits_no_sign ds r :
  ds <> [] -> Js.render_digits ds <> String "-" r.
Proof.
  destruct ds as [|d ds]; [congruence|]. intros _ H. cbn in H.
  injection H as Hc _. destruct d; discriminate Hc.
Qed.

(** Two integers with the same decimal form are the same integer. *)
Lemma Z_toString_inj a b : Js.Z_toString a = Js.Z_toString b -> a = b.
Proof.
  unfold Js.Z_toString.
  destruct (Z.ltb_spec a 0) as [Ha|Ha], (Z.ltb_spec b 0) as [Hb|Hb];
    intros H.
  - injection H as H. apply render_digits_inj in H.
    apply (f_equal Js.digits_value) in H.
    rewrite !digits_of_Z_value in H by lia. lia.
  - symmetry in H.
    now elim (render_digits_no_sign _ _ (digits_of_Z_nonempty b) H).
  - now elim (render_digits_no_sign _ _ (digits_of_Z_nonempty a) H).
  - apply render_digits_inj in H.
    apply (f_equal Js.digits_value) in H.
    rewrite !digits_of_Z_value in H by lia. exact H.
Qed.

(** X8.  A successful exchange appends the user message and the
    assistant message to the buffer, and the two carry the same id
    exactly when the clock read at the answer is one millisecond
    behind the clock read at the send: with a clock that does not run
    backwards the ids differ. *)
Theorem exchange_ids_equal_only_on_clock_step_back :
  forall (clock clock' : nat -> Z) (s s1 : State) (x : Exchange)
         (data : ApiResponse.t),
    sendMessage clock s s = (s1, Some x) ->
    let s2 := resume clock' x (inr data) s1 in
    exists u a,
      Chat.messages (chat s2) = Chat.messages (chat s) ++ [u; a] /\
      Message.role u = user /\ Message.role a = assistant /\
      (Message.id u = Message.id a <-> clock 0%nat = clock' 0%nat + 1) /\
      (clock 0%nat <= clock' 0%nat -> Message.id u <> Message.id a).
Proof.
  intros clock clock' s s1 x data Hsend s2. subst s2.
  unfold sendMessage in Hsend.
  destruct (rejected s); [discriminate|].
  injection Hsend as <- <-.
  assert (Hiff : Js.Z_toString (clock 0%nat)
                 = Js.Z_toString (clock' 0%nat + 1)
                 <-> clock 0%nat = clock' 0%nat + 1).
  { split; [apply Z_toString_inj | now intros ->]. }
  do 2 eexists. split.
  { cbn. unfold Chat.updateChatHistory.
    destruct (Js.truthy_ref _); cbn; rewrite <- app_assoc; reflexivity. }
  cbn. split; [reflexivity|]. split; [reflexivity|].
  split; [exact Hiff|].
  intros Hle E. apply Hiff in E. lia.
Qed.

Lemma exchange_ids_equal_only_on_clock_step_back_witness :
  let s := Build (Chat.initial []) "Hello" false None
             "http://localhost:8000/api/ask" "user_1" in
  let data := ApiResponse.Build "general_query" Js.zero "Hi there!" []
                None "2024-01-01T00:00:00.000Z" in
  match sendMessage (fun _ => 5000) s s with
  | (s1, Some x) =>
      exists u a,
        Chat.messages (chat (resume (fun _ => 5600) x (inr data) s1))
          = [u; a] /\
        Message.id u <> Message.id a
  | _ => False
  end.
Proof.
  intros s data.
  destruct (sendMessage (fun _ => 5000) s s) as [s1 [x|]] eqn:E;
    [|vm_compute in E; discriminate E].
  destruct (exchange_ids_equal_only_on_clock_step_back
              (fun _ => 5000) (fun _ => 5600) s s1 x data E)
    as (u & a & Hm & _ & _ & _ & Hne).
  exists u, a. split; [exact Hm|]. apply Hne. lia.
Defined.

(** *** The guard on the input *)

Lemma trimStart_blank s :
  Js.trimStart s = "" <->
  Forall (fun c => Js.is_space c = true) (list_ascii_of_string s).
Proof.
  induction s as [|c r IH]; cbn.
  - split; [constructor | reflexivity].
  - destruct (Js.is_space c) eqn:E.
    + rewrite IH. split; [now constructor|].
      intros H. now inversion H.
    + split; [discriminate|].
      intros H. inversion H; congruence.
Qed.

Lemma trimStart_head s :
  Js.trimStart s = "" \/
  exists c r, Js.trimStart s = String c r /\ Js.is_space c = false.
Proof.
  induction s as [|c r IH]; cbn; [now left|].
  destruct (Js.is_space c) eqn:E; [exact IH|].
  right. now exists c, r.
Qed.

Lemma trimEnd_blank s :
  Js.trimEnd s = "" <->
  Forall (fun c => Js.is_space c = true) (list_ascii_of_string s).
Proof.
  induction s as [|c r IH]; cbn.
  - split; [constructor | reflexivity].
  - destruct (Js.trimEnd r) as [|c' r'] eqn:E.
    + destruct (Js.is_space c) eqn:S.
      * split; [|reflexivity]. intros _. constructor; [exact S|].
        now apply IH.
      * split; [discriminate|]. intros H. inversion H; congruence.
    + split; [discriminate|]. intros H. inversion H as [|? ? _ Hr].
      apply IH in Hr. discriminate Hr.
Qed.

Lemma trim_blank s :
  Js.trim s = "" <->
  Forall (fun c => Js.is_space c = true) (list_ascii_of_string s).
Proof.
  unfold Js.trim. split.
  - intros H. apply trimEnd_blank in H.
    destruct (trimStart_head s) as [E|(c & r & E & S)].
    + now apply trimStart_blank.
    + rewrite E in H. cbn in H. inversion H; congruence.
  - intros H. apply trimStart_blank in H. now rewrite H.
Qed.

(** X9.  The guard of [sendMessage] turns a submit away exactly when
    an exchange is in flight or the input holds nothing but white
    space (the empty input included); any other input is sent, as it
    was typed, white space around it included. *)
Theorem submit_is_rejected_iff_blank_or_busy :
  forall (clock : nat -> Z) (s : State),
    (rejected s = true <->
       isLoading s = true \/
       Forall (fun c => Js.is_space c = true)
         (list_ascii_of_string (inputValue s))) /\
    (rejected s = false ->
       exists s1 x,
         sendMessage clock s s = (s1, Some x) /\
         query x = inputValue s /\
         Message.content (userMessage x) = inputValue s /\
         inputValue s1 = "" /\ isLoading s1 = true).
Proof.
  intros clock s. split.
  - unfold rejected, Js.truthy_string. rewrite orb_true_iff, <- trim_blank.
    destruct (String.eqb_spec (Js.trim (inputValue s)) "") as [E|E];
      cbn [negb]; intuition congruence.
  - intros R. unfold sendMessage. rewrite R.
    do 2 eexists. repeat split.
Qed.

(** *** An exchange from send to commit *)

Lemma idle_has_no_flight stored url uid es :
  let w := run (mount stored url uid) es in
  rejected (app w) = false -> inflight w = [].
Proof.
  intros w R.
  assert (H : flight_ok w) by (apply flight_ok_run; reflexivity).
  unfold flight_ok in H. unfold rejected in R.
  apply orb_false_elim in R. destruct R as [_ R]. rewrite R in H.
  now destruct (inflight w).
Qed.

(** X10.  In every run of the component, a submit that passes the
    guard and whose call succeeds, with no other event in between,
    ends with the exchange committed: the buffer is the former
    buffer followed by the user message and the assistant message,
    the active chat exists and holds exactly the buffer, the busy
    flag is released and nothing is in flight. *)
Theorem accepted_exchange_is_committed :
  forall (stored : list ChatHistory.t) (url uid : string)
         (es : list Event) (clock clock' : nat -> Z)
         (data : ApiResponse.t),
    let w := run (mount stored url uid) es in
    rejected (app w) = false ->
    let w' := run w [Send clock; Settled 0 (inr data) clock'] in
    exists c u a,
      Chat.messages (chat (app w'))
        = Chat.messages (chat (app w)) ++ [u; a] /\
      Message.content u = inputValue (app w) /\
      Message.content a = ApiResponse.response data /\
      In c (Chat.chatHistories (chat (app w'))) /\
      Chat.currentChatId (chat (app w')) = Some (ChatHistory.id c) /\
      ChatHistory.messages c = Chat.messages (chat (app w')) /\
      isLoading (app w') = false /\ inflight w' = [].
Proof.
  intros stored url uid es clock clock' data w R w'.
  pose proof (idle_has_no_flight stored url uid es R) as Hfl.
  pose proof (attached_run es stored url uid) as Hatt.
  fold w in Hfl, Hatt. subst w'.
  generalize dependent w. intros w R Hfl Hatt.
  cbn [run fold_left step]. unfold sendMessage. rewrite R, Hfl.
  cbn [app inflight List.app nth_error firstn skipn].
  unfold resume.
  cbn [chat onChat setIsLoading setInputValue setShowToast view userMessage
       isLoading app inflight].
  unfold Chat.updateChatHistory.
  cbn [Chat.messages Chat.addMessage Chat.setMessages Chat.chatHistories
       Chat.currentChatId].
  destruct (Js.truthy_ref (Chat.currentChatId (chat (app w)))) eqn:T.
  - destruct (Chat.currentChatId (chat (app w))) as [cur|] eqn:Ecur;
      [|discriminate T].
    destruct (Hatt cur Ecur) as (c0 & Hin & Hid).
    eexists (Chat.withMessages c0 _ _), _, _.
    cbn [Chat.setChatHistories Chat.messages Chat.chatHistories
         Chat.currentChatId Chat.addMessage Chat.setMessages].
    split; [rewrite <- app_assoc; reflexivity|].
    split; [reflexivity|]. split; [reflexivity|].
    split.
    { apply in_map_iff. exists c0. split; [|exact Hin].
      rewrite <- Hid, String.eqb_refl. reflexivity. }
    split; [cbn; now rewrite Hid|].
    split; [cbn; now rewrite <- app_assoc|].
    split; reflexivity.
  - eexists _, _, _.
    cbn [Chat.setChatHistories Chat.setCurrentChatId Chat.messages
         Chat.chatHistories Chat.currentChatId Chat.addMessage
         Chat.setMessages].
    split; [rewrite <- app_assoc; reflexivity|].
    split; [reflexivity|]. split; [reflexivity|].
    split; [left; reflexivity|].
    split; [reflexivity|].
    split; [cbn; now rewrite <- app_assoc|].
    split; reflexivity.
Qed.

Lemma accepted_exchange_is_committed_witness :
  let data := ApiResponse.Build "general_query" Js.zero "Hi there!" []
                None "2024-01-01T00:00:00.000Z" in
  let w' := run (mount [] "http://localhost:8000/api/ask" "user_1")
              [Typed "Hello"; Send (fun _ => 1000);
               Settled 0 (inr data) (fun _ => 1600)] in
  exists c,
    Chat.chatHistories (chat (app w')) = [c] /\
    ChatHistory.messages c = Chat.messages (chat (app w')) /\
    List.length (Chat.messages (chat (app w'))) = 2%nat.
Proof.
  intros data w'.
  destruct (accepted_exchange_is_committed []
              "http://localhost:8000/api/ask" "user_1" [Typed "Hello"]
              (fun _ => 1000) (fun _ => 1600) data eq_refl)
    as (c & u & a & Hm & _ & _ & Hin & _ & Hc & _).
  exists c. split; [|split; [exact Hc|]].
  - destruct Hin as [<-|[]]. reflexivity.
  - change (Chat.messages (chat (app w'))) with
      (Chat.messages (chat (app
         (run (run (mount [] "http://localhost:8000/api/ask" "user_1")
                 [Typed "Hello"])
            [Send (fun _ => 1000); Settled 0 (inr data) (fun _ => 1600)])))).
    rewrite Hm. reflexivity.
Defined.

(** X18.  What a switch of chats during a call does.  When a
    query is sent from an active chat and, before the answer, the
    user opens another chat, the answer is committed to the chat the
    query was sent from (the histories then hold, with its id and
    its title, an entry whose messages are the buffer of the send
    followed by the two messages and whose [lastUpdated] is the
    clock's reading) but it is appended to the buffer of the chat
    now shown, which stays the active one and whose stored entry
    does not change; the histories keep their size. *)
Theorem answer_after_switching_chats :
  forall (w : World) (clock clock' : nat -> Z) (data : ApiResponse.t)
         (cA cB : ChatHistory.t),
    inflight w = [] ->
    rejected (app w) = false ->
    Sidebar.distinct (chat (app w)) ->
    In cA (Chat.chatHistories (chat (app w))) ->
    In cB (Chat.chatHistories (chat (app w))) ->
    ChatHistory.id cA <> ChatHistory.id cB ->
    ChatHistory.id cA <> "" ->
    Chat.currentChatId (chat (app w)) = Some (ChatHistory.id cA) ->
    let w' := run w [Send clock; LoadChat (ChatHistory.id cB);
                     Settled 0 (inr data) clock'] in
    exists u a,
      Message.role u = user /\
      Message.content u = inputValue (app w) /\
      Message.role a = assistant /\
      Message.content a = ApiResponse.response data /\
      Chat.currentChatId (chat (app w')) = Some (ChatHistory.id cB) /\
      Chat.messages (chat (app w')) = ChatHistory.messages cB ++ [a] /\
      In cB (Chat.chatHistories (chat (app w'))) /\
      In (ChatHistory.Build (ChatHistory.id cA) (ChatHistory.title cA)
            (Chat.messages (chat (app w)) ++ [u; a])
            (Js.ValidDate (clock' 3%nat)))
         (Chat.chatHistories (chat (app w'))) /\
      List.length (Chat.chatHistories (chat (app w')))
        = List.length (Chat.chatHistories (chat (app w))).
Proof.
  intros w clock clock' data cA cB Hfl R Hnd HA HB Hne HneA Hcur w'.
  subst w'.
  destruct (In_nth_error _ _ HB) as [iB HnB].
  pose proof (find_distinct _ iB cB Hnd HnB) as HfB.
  cbn [run fold_left step]. unfold sendMessage. rewrite R, Hfl.
  cbn. unfold Chat.loadChat. cbn. rewrite HfB. cbn.
  unfold Chat.updateChatHistory. cbn.
  rewrite Hcur, (truthy_ref_Some _ HneA). cbn.
  rewrite map_copyMessage.
  exists (Message.Build (Js.Z_toString (clock 0%nat)) user
            (inputValue (app w)) None None None
            (Js.ValidDate (clock 1%nat))),
         (Message.Build (Js.Z_toString (clock' 0%nat + 1)) assistant
            (ApiResponse.response data) (Some (ApiResponse.intent data))
            (Some (ApiResponse.confidence data))
            (Some (ApiResponse.sources data))
            (Js.ValidDate (clock' 1%nat))).
  split; [reflexivity|]. split; [reflexivity|].
  split; [reflexivity|]. split; [reflexivity|].
  split; [reflexivity|]. split; [reflexivity|]. split; [|split].
  - apply in_map_iff. exists cB. split; [|exact HB].
    destruct (String.eqb_spec (ChatHistory.id cB) (ChatHistory.id cA));
      [congruence | reflexivity].
  - apply in_map_iff. exists cA. split; [|exact HA].
    now rewrite String.eqb_refl.
  - apply length_map.
Qed.

Lemma answer_after_switching_chats_witness :
  let u0 := Message.Build "1000" user "Hello" None None None
              (Js.ValidDate 1000) in
  let cA := ChatHistory.Build "1200" "Hello" [u0] (Js.ValidDate 1200) in
  let cB := ChatHistory.Build "900" "Older" [] (Js.ValidDate 900) in
  let w := Run (Build (Chat.Build [cA; cB] (Some "1200") [u0]) "More"
                  false None "http://localhost:8000/api/ask" "user_1") [] in
  let data := ApiResponse.Build "billing" Js.zero "Sure" [] None
                "2024-01-01T00:00:00.000Z" in
  let w' := run w [Send (fun _ => 2000); LoadChat "900";
                   Settled 0 (inr data) (fun _ => 2600)] in
  exists u a,
    Chat.currentChatId (chat (app w')) = Some "900" /\
    Chat.messages (chat (app w')) = [a] /\
    Message.content a = "Sure" /\
    In cB (Chat.chatHistories (chat (app w'))) /\
    In (ChatHistory.Build "1200" "Hello" [u0; u; a] (Js.ValidDate 2600))
       (Chat.chatHistories (chat (app w'))).
Proof.
  intros u0 cA cB w data w'.
  assert (Hnd : Sidebar.distinct (chat (app w))).
  { unfold Sidebar.distinct. cbn.
    repeat constructor; cbn; intuition discriminate. }
  assert (HA : In cA (Chat.chatHistories (chat (app w))))
    by (left; reflexivity).
  assert (HB : In cB (Chat.chatHistories (chat (app w))))
    by (right; left; reflexivity).
  assert (Hne : ChatHistory.id cA <> ChatHistory.id cB) by discriminate.
  assert (HneA : ChatHistory.id cA <> "") by discriminate.
  destruct (answer_after_switching_chats w (fun _ => 2000) (fun _ => 2600)
              data cA cB eq_refl eq_refl Hnd HA HB Hne HneA eq_refl)
    as (u & a & _ & _ & _ & Hc & Hcur & Hm & HinB & HinA & _).
  exists u, a. split; [exact Hcur|]. split; [exact Hm|].
  split; [exact Hc|]. split; [exact HinB | exact HinA].
Defined.

(** X19.  Only three events write the histories: an answer that
    arrived, a confirmed delete and a confirmed clear.  Typing, a
    submit, a call that failed, a new chat, the opening of a chat and
    the fading of a notice leave them as they are, so the store has
    nothing new to hold after them. *)
Theorem histories_change_only_on_commit_delete_clear :
  forall (w : World) (e : Event),
    match e with
    | Settled _ (inr _) _ | DeleteChat _ | ClearHistory => False
    | _ => True
    end ->
    Chat.chatHistories (chat (app (step w e)))
      = Chat.chatHistories (chat (app w)) /\
    Store.persist (Chat.chatHistories (chat (app (step w e))))
      = Store.persist (Chat.chatHistories (chat (app w))).
Proof.
  intros w e He.
  assert (H : Chat.chatHistories (chat (app (step w e)))
              = Chat.chatHistories (chat (app w))).
  { destruct e; cbn [step]; try reflexivity; try contradiction.
    - unfold sendMessage. destruct (rejected (app w)); reflexivity.
    - destruct (nth_error (inflight w) i); [|reflexivity].
      destruct outcome; [reflexivity | contradiction].
    - cbn. unfold Chat.loadChat.
      destruct (find _ (Chat.chatHistories (chat (app w)))); reflexivity. }
  split; [exact H | now rewrite H].
Qed.

Lemma histories_change_only_on_commit_delete_clear_witness :
  let c := ChatHistory.Build "1200" "Hello" [] (Js.ValidDate 1200) in
  let w := run (mount [c] "http://localhost:8000/api/ask" "user_1")
             [Typed "More"; Send (fun _ => 2000)] in
  Chat.chatHistories
    (chat (app (step w (Settled 0 (inl FetchFailed) (fun _ => 2600)))))
    = [c].
Proof.
  intros c w.
  exact (proj1 (histories_change_only_on_commit_delete_clear w
                  (Settled 0 (inl FetchFailed) (fun _ => 2600)) I)).
Defined.

(** X20.  The busy flag is released as soon as the call settles,
    whichever way: in every run of the component, when the flag is
    set exactly one exchange is in flight, and its settling, with an
    answer or with any exception, clears the flag and leaves nothing
    in flight, so the next submit is not turned away for being
    busy. *)
Theorem busy_flag_is_released_when_the_call_settles :
  forall (stored : list ChatHistory.t) (url uid : string)
         (es : list Event),
    let w := run (mount stored url uid) es in
    isLoading (app w) = true ->
    exists x,
      inflight w = [x] /\
      forall (outcome : Exn + ApiResponse.t) (clock : nat -> Z),
        let w' := step w (Settled 0 outcome clock) in
        isLoading (app w') = false /\ inflight w' = [].
Proof.
  intros stored url uid es w L.
  assert (H : flight_ok w) by (apply flight_ok_run; reflexivity).
  unfold flight_ok in H. rewrite L in H.
  destruct (inflight w) as [|x [|y l]] eqn:E; try discriminate H.
  exists x. split; [reflexivity|].
  intros outcome clock. cbn [step]. rewrite E. cbn [nth_error].
  split; reflexivity.
Qed.

Lemma busy_flag_is_released_when_the_call_settles_witness :
  let w := run (mount [] "http://localhost:8000/api/ask" "user_1")
             [Typed "Hello"; Send (fun _ => 1000)] in
  isLoading (app w) = true /\
  isLoading (app (step w (Settled 0 (inl TypeError) (fun _ => 1600))))
    = false.
Proof.
  intros w.
  assert (L : isLoading (app w) = true) by reflexivity.
  split; [exact L|].
  destruct (busy_flag_is_released_when_the_call_settles []
              "http://localhost:8000/api/ask" "user_1"
              [Typed "Hello"; Send (fun _ => 1000)] L) as (x & _ & H).
  exact (proj1 (H (inl TypeError) (fun _ => 1600))).
Defined.

End ExchangeFlow.

(** * What a run of the component keeps for the store *)

Section DurableRuns.

Import App Store Durable.

#[local] Arguments Js.Z_toString : simpl never.
#[local] Arguments Js.trim : simpl never.
#[local] Arguments Js.slice0 : simpl never.
#[local] Arguments Js.canonical : simpl never.
#[local] Arguments exact : simpl never.
#[local] Arguments Js.maxTime : simpl never.

Lemma Forall_drop {A} (P : A -> Prop) (l : list A) : forall i,
  Forall P l -> Forall P (firstn i l ++ skipn (S i) l).
Proof.
  induction l as [|a l IH]; intros i H.
  - destruct i; constructor.
  - inversion H as [|? ? Ha Hl]; subst.
    destruct i as [|i]; cbn.
    + destruct l; [constructor | exact Hl].
    + constructor; [exact Ha | now apply IH].
Qed.

Lemma forallb_filter_kept {A} (f p : A -> bool) (l : list A) :
  forallb f l = true -> forallb f (filter p l) = true.
Proof.
  rewrite !forallb_forall. intros H x Hx.
  apply filter_In in Hx. now apply H.
Qed.

Lemma chat_exact_withMessages c ms t :
  in_range t = true -> forallb message_exact ms = true ->
  chat_exact (Chat.withMessages c ms t) = true.
Proof.
  intros Ht Hms. unfold chat_exact. cbn. unfold in_range in Ht.
  now rewrite Ht, Hms.
Qed.

Lemma exact_histories_updateChatHistory t_id t_upd view u a s :
  exact_histories (Chat.chatHistories s) = true ->
  forallb message_exact (Chat.messages view ++ [u; a]) = true ->
  in_range t_upd = true ->
  exact_histories
    (Chat.chatHistories (Chat.updateChatHistory t_id t_upd view u a s))
    = true.
Proof.
  intros Hs Hms Ht. unfold Chat.updateChatHistory.
  destruct (Js.truthy_ref (Chat.currentChatId view)); cbn.
  - unfold exact_histories in *. rewrite forallb_forall in Hs |- *.
    intros c Hc. apply in_map_iff in Hc. destruct Hc as (c0 & <- & Hc0).
    destruct (match Chat.currentChatId view with
              | Some cur => String.eqb (ChatHistory.id c0) cur
              | None => false
              end);
      [now apply chat_exact_withMessages | now apply Hs].
  - unfold exact_histories in *. cbn [forallb]. rewrite Hs, andb_true_r.
    unfold chat_exact. cbn. unfold in_range in Ht. now rewrite Ht, Hms.
Qed.

Lemma kept_mount stored url uid :
  exact_histories stored = true -> kept (mount stored url uid).
Proof. intros H. repeat split; [exact H | constructor]. Qed.

Lemma loaded_messages_ok hs chatId chat :
  exact_histories hs = true ->
  find (fun c => String.eqb (ChatHistory.id c) chatId) hs = Some chat ->
  forallb message_exact (ChatHistory.messages chat) = true.
Proof.
  intros H F. apply find_some in F. destruct F as [Hin _].
  unfold exact_histories in H. rewrite forallb_forall in H.
  specialize (H chat Hin). unfold chat_exact in H.
  now apply andb_prop in H.
Qed.

Lemma kept_step w e : kept w -> sane e = true -> kept (step w e).
Proof.
  intros (Hh & Hm & Hx) He.
  destruct e; cbn [step].
  - (* Typed *) repeat split; assumption.
  - (* Send *)
    unfold sendMessage. destruct (rejected (app w));
      [repeat split; assumption|].
    cbn in He.
    assert (Hu : message_exact
                   (Message.Build (Js.Z_toString (clock 0%nat)) user
                      (inputValue (app w)) None None None
                      (Js.ValidDate (clock 1%nat))) = true).
    { unfold message_exact. cbn. unfold in_range in He.
      now rewrite He. }
    split; [exact Hh|]. split.
    + cbn. rewrite forallb_app, Hm. cbn. now rewrite Hu.
    + cbn. apply Forall_app. split; [exact Hx|].
      constructor; [|constructor]. cbn. now split.
  - (* Settled *)
    destruct (nth_error (inflight w) i) as [x|] eqn:N;
      [|repeat split; assumption].
    assert (Hxi : forallb message_exact
                    (Chat.messages (chat (view x))) = true /\
                  message_exact (userMessage x) = true).
    { rewrite Forall_forall in Hx. apply Hx.
      eapply nth_error_In, N. }
    destruct Hxi as [Hv Hu].
    split; [|split].
    + destruct outcome as [err|data]; cbn; [exact Hh|].
      cbn in He. apply andb_prop in He. destruct He as [He Hc].
      apply andb_prop in He. destruct He as [H1 H3].
      apply exact_histories_updateChatHistory; [exact Hh| |exact H3].
      rewrite forallb_app, Hv. cbn. rewrite Hu.
      unfold message_exact. cbn. unfold in_range in H1.
      now rewrite H1, Hc.
    + destruct outcome as [err|data]; cbn.
      * now apply forallb_filter_kept.
      * cbn in He. apply andb_prop in He. destruct He as [He Hc].
        apply andb_prop in He. destruct He as [H1 _].
        unfold Chat.updateChatHistory.
        destruct (Js.truthy_ref _); cbn;
          rewrite forallb_app, Hm; cbn;
          unfold message_exact; cbn; unfold in_range in H1;
          now rewrite H1, Hc.
    + cbn. now apply Forall_drop.
  - (* NewChat *) repeat split; assumption.
  - (* LoadChat *)
    split; [|split; [|exact Hx]]; cbn; unfold Chat.loadChat.
    + destruct (find _ _); exact Hh.
    + destruct (find _ (Chat.chatHistories (chat (app w)))) as [c|] eqn:F;
        [|exact Hm].
      cbn. rewrite map_copyMessage.
      eapply loaded_messages_ok; eassumption.
  - (* DeleteChat *)
    split; [|split; [|exact Hx]]; cbn; unfold Chat.deleteChat.
    + assert (F : forall p,
                exact_histories (filter p (Chat.chatHistories (chat (app w))))
                = true) by (intros p; now apply forallb_filter_kept).
      destruct (Chat.currentChatId (chat (app w))) as [cur|];
        [destruct (String.eqb cur chatId)|]; cbn; apply F.
    + destruct (Chat.currentChatId (chat (app w))) as [cur|];
        [destruct (String.eqb cur chatId)|]; cbn;
        solve [reflexivity | exact Hm].
  - (* ClearHistory *) repeat split; assumption.
  - (* ToastExpired *) repeat split; assumption.
Qed.

Lemma kept_run es : forall w,
  kept w -> forallb sane es = true -> kept (run w es).
Proof.
  induction es as [|e es IH]; intros w Hw Hes; [exact Hw|].
  cbn in Hes. apply andb_prop in Hes. destruct Hes as [He Hes].
  cbn. apply IH; [now apply kept_step | exact Hes].
Qed.

Lemma forallb_impl {A} (f g : A -> bool) (l : list A) :
  (forall x, f x = true -> g x = true) ->
  forallb f l = true -> forallb g l = true.
Proof.
  intros H. rewrite !forallb_forall. intros Hl x Hx. now apply H, Hl.
Qed.

Lemma exact_message_ok m : message_exact m = true -> message_ok m = true.
Proof.
  unfold message_exact, message_ok. intros H.
  apply andb_prop in H. destruct H as [H1 H2]. rewrite H1.
  destruct (Message.confidence m) as [n|]; [|reflexivity].
  unfold exact in H2.
  apply andb_prop in H2. destruct H2 as [H2 _].
  apply andb_prop in H2. destruct H2 as [H2 _].
  apply andb_prop in H2. destruct H2 as [H2 _]. exact H2.
Qed.

(** Histories held exactly are histories of the data model. *)
Lemma exact_well_formed hs :
  exact_histories hs = true -> well_formed hs = true.
Proof.
  apply forallb_impl. intros c H. unfold chat_exact in H.
  apply andb_prop in H. destruct H as [H1 H2].
  unfold chat_ok. rewrite H1.
  exact (forallb_impl _ _ _ exact_message_ok H2).
Qed.

(** X11.  In every run of the component from stored histories whose
    instants are time values and whose [confidence] numbers the
    program holds exactly (decimals of at most 15 significant digits
    and a magnitude between 1e-291 and 1e290, or zero), with clock
    readings that are time values and responses whose [confidence]
    is such a number, the histories stay so at every point, and the
    text the effect stores for them is read back by the initialiser
    as those same histories: a reload loses nothing of the
    histories. *)
Theorem reload_restores_the_histories_of_any_run :
  forall (stored : list ChatHistory.t) (url uid : string)
         (es : list Event),
    exact_histories stored = true ->
    forallb sane es = true ->
    let hs := Chat.chatHistories (chat (app (run (mount stored url uid) es))) in
    exact_histories hs = true /\
    init (Some (persist hs)) = Loaded hs.
Proof.
  intros stored url uid es Hs Hes hs.
  destruct (kept_run es _ (kept_mount stored url uid Hs) Hes) as (H & _).
  split; [exact H | now apply persist_read_back, exact_well_formed].
Qed.

Lemma reload_restores_the_histories_of_any_run_witness :
  let data := ApiResponse.Build "general_query"
                (Js.Number false [Js.d8; Js.d7] 0) "Hi there!"
                ["kb/greeting"] None "2024-01-01T00:00:00.000Z" in
  let es := [Typed "Hello"; Send (fun _ => 1700000000000);
             Settled 0 (inr data) (fun _ => 1700000000900);
             NewChat; Typed "More"; Send (fun _ => 1700000005000);
             Settled 0 (inl FetchFailed) (fun _ => 1700000005900)] in
  let hs := Chat.chatHistories
              (chat (app (run (mount [] "http://localhost:8000/api/ask"
                                 "user_1") es))) in
  List.length hs = 1%nat /\ init (Some (persist hs)) = Loaded hs.
Proof.
  intros data es hs. split; [reflexivity|].
  exact (proj2 (reload_restores_the_histories_of_any_run []
                  "http://localhost:8000/api/ask" "user_1" es
                  eq_refl eq_refl)).
Defined.

End DurableRuns.

(** * The request, the transcript and the preferences *)

Section RequestAndTranscript.

Import Transcript.

#[local] Arguments Js.Z_toString : simpl never.
#[local] Arguments Json.parse : simpl never.
#[local] Arguments Json.stringify : simpl never.
#[local] Arguments IsoDate.toISOString : simpl never.
#[local] Arguments IsoDate.parse : simpl never.

(** X12.  The body of the one request is JSON text that reads back
    as an object with exactly the two members [user_id] and [query],
    holding the user id and the query as they were given, whatever
    characters they are made of; the request goes to the address
    given, and when the network call rejects, the client throws what
    [fetch] threw. *)
Theorem request_body_reads_back :
  forall (apiUrl userId query : string),
    let r := Api.request apiUrl userId query in
    Api.target r = apiUrl /\
    Api.contentType r = "application/json" /\
    (exists v,
       Json.parse (Api.payload r) = Some v /\
       v = Json.Obj [("user_id", Json.Str userId);
                     ("query", Json.Str query)] /\
       Api.read "user_id" v = Some (Json.Str userId) /\
       Api.read "query" v = Some (Json.Str query)) /\
    (forall fetch now,
       fetch r = None ->
       Api.sendQueryToAPI fetch now apiUrl userId query = inl FetchFailed).
Proof.
  intros apiUrl userId query r. subst r.
  split; [reflexivity|]. split; [reflexivity|]. split.
  - eexists. split; [|split; [reflexivity|split; reflexivity]].
    unfold Api.request. cbn [Api.payload].
    apply parse_stringify. reflexivity.
  - intros fetch now H. unfold Api.sendQueryToAPI. now rewrite H.
Qed.

(** *** The transcript *)

Lemma join_tail_app sep a b :
  Json.join_tail sep (a ++ b)
    = (Json.join_tail sep a ++ Json.join_tail sep b)%string.
Proof.
  induction a as [|p a IH]; cbn [List.app Json.join_tail];
    [reflexivity|].
  now rewrite IH, !append_assoc.
Qed.

Lemma join_app sep a b :
  a <> [] -> b <> [] ->
  Json.join sep (a ++ b)
    = (Json.join sep a ++ sep ++ Json.join sep b)%string.
Proof.
  destruct a as [|p a]; [congruence|].
  destruct b as [|q b]; [congruence|]. intros _ _.
  cbn [List.app Json.join]. rewrite join_tail_app.
  cbn [Json.join_tail]. now rewrite !append_assoc.
Qed.

(** X13.  The transcript is empty for no message, is the block of
    the message for one, and for a list made of two non-empty parts
    is the transcript of the first, the divider and the transcript of
    the second.  A block is the role in upper case, a colon and a
    space, the content as it is, a line feed and the local form of
    the timestamp. *)
Theorem transcript_is_blocks_between_dividers :
  forall (toLocaleString : Js.Date -> string),
    chatText toLocaleString [] = "" /\
    (forall m,
       chatText toLocaleString [m]
         = ((match Message.role m with
             | user => "USER"
             | assistant => "ASSISTANT"
             end) ++ ": " ++ Message.content m ++ nl ++
            toLocaleString (Message.timestamp m))%string) /\
    (forall ms1 ms2, ms1 <> [] -> ms2 <> [] ->
       chatText toLocaleString (ms1 ++ ms2)
         = (chatText toLocaleString ms1 ++ divider ++
            chatText toLocaleString ms2)%string).
Proof.
  intros tl. split; [reflexivity|]. split.
  - intros m. unfold chatText. cbn [map Json.join Json.join_tail].
    rewrite append_nil_r. unfold block.
    destruct (Message.role m); reflexivity.
  - intros ms1 ms2 H1 H2. unfold chatText. rewrite map_app.
    apply join_app; destruct ms1, ms2; cbn; congruence.
Qed.

(** *** The name of the file *)

Lemma before_digits sep ds r :
  Js.char_digit sep = None ->
  before sep (Js.render_digits ds ++ r)
    = (Js.render_digits ds ++ before sep r)%string.
Proof.
  intros Hs. induction ds as [|d ds IH]; cbn; [reflexivity|].
  destruct (Ascii.eqb_spec (Js.digit_char d) sep) as [E|_].
  - rewrite <- E, char_digit_char in Hs. discriminate Hs.
  - now rewrite IH.
Qed.

Lemma before_year y r :
  before "T" (IsoDate.year_text y ++ r)
    = (IsoDate.year_text y ++ before "T" r)%string.
Proof.
  unfold IsoDate.year_text, IsoDate.padded.
  destruct ((0 <=? y) && (y <=? 9999)); [now apply before_digits|].
  destruct (y <? 0); cbn [append before Ascii.eqb Bool.eqb];
    now rewrite before_digits.
Qed.

(** The text of the first instant of the day of [t]. *)
Lemma toISOString_day_start t :
  let '(y, m, d) := IsoDate.civil_from_days (t / IsoDate.msPerDay) in
  IsoDate.toISOString (t - t mod IsoDate.msPerDay)
    = (IsoDate.year_text y ++ "-" ++ IsoDate.padded 2 m ++ "-" ++
       IsoDate.padded 2 d ++ "T00:00:00.000Z")%string.
Proof.
  unfold IsoDate.toISOString.
  assert (Hq : (t - t mod IsoDate.msPerDay) / IsoDate.msPerDay
               = t / IsoDate.msPerDay)
    by (unfold IsoDate.msPerDay; Z.div_mod_to_equations; lia).
  assert (Hr : (t - t mod IsoDate.msPerDay) mod IsoDate.msPerDay = 0)
    by (unfold IsoDate.msPerDay; Z.div_mod_to_equations; lia).
  rewrite Hq, Hr.
  destruct (IsoDate.civil_from_days (t / IsoDate.msPerDay)) as [[y m] d].
  reflexivity.
Qed.

(** X14.  The file is named [chat_], the calendar day of the clock
    reading in universal time, [.txt]: the day in the name, completed
    with the time of midnight, reads back as the first instant of the
    day the reading falls in. *)
Theorem export_file_is_named_by_the_utc_day :
  forall now : Z,
    Z.abs now <= Js.maxTime ->
    exists day,
      fileName now = ("chat_" ++ day ++ ".txt")%string /\
      IsoDate.parse (day ++ "T00:00:00.000Z")
        = Some (now - now mod IsoDate.msPerDay) /\
      (forall toLocaleString messages,
         name (exportChatAsText toLocaleString messages now)
           = ("chat_" ++ day ++ ".txt")%string).
Proof.
  intros now Hnow.
  pose proof (toISOString_day_start now) as Hday.
  assert (Hin : Z.abs (now - now mod IsoDate.msPerDay) <= Js.maxTime).
  { unfold IsoDate.msPerDay, Js.maxTime in *.
    Z.div_mod_to_equations. lia. }
  pose proof (parse_toISOString _ Hin) as Hp.
  assert (Hfile : fileName now
                  = ("chat_" ++ before "T" (IsoDate.toISOString now)
                     ++ ".txt")%string) by reflexivity.
  unfold IsoDate.toISOString in Hfile.
  destruct (IsoDate.civil_from_days (now / IsoDate.msPerDay))
    as [[y m] d].
  cbv beta iota in Hday, Hfile.
  exists (IsoDate.year_text y ++ "-" ++ IsoDate.padded 2 m ++ "-" ++
          IsoDate.padded 2 d)%string.
  assert (Hname : fileName now
                  = ("chat_" ++
                     (IsoDate.year_text y ++ "-" ++ IsoDate.padded 2 m ++
                      "-" ++ IsoDate.padded 2 d) ++ ".txt")%string).
  { rewrite Hfile. do 2 f_equal.
    rewrite before_year. f_equal.
    cbn [append before Ascii.eqb Bool.eqb]. f_equal.
    unfold IsoDate.padded. rewrite before_digits by reflexivity. f_equal.
    cbn [append before Ascii.eqb Bool.eqb]. f_equal.
    rewrite before_digits by reflexivity.
    cbn [append before Ascii.eqb Bool.eqb]. now rewrite append_nil_r. }
  split; [exact Hname|]. split.
  - rewrite <- Hp, Hday. now rewrite !append_assoc.
  - intros tl ms. exact Hname.
Qed.

Lemma export_file_is_named_by_the_utc_day_witness :
  exists day,
    fileName 1700000000000 = ("chat_" ++ day ++ ".txt")%string /\
    IsoDate.parse (day ++ "T00:00:00.000Z") = Some 1699920000000.
Proof.
  destruct (export_file_is_named_by_the_utc_day 1700000000000)
    as (day & Hn & Hp & _).
  - vm_compute. discriminate.
  - exists day. split; [exact Hn | exact Hp].
Defined.

End RequestAndTranscript.

(** * The export handler and the cells kept in the store *)

Section ComponentCells.

Import Prefs.

#[local] Arguments Js.Z_toString : simpl never.
#[local] Arguments Json.parse : simpl never.
#[local] Arguments Json.stringify : simpl never.
#[local] Arguments IsoDate.toISOString : simpl never.
#[local] Arguments Store.persist : simpl never.
#[local] Arguments Store.init : simpl never.

Lemma chatText_nonempty toLocaleString m ms :
  Transcript.chatText toLocaleString (m :: ms) <> "".
Proof.
  unfold Transcript.chatText, Transcript.block.
  cbn [map Json.join]. destruct (Message.role m); discriminate.
Qed.

(** X15.  [handleExportChat] saves a file exactly when the rendered
    buffer holds a message, which is exactly when the export button
    of the side bar is enabled; the file then holds the transcript of
    the buffer, which is not empty.  With an empty buffer nothing is
    saved and the notice says so.  Either way the chat state is not
    touched. *)
Theorem export_saves_a_file_iff_buffer_nonempty :
  forall (toLocaleString : Js.Date -> string) (now : Z)
         (view s : App.State),
    let messages := Chat.messages (App.chat view) in
    let result := Transcript.handleExportChat toLocaleString now view s in
    App.chat (fst result) = App.chat s /\
    (messages = [] ->
       snd result = None /\
       App.showToast (fst result) = Some "No messages to export") /\
    (messages <> [] ->
       exists d,
         snd result = Some d /\
         Transcript.text d = Transcript.chatText toLocaleString messages /\
         Transcript.text d <> "" /\
         Transcript.mime d = "text/plain" /\
         App.showToast (fst result) = Some "Chat exported successfully") /\
    (Sidebar.exportDisabled (List.length messages) = true
       <-> snd result = None).
Proof.
  intros tl now view s messages result. subst messages result.
  unfold Transcript.handleExportChat, Sidebar.exportDisabled.
  destruct (Chat.messages (App.chat view)) as [|m ms]; cbn.
  - repeat split; congruence.
  - split; [reflexivity|]. split; [discriminate|]. split.
    + intros _. eexists. split; [reflexivity|].
      split; [reflexivity|]. split; [apply chatText_nonempty|].
      split; reflexivity.
    + split; discriminate.
Qed.

(** X16.  What a reload brings back.  Once the effects of a render
    have run, mounting the component again from the store gives the
    same histories (when they are well formed), the same theme, user
    id and address unless one of them is the empty string, which
    comes back as its default ([dark], a newly generated id, the
    local address), and a fresh session: no active chat, an empty
    buffer, an empty input, nothing in flight, no notice, the
    settings closed, the side bar open unless the window is narrower
    than 768.  The effects write the four keys and no other. *)
Theorem reload_restores_preferences_and_histories :
  forall (s : State) (st : Storage) (generated : string)
         (innerWidth : Z),
    Store.well_formed (Chat.chatHistories (App.chat (app s))) = true ->
    (exists s',
       mount (effects s st) generated innerWidth = Some s' /\
       Chat.chatHistories (App.chat (app s'))
         = Chat.chatHistories (App.chat (app s)) /\
       theme s' = (if String.eqb (theme s) "" then "dark" else theme s) /\
       App.userId (app s')
         = (if String.eqb (App.userId (app s)) "" then generated
            else App.userId (app s)) /\
       App.apiUrl (app s')
         = (if String.eqb (App.apiUrl (app s)) ""
            then "http://localhost:8000/api/ask"
            else App.apiUrl (app s)) /\
       Chat.currentChatId (App.chat (app s')) = None /\
       Chat.messages (App.chat (app s')) = [] /\
       App.inputValue (app s') = "" /\
       App.isLoading (app s') = false /\
       App.showToast (app s') = None /\
       settingsOpen s' = false /\
       sidebarOpen s' = negb (innerWidth <? 768)) /\
    (forall key,
       key <> "chatHistories" -> key <> "theme" ->
       key <> "userId" -> key <> "apiUrl" ->
       getItem (effects s st) key = getItem st key).
Proof.
  intros s st generated innerWidth Hwf. split.
  - unfold mount, effects.
    assert (Hh : getItem
                   (setItem "apiUrl" (App.apiUrl (app s))
                      (setItem "userId" (App.userId (app s))
                         (setItem "theme" (theme s)
                            (setItem "chatHistories"
                               (Store.persist
                                  (Chat.chatHistories (App.chat (app s))))
                               st)))) "chatHistories"
                 = Some (Store.persist
                           (Chat.chatHistories (App.chat (app s)))))
      by reflexivity.
    rewrite Hh, (persist_read_back _ Hwf).
    eexists. split; [reflexivity|].
    unfold handleResize, initTheme, initUserId, initApiUrl, or_default,
      Js.truthy_string.
    cbn [getItem setItem String.eqb Ascii.eqb Bool.eqb andb].
    destruct (innerWidth <? 768); cbn;
      destruct (String.eqb (theme s) ""),
               (String.eqb (App.userId (app s)) ""),
               (String.eqb (App.apiUrl (app s)) "");
      cbn; repeat split.
  - intros key H1 H2 H3 H4. unfold effects, getItem, setItem.
    destruct (String.eqb_spec key "apiUrl"); [contradiction|].
    destruct (String.eqb_spec key "userId"); [contradiction|].
    destruct (String.eqb_spec key "theme"); [contradiction|].
    destruct (String.eqb_spec key "chatHistories"); [contradiction|].
    reflexivity.
Qed.

Lemma reload_restores_preferences_and_histories_witness :
  let u := Message.Build "1700000000000" user "Hello" None None None
             (Js.ValidDate 1700000000000) in
  let c := ChatHistory.Build "1700000000900" "Hello" [u]
             (Js.ValidDate 1700000000900) in
  let s := Build (App.Build (Chat.Build [c] (Some "1700000000900") [u])
                    "typing" true (Some "Chat deleted") "" "user_1")
             "light" true true in
  exists s',
    mount (effects s (fun _ => None)) "user_2" 1024 = Some s' /\
    Chat.chatHistories (App.chat (app s')) = [c] /\
    theme s' = "light" /\
    App.userId (app s') = "user_1" /\
    App.apiUrl (app s') = "http://localhost:8000/api/ask".
Proof.
  intros u c s.
  destruct (reload_restores_preferences_and_histories s (fun _ => None)
              "user_2" 1024 eq_refl)
    as ((s' & Hm & Hh & Ht & Hu & Ha & _) & _).
  exists s'. split; [exact Hm|]. split; [exact Hh|].
  split; [exact Ht|]. split; [exact Hu | exact Ha].
Defined.

(** X17.  The theme toggle gives [dark] from [light] and [light]
    from anything else, so after one toggle the theme is one of the
    two and from then on two toggles bring it back.  It flips the
    [dark] class of the page exactly when the theme it starts from is
    [light] or [dark]: from any other stored theme the page is light
    before and after the first toggle.  Nothing but the theme
    changes. *)
Theorem toggleTheme_flips_known_themes_only :
  forall s : State,
    let s1 := toggleTheme s s in
    let s2 := toggleTheme s1 s1 in
    let s3 := toggleTheme s2 s2 in
    (theme s1 = "light" \/ theme s1 = "dark") /\
    s3 = s1 /\
    (dark s1 = negb (dark s)
       <-> theme s = "light" \/ theme s = "dark") /\
    app s1 = app s /\ sidebarOpen s1 = sidebarOpen s /\
    settingsOpen s1 = settingsOpen s.
Proof.
  intros s s1 s2 s3. subst s1 s2 s3.
  unfold toggleTheme, setTheme, dark. cbn [theme app sidebarOpen settingsOpen].
  destruct (String.eqb_spec (theme s) "light") as [E|E].
  - rewrite E. cbn. repeat split; auto.
  - cbn. split; [now left|]. split; [reflexivity|].
    split; [|repeat split].
    destruct (String.eqb_spec (theme s) "dark") as [D|D].
    + split; [now right | reflexivity].
    + split; [discriminate | intros [H|H]; contradiction].
Qed.

End ComponentCells.

(** * Ids under a clock that advances *)

Section TickingClock.

Import App Clock.

#[local] Arguments Js.Z_toString : simpl never.
#[local] Arguments Js.trim : simpl never.
#[local] Arguments Js.slice0 : simpl never.

Lemma minted_mono T T' id : T <= T' -> minted T id -> minted T' id.
Proof. intros H (t & E & Ht). exists t. split; [exact E | lia]. Qed.

Lemma minted_reading T t : t <= T -> minted T (Js.Z_toString t).
Proof. intros H. now exists t. Qed.

(** An id minted earlier is not the decimal form of a later
    reading. *)
Lemma minted_fresh T t id : minted T id -> T < t -> id <> Js.Z_toString t.
Proof.
  intros (t0 & -> & H0) Hlt E. apply Z_toString_inj in E. lia.
Qed.

Lemma messages_mono T T' (l : list Message.t) :
  T <= T' ->
  Forall (fun m => minted T (Message.id m)) l ->
  Forall (fun m => minted T' (Message.id m)) l.
Proof.
  intros H Hl. eapply Forall_impl; [|exact Hl].
  intros m. now apply minted_mono.
Qed.

Lemma stamped_mono T T' w : T <= T' -> stamped T w -> stamped T' w.
Proof.
  intros H (Hb & Hh & Hx). split; [|split].
  - now apply (messages_mono T).
  - eapply Forall_impl; [|exact Hh]. intros c. now apply messages_mono.
  - eapply Forall_impl; [|exact Hx]. intros x [H1 H2].
    split; [now apply (messages_mono T) | now apply (minted_mono T)].
Qed.

Lemma stamped_send T w clock :
  stamped T w -> T < clock 0%nat ->
  stamped (clock 0%nat) (step w (Send clock)).
Proof.
  intros Hw Hlt.
  destruct (stamped_mono T (clock 0%nat) w ltac:(lia) Hw) as (Hb & Hh & Hx).
  cbn [step]. unfold sendMessage.
  destruct (rejected (app w)); [now split|].
  split; [|split]; cbn.
  - apply Forall_app. split; [exact Hb|].
    constructor; [|constructor]. cbn. apply minted_reading. lia.
  - exact Hh.
  - apply Forall_app. split; [exact Hx|].
    constructor; [|constructor]. cbn.
    split; [exact Hb | apply minted_reading; lia].
Qed.

Lemma stamped_answer T w i data clock :
  stamped T w -> T <= clock 0%nat ->
  stamped (clock 0%nat + 1) (step w (Settled i (inr data) clock)).
Proof.
  intros Hw Hle.
  pose proof (stamped_mono T (clock 0%nat + 1) w ltac:(lia) Hw) as Hw'.
  destruct Hw' as (Hb & Hh & Hx).
  cbn [step].
  destruct (nth_error (inflight w) i) as [x|] eqn:N; [|now split].
  assert (Hxi : Forall (fun m => minted (clock 0%nat + 1) (Message.id m))
                  (Chat.messages (chat (view x))) /\
                minted (clock 0%nat + 1) (Message.id (userMessage x))).
  { rewrite Forall_forall in Hx. apply Hx. eapply nth_error_In, N. }
  destruct Hxi as [Hv Hu].
  assert (Ha : minted (clock 0%nat + 1) (Js.Z_toString (clock 0%nat + 1)))
    by (apply minted_reading; lia).
  split; [|split]; cbn.
  - unfold Chat.updateChatHistory.
    destruct (Js.truthy_ref _); cbn;
      (apply Forall_app; split; [exact Hb|]);
      constructor; [exact Ha | constructor | exact Ha | constructor].
  - assert (Hnew : Forall (fun m => minted (clock 0%nat + 1) (Message.id m))
                     (Chat.messages (chat (view x)) ++
                      [userMessage x;
                       Message.Build (Js.Z_toString (clock 0%nat + 1))
                         assistant (ApiResponse.response data)
                         (Some (ApiResponse.intent data))
                         (Some (ApiResponse.confidence data))
                         (Some (ApiResponse.sources data))
                         (Js.ValidDate (clock 1%nat))])).
    { apply Forall_app. split; [exact Hv|].
      constructor; [exact Hu|]. constructor; [exact Ha | constructor]. }
    unfold Chat.updateChatHistory.
    destruct (Js.truthy_ref _); cbn.
    + apply Forall_forall. intros c Hc. apply in_map_iff in Hc.
      destruct Hc as (c0 & <- & Hc0).
      rewrite Forall_forall in Hh.
      destruct (match Chat.currentChatId (chat (view x)) with
                | Some cur => String.eqb (ChatHistory.id c0) cur
                | None => false
                end); [exact Hnew | now apply Hh].
    + constructor; [exact Hnew | exact Hh].
  - now apply Forall_drop.
Qed.

Lemma Forall_filter_kept {A} (P : A -> Prop) (p : A -> bool) l :
  Forall P l -> Forall P (filter p l).
Proof.
  rewrite !Forall_forall. intros H x Hx.
  apply filter_In in Hx. now apply H.
Qed.

Lemma stamped_other T w e :
  stamped T w ->
  match e with
  | Send _ | Settled _ (inr _) _ => False
  | _ => True
  end ->
  stamped T (step w e).
Proof.
  intros (Hb & Hh & Hx) He.
  destruct e; cbn [step]; try contradiction.
  - now split.
  - destruct (nth_error (inflight w) i) as [x|]; [|now split].
    destruct outcome as [err|]; [|contradiction].
    split; [|split]; cbn.
    + now apply Forall_filter_kept.
    + exact Hh.
    + now apply Forall_drop.
  - split; [|split]; cbn; [constructor | exact Hh | exact Hx].
  - split; [|split; [|exact Hx]]; cbn; unfold Chat.loadChat.
    + destruct (find _ (Chat.chatHistories (chat (app w)))) as [c|] eqn:F;
        [|exact Hb].
      cbn. rewrite map_copyMessage.
      apply find_some in F. destruct F as [Hin _].
      rewrite Forall_forall in Hh. now apply Hh.
    + destruct (find _ _); exact Hh.
  - split; [|split; [|exact Hx]]; cbn; unfold Chat.deleteChat.
    + destruct (Chat.currentChatId (chat (app w))) as [cur|];
        [destruct (String.eqb cur chatId)|]; cbn;
        solve [constructor | exact Hb].
    + destruct (Chat.currentChatId (chat (app w))) as [cur|];
        [destruct (String.eqb cur chatId)|]; cbn;
        now apply Forall_filter_kept.
  - split; [|split]; cbn; [constructor | constructor | exact Hx].
  - now split.
Qed.

Lemma stamped_run es : forall T w,
  stamped T w -> ticking T es = true -> stamped (latest T es) (run w es).
Proof.
  induction es as [|e es IH]; intros T w Hw Ht; [exact Hw|].
  change (run w (e :: es)) with (run (step w e) es).
  destruct e as [text|clock|i [err|data] clock| |chatId|chatId| |];
    cbn [ticking latest] in *;
    try (apply IH; [now apply stamped_other | exact Ht]).
  - apply andb_prop in Ht. destruct Ht as [H1 H2].
    apply Z.ltb_lt in H1. apply IH; [now apply (stamped_send T) | exact H2].
  - apply andb_prop in Ht. destruct Ht as [H1 H2].
    apply Z.leb_le in H1. apply IH; [now apply (stamped_answer T) | exact H2].
Qed.

Lemma ticking_app es : forall T es',
  ticking T (es ++ es') = ticking T es && ticking (latest T es) es'.
Proof.
  induction es as [|e es IH]; intros T es'; [reflexivity|].
  destruct e as [text|clock|i [err|data] clock| |chatId|chatId| |];
    cbn [List.app ticking latest]; rewrite ?IH, ?andb_assoc; reflexivity.
Qed.

(** X21.  When no id number is met again, the rollback is exact in
    every run.  An id is made from a number: the reading of the
    submit for a user message, the reading of the answer plus one
    for an assistant message.  Suppose the ids of the stored
    messages were made from numbers up to [T0], every submit of the
    run, the last one included, reads its clock later than the
    number the id before it was made from, and every answer reads
    no earlier than that number ([ticking]; after an answer read at
    [r] the next submit reads [r + 2] or later).  Then whenever a
    submit passes the guard and its call fails, with no other event
    in between, the buffer is exactly what it was before the submit;
    histories and active chat are untouched, the busy flag is
    released and nothing is in flight. *)
Theorem failed_send_rolls_back_under_a_ticking_clock :
  forall (stored : list ChatHistory.t) (url uid : string)
         (es : list Event) (T0 : Z) (clock clock' : nat -> Z) (e : Exn),
    Forall (fun c => Forall (fun m => minted T0 (Message.id m))
                       (ChatHistory.messages c)) stored ->
    ticking T0 (es ++ [Send clock]) = true ->
    let w := run (mount stored url uid) es in
    rejected (app w) = false ->
    let w' := run w [Send clock; Settled 0 (inl e) clock'] in
    Chat.messages (chat (app w')) = Chat.messages (chat (app w)) /\
    Chat.chatHistories (chat (app w')) = Chat.chatHistories (chat (app w)) /\
    Chat.currentChatId (chat (app w')) = Chat.currentChatId (chat (app w)) /\
    isLoading (app w') = false /\ inflight w' = [].
Proof.
  intros stored url uid es T0 clock clock' e Hst Ht w R w'.
  rewrite ticking_app in Ht. apply andb_prop in Ht.
  destruct Ht as [Hes Hs]. cbn [ticking] in Hs.
  rewrite andb_true_r in Hs. apply Z.ltb_lt in Hs.
  assert (H0 : stamped T0 (mount stored url uid))
    by (split; [constructor | split; [exact Hst | constructor]]).
  destruct (stamped_run es T0 _ H0 Hes) as (Hb & _).
  fold w in Hb.
  pose proof (idle_has_no_flight stored url uid es R) as Hfl. fold w in Hfl.
  subst w'. generalize dependent w. intros w R Hb Hfl.
  cbn [run fold_left step]. unfold sendMessage. rewrite R, Hfl.
  cbn. repeat split.
  rewrite filter_app. cbn. rewrite String.eqb_refl. cbn.
  rewrite app_nil_r. apply filter_none.
  intros m Hm. rewrite Forall_forall in Hb.
  pose proof (minted_fresh _ _ _ (Hb m Hm) Hs) as Hne.
  destruct (String.eqb_spec (Message.id m) (Js.Z_toString (clock 0%nat)));
    [contradiction | reflexivity].
Qed.

Lemma failed_send_rolls_back_under_a_ticking_clock_witness :
  let data := ApiResponse.Build "general_query" Js.zero "Hi there!" []
                None "2024-01-01T00:00:00.000Z" in
  let es := [Typed "Hello"; Send (fun _ => 1000);
             Settled 0 (inr data) (fun _ => 1000); Typed "again"] in
  let w := run (mount [] "http://localhost:8000/api/ask" "user_1") es in
  let w' := run w [Send (fun _ => 1002);
                   Settled 0 (inl FetchFailed) (fun _ => 1003)] in
  List.length (Chat.messages (chat (app w))) = 2%nat /\
  Chat.messages (chat (app w')) = Chat.messages (chat (app w)).
Proof.
  intros data es w w'. split; [reflexivity|].
  exact (proj1 (failed_send_rolls_back_under_a_ticking_clock []
                  "http://localhost:8000/api/ask" "user_1" es 0
                  (fun _ => 1002) (fun _ => 1003) FetchFailed
                  (Forall_nil _) eq_refl eq_refl)).
Defined.

(** The bound on the submit after an answer cannot be relaxed to
    "later than the reading of the answer": with an answer read at
    1500 and the next submit at 1501 the readings advance, [ticking]
    does not hold, and the failed submit takes the answer with it. *)
Example submit_one_after_the_answer :
  let data := ApiResponse.Build "general_query" Js.zero "Hi there!" []
                None "2024-01-01T00:00:00.000Z" in
  let es := [Typed "Hello"; Send (fun _ => 1000);
             Settled 0 (inr data) (fun _ => 1500); Typed "again"] in
  let w := run (mount [] "http://localhost:8000/api/ask" "user_1") es in
  let w' := run w [Send (fun _ => 1501);
                   Settled 0 (inl FetchFailed) (fun _ => 1502)] in
  ticking 0 (es ++ [Send (fun _ => 1501)]) = false /\
  ticking 0 (es ++ [Send (fun _ => 1502)]) = true /\
  map Message.id (Chat.messages (chat (app w))) = ["1000"; "1501"] /\
  map Message.id (Chat.messages (chat (app w'))) = ["1000"].
Proof. repeat split. Qed.

(** *** Chat ids *)

Lemma numbered_mono T T' hs : T <= T' -> numbered T hs -> numbered T' hs.
Proof.
  intros H [Hm Hn]. split; [|exact Hn].
  eapply Forall_impl; [|exact Hm]. intros id. now apply minted_mono.
Qed.

Lemma numbered_filter T (p : ChatHistory.t -> bool) hs :
  numbered T hs -> numbered T (filter p hs).
Proof.
  intros [Hm Hn]. split; [|now apply distinct_filter].
  rewrite Forall_forall in *. intros id Hid.
  apply in_map_iff in Hid. destruct Hid as (c & <- & Hc).
  apply filter_In in Hc. apply Hm, in_map. tauto.
Qed.

Lemma ids_updateChatHistory t_id t_upd view u a s :
  map ChatHistory.id
    (Chat.chatHistories (Chat.updateChatHistory t_id t_upd view u a s))
  = if Js.truthy_ref (Chat.currentChatId view)
    then map ChatHistory.id (Chat.chatHistories s)
    else Js.Z_toString t_id :: map ChatHistory.id (Chat.chatHistories s).
Proof.
  unfold Chat.updateChatHistory.
  destruct (Js.truthy_ref (Chat.currentChatId view)); cbn; [|reflexivity].
  rewrite map_map. apply map_ext. intros c.
  destruct (match Chat.currentChatId view with
            | Some cur => String.eqb (ChatHistory.id c) cur
            | None => false
            end); reflexivity.
Qed.

Lemma numbered_run es : forall T w,
  numbered T (Chat.chatHistories (chat (app w))) ->
  chat_ticking T es = true ->
  exists T', numbered T' (Chat.chatHistories (chat (app (run w es)))).
Proof.
  induction es as [|e es IH]; intros T w Hw Ht; [now exists T|].
  change (run w (e :: es)) with (run (step w e) es).
  destruct e as [text|clock|i outcome clock| |chatId|chatId| |];
    cbn [chat_ticking] in Ht.
  - apply (IH T); [exact Hw | exact Ht].
  - apply (IH T); [|exact Ht]. cbn [step]. unfold sendMessage.
    destruct (rejected (app w)); exact Hw.
  - destruct outcome as [err|data].
    + apply (IH T); [|exact Ht]. cbn [step].
      destruct (nth_error (inflight w) i) as [x|]; exact Hw.
    + apply andb_prop in Ht. destruct Ht as [H1 H2].
      apply Z.ltb_lt in H1.
      apply (IH (clock 2%nat)); [|exact H2].
      destruct (numbered_mono T (clock 2%nat) _ ltac:(lia) Hw) as [Hm Hn].
      cbn [step].
      destruct (nth_error (inflight w) i) as [x|]; [|now split].
      unfold numbered. cbn. rewrite ids_updateChatHistory. cbn.
      destruct (Js.truthy_ref _); [now split|].
      split.
      * constructor; [apply minted_reading; lia | exact Hm].
      * constructor; [|exact Hn].
        intros Hin. destruct Hw as [Hm0 _].
        rewrite Forall_forall in Hm0.
        exact (minted_fresh _ _ _ (Hm0 _ Hin) H1 eq_refl).
  - apply (IH T); [exact Hw | exact Ht].
  - apply (IH T); [|exact Ht]. cbn. unfold Chat.loadChat.
    destruct (find _ _); exact Hw.
  - apply (IH T); [|exact Ht]. cbn. unfold Chat.deleteChat.
    destruct (Chat.currentChatId (chat (app w))) as [cur|];
      [destruct (String.eqb cur chatId)|]; cbn;
      now apply numbered_filter.
  - apply (IH T); [|exact Ht]. cbn. split; constructor.
  - apply (IH T); [exact Hw | exact Ht].
Qed.

(** X22.  Under a clock that advances, no two chats ever have the
    same id.  When the stored chats have distinct ids minted by some
    reading and every answer reads the clock for the id of a new chat
    after the readings chat ids were made from, the histories have
    distinct ids at every point of every run, so each row of the side
    bar opens its own chat. *)
Theorem chat_ids_stay_distinct_under_a_ticking_clock :
  forall (stored : list ChatHistory.t) (url uid : string)
         (es : list Event) (T0 : Z),
    numbered T0 stored ->
    chat_ticking T0 es = true ->
    let s := chat (app (run (mount stored url uid) es)) in
    Sidebar.distinct s /\
    (forall i c, nth_error (Chat.chatHistories s) i = Some c ->
       Chat.messages (Sidebar.click s i) = ChatHistory.messages c /\
       Chat.currentChatId (Sidebar.click s i) = Some (ChatHistory.id c)).
Proof.
  intros stored url uid es T0 Hst Ht s.
  destruct (numbered_run es T0 (mount stored url uid) Hst Ht)
    as (T' & _ & Hnd).
  fold s in Hnd. split; [exact Hnd|].
  intros i c Hn. unfold Sidebar.click. rewrite Hn. unfold Chat.loadChat.
  rewrite (find_distinct _ i c Hnd Hn). cbn.
  now rewrite map_copyMessage.
Qed.

Lemma chat_ids_stay_distinct_under_a_ticking_clock_witness :
  let data := ApiResponse.Build "general_query" Js.zero "Hi there!" []
                None "2024-01-01T00:00:00.000Z" in
  let es := [Typed "Hello"; Send (fun _ => 1000);
             Settled 0 (inr data) (fun _ => 1600); NewChat;
             Typed "More"; Send (fun _ => 2000);
             Settled 0 (inr data) (fun _ => 2600)] in
  let s := chat (app (run (mount [] "http://localhost:8000/api/ask"
                             "user_1") es)) in
  List.length (Chat.chatHistories s) = 2%nat /\ Sidebar.distinct s.
Proof.
  intros data es s. split; [reflexivity|].
  assert (H0 : numbered 0 []) by (split; constructor).
  exact (proj1 (chat_ids_stay_distinct_under_a_ticking_clock []
                  "http://localhost:8000/api/ask" "user_1" es 0
                  H0 eq_refl)).
Defined.

End TickingClock.
